(** * geopackage-js: tile-pyramid addressing and tile retrieval

    A shallow embedding of
    - [lib/tiles/retriever/index.ts] (class [GeoPackageTileRetriever]),
    - the tile arithmetic of class [TileBoundingBoxUtils],
    - the classes [FeatureTilePointIcon] and [RelationType], and the
      methods of [GeoPackageConnection] and [MetadataDao] that do work of
      their own,
    with the properties that the design document states about the first
    two, and further properties that the code of all of them shows.

    Numbers.  A JavaScript [number] is a binary64 float.  The tile
    arithmetic is embedded over exact rationals ([Q]), and integer-valued
    numbers (zoom levels, tile indices, matrix sizes) over [Z]; the 32-bit
    operators [<<] and [~~] have their wrap-around written out.  Where
    rounding or the special values of binary64 decide a property (the pixel
    mapping, the bounds and covering grid of a tile of the square world
    tiling, and the offsets of an icon), the methods are written once over
    an interface of number operations and read both over [Q] and over
    binary64 ([PrimFloat]).  A statement over [Q] is a statement about the
    arithmetic carried out exactly, and its hypotheses keep every
    denominator away from zero.

    Absent collaborators.  The classes [BoundingBox], [TileGrid], [TileDao],
    [TileCreator], the database adapter, the metadata reference DAO and the
    packages [proj4] and [@ngageoint/projections-js] are imported by the
    sources but are not part of them.  They appear below as records,
    parameters and small models, each marked as such. *)

From stdpp Require Import base option list gmap.
From Stdlib Require Import ZArith QArith Qround Qabs Qminmax Qpower Qfield.
From Stdlib Require Import Floats Lia Lqa Bool String.

Local Open Scope Z_scope.

(** ** JavaScript numbers *)

Module JS.

(** [Math.floor] and [Math.ceil] of an exact number, as an integer. *)
Definition floorZ (x : Q) : Z := Qfloor x.
Definition ceilZ (x : Q) : Z := Qceiling x.

(** [Math.round] of an exact number, as an integer: the nearest one, a tie
    going towards +infinity. *)
Definition roundZ (x : Q) : Z := Qfloor (x + (1 # 2)).

(** Truncation towards zero: the integer part that [~~], [<<] and a
    Java-style integer cast keep. *)
Definition trunc (x : Q) : Z :=
  if Qle_bool 0 x then Qfloor x else Qceiling x.

(** [ToInt32]: reduction modulo 2^32 into [-2^31, 2^31). *)
Definition ToInt32 (n : Z) : Z := (n + 2 ^ 31) mod 2 ^ 32 - 2 ^ 31.

(** [~~x]: two bitwise complements, so [ToInt32] of the integer part. *)
Definition double_tilde (x : Q) : Z := ToInt32 (trunc x).

(** [a << n] on integers: the count is taken modulo 32 and the result is
    again an int32. *)
Definition shl (a n : Z) : Z := ToInt32 (ToInt32 a * 2 ^ (n mod 32)).

(** [Math.pow(2, n)] for an integer [n] (a fraction when [n < 0]). *)
Definition Math_pow2 (n : Z) : Q := Qpower 2 n.

(** Comparison operators on numbers. *)
Definition lt (x y : Q) : bool := negb (Qle_bool y x).
Definition le (x y : Q) : bool := Qle_bool x y.
Definition gt (x y : Q) : bool := lt y x.
Definition ge (x y : Q) : bool := le y x.

(** A [while] loop over a state: [fuel] bounds the number of turns, and
    [None] is a loop that is still running when the fuel is spent. *)
Fixpoint while {S : Type} (fuel : nat) (cond : S -> bool) (body : S -> S)
    (s : S) : option S :=
  match fuel with
  | O => if cond s then None else Some s
  | Datatypes.S fuel' =>
      if cond s then while fuel' cond body (body s) else Some s
  end.

(** The operations on numbers that the generic part of the embedding is
    written with, as an interface with two readings: the four arithmetic
    operators, unary minus, an integer taken as a number, [Math.max],
    [Math.min], [Math.floor], [Math.ceil], and the truthiness that [||] and
    [&&] test. *)
Class Number (N : Type) : Type := {
  add : N -> N -> N;
  sub : N -> N -> N;
  mul : N -> N -> N;
  div : N -> N -> N;
  neg : N -> N;
  of_Z : Z -> N;
  Math_max : N -> N -> N;
  Math_min : N -> N -> N;
  Math_floor : N -> N;
  Math_ceil : N -> N;
  truthy : N -> bool }.

Declare Scope number_scope.
Delimit Scope number_scope with num.
Infix "+" := add : number_scope.
Infix "-" := sub : number_scope.
Infix "*" := mul : number_scope.
Infix "/" := div : number_scope.
Notation "- x" := (neg x) : number_scope.

(** The exact reading. *)
#[export] Instance Number_Q : Number Q :=
  {| add := Qplus; sub := Qminus; mul := Qmult; div := Qdiv; neg := Qopp;
     of_Z := inject_Z; Math_max := Qmax; Math_min := Qmin;
     Math_floor := fun x => inject_Z (Qfloor x);
     Math_ceil := fun x => inject_Z (Qceiling x);
     truthy := fun x => negb (Qeq_bool x 0) |}.

(** The binary64 reading.  An integer becomes the nearest binary64 number;
    [Math.floor] is read off the sign, mantissa and exponent of a finite
    number and leaves every other number as it is; [Math.ceil x] is
    [- Math.floor (- x)]; [Math.max] and [Math.min] answer NaN when an
    argument is NaN and order [-0] below [+0]. *)
Definition binary64_of_Z (z : Z) : float :=
  SF2Prim (binary_normalize prec emax z 0 false).

Definition binary64_floor (x : float) : float :=
  match Prim2SF x with
  | S754_finite s m e =>
      if 0 <=? e then x
      else binary64_of_Z (cond_Zopp s (Z.pos m) / 2 ^ (- e))
  | _ => x
  end.

Definition binary64_ceil (x : float) : float :=
  PrimFloat.opp (binary64_floor (PrimFloat.opp x)).

Definition binary64_max (a b : float) : float :=
  if is_nan a || is_nan b then nan
  else if PrimFloat.ltb a b then b
  else if PrimFloat.ltb b a then a
  else if get_sign a then b else a.

Definition binary64_min (a b : float) : float :=
  if is_nan a || is_nan b then nan
  else if PrimFloat.ltb a b then a
  else if PrimFloat.ltb b a then b
  else if get_sign a then a else b.

#[export] Instance Number_binary64 : Number float :=
  {| add := PrimFloat.add; sub := PrimFloat.sub;
     mul := PrimFloat.mul; div := PrimFloat.div; neg := PrimFloat.opp;
     of_Z := binary64_of_Z;
     Math_max := binary64_max; Math_min := binary64_min;
     Math_floor := binary64_floor; Math_ceil := binary64_ceil;
     truthy := fun x => negb (is_zero x || is_nan x) |}.

End JS.

Import JS.

(** ** Value classes that the sources import *)

(** Modelled from the spec: the class [BoundingBox], which is not among the
    sources ("BoundingBox: {minX, minY, maxX, maxY}").  The four fields bear
    the names by which the sources read them ([getMinLongitude()] or
    [.minLongitude], and so on).  The sources call the constructor with two
    argument orders, [(minLon, minLat, maxLon, maxLat)] in the upper part of
    [TileBoundingBoxUtils] and [(minLon, maxLon, minLat, maxLat)] in its lower
    part; each call is embedded by the field its argument is computed for.
    No statement below takes a box that one part builds for the box that
    the other part builds. *)
Record BoundingBox (N : Type) : Type := mkBoundingBox {
  minLongitude : N;
  minLatitude : N;
  maxLongitude : N;
  maxLatitude : N }.
Arguments mkBoundingBox {N}.
Arguments minLongitude {N}.
Arguments minLatitude {N}.
Arguments maxLongitude {N}.
Arguments maxLatitude {N}.

(** Modelled from the spec: the getters [width] and [height] of the absent
    class [BoundingBox], which the pixel mapping of the spec writes out as
    [box.maxX - box.minX] and [box.maxY - box.minY]. *)
Definition width {N} `{Number N} (b : BoundingBox N) : N :=
  sub (maxLongitude b) (minLongitude b).
Definition height {N} `{Number N} (b : BoundingBox N) : N :=
  sub (maxLatitude b) (minLatitude b).

(** Modelled from the spec: the class [TileGrid], which is not among the
    sources ("TileGrid: {minX, minY, maxX, maxY} integer tile indices ...
    inclusive on both ends"), with the field names of the sources. *)
Record TileGrid : Type := mkTileGrid {
  min_x : Z;
  min_y : Z;
  max_x : Z;
  max_y : Z }.

(** Modelled from the spec: the class [TileMatrix], which is not among the
    sources ("{zoomLevel, matrixWidth, matrixHeight, tileWidthPixels,
    tileHeightPixels}, one per stored zoom level"), with the field names of
    the sources. *)
Record TileMatrix : Type := mkTileMatrix {
  zoom_level : Z;
  matrix_width : Z;
  matrix_height : Z;
  tile_width : Q;
  tile_height : Q }.

(** The constants of [ProjectionConstants] (package
    [@ngageoint/projections-js]) that the tile arithmetic reads. *)
Record ProjectionConstants (N : Type) : Type := mkProjectionConstants {
  WEB_MERCATOR_HALF_WORLD_WIDTH : N;
  WEB_MERCATOR_PRECISION : N }.
Arguments mkProjectionConstants {N}.
Arguments WEB_MERCATOR_HALF_WORLD_WIDTH {N}.
Arguments WEB_MERCATOR_PRECISION {N}.

(** The values that package publishes, 20037508.342789244 and
    0.0000000001: as decimal fractions, and as the binary64 numbers nearest
    to them. *)
Definition projections_js : ProjectionConstants Q :=
  {| WEB_MERCATOR_HALF_WORLD_WIDTH := 20037508.342789244%Q;
     WEB_MERCATOR_PRECISION := 0.0000000001%Q |}.

Definition projections_js_binary64 : ProjectionConstants float :=
  {| WEB_MERCATOR_HALF_WORLD_WIDTH := 0x1.31bf8457c1093p+24%float;
     WEB_MERCATOR_PRECISION := 0x1.b7cdfd9d7bdbbp-34%float |}.

(** The constants of [ProjectionConstants] that the degree tiling and the
    latitude limits read: the half widths of the WGS84 world (180 and 90
    degrees) and the latitude range of web mercator. *)
Record DegreeConstants (N : Type) : Type := mkDegreeConstants {
  WGS84_HALF_WORLD_LON_WIDTH : N;
  WGS84_HALF_WORLD_LAT_HEIGHT : N;
  WEB_MERCATOR_MIN_LAT_RANGE : N;
  WEB_MERCATOR_MAX_LAT_RANGE : N }.
Arguments mkDegreeConstants {N}.
Arguments WGS84_HALF_WORLD_LON_WIDTH {N}.
Arguments WGS84_HALF_WORLD_LAT_HEIGHT {N}.
Arguments WEB_MERCATOR_MIN_LAT_RANGE {N}.
Arguments WEB_MERCATOR_MAX_LAT_RANGE {N}.

(** The values that package publishes. *)
Definition projections_js_degrees : DegreeConstants Q :=
  {| WGS84_HALF_WORLD_LON_WIDTH := 180%Q;
     WGS84_HALF_WORLD_LAT_HEIGHT := 90%Q;
     WEB_MERCATOR_MIN_LAT_RANGE := (-85.05112877980659)%Q;
     WEB_MERCATOR_MAX_LAT_RANGE := 85.0511287798066%Q |}.

(** A point of the closed rectangle that a box spans. *)
Definition contains (b : BoundingBox Q) (lon lat : Q) : Prop :=
  (minLongitude b <= lon <= maxLongitude b /\
   minLatitude b <= lat <= maxLatitude b)%Q.

(** Two boxes with equal bounds, as numbers. *)
Definition same_bounds (a b : BoundingBox Q) : Prop :=
  (minLongitude a == minLongitude b /\ minLatitude a == minLatitude b /\
   maxLongitude a == maxLongitude b /\ maxLatitude a == maxLatitude b)%Q.

(** ** [GeoPackageTileRetriever.determineGeoPackageZoomLevel] *)

Module ZoomLevel.

(** The test of the loop body:
    [tileWidth <= width || difference <= tolerance]. *)
Definition fits (width tileWidth : Q) : bool :=
  let difference := Qabs (width - tileWidth) in
  let tolerance := (0.001 * tileWidth)%Q in
  le tileWidth width || le difference tolerance.

(** The [for] loop over [tileDao.widths], from index [i] on, with the
    current value of [gpZoom] ([None] is [undefined]). *)
Fixpoint scan (maxZoom : Z) (width : Q) (widths : list Q) (i : Z)
    (gpZoom : option Z) : option Z :=
  match widths with
  | [] => gpZoom
  | tileWidth :: rest =>
      scan maxZoom width rest (i + 1)
        (if fits width tileWidth then Some (maxZoom - i) else gpZoom)
  end.

(** [inverse] is [proj4(tileDao.projection, 'EPSG:3857').inverse], on
    coordinate pairs; [widths] and [maxZoom] are the fields of [tileDao]. *)
Definition determineGeoPackageZoomLevel (inverse : Q * Q -> Q * Q)
    (widths : list Q) (maxZoom : Z)
    (webMercatorBoundingBox : BoundingBox Q) : option Z :=
  let ne := inverse (maxLongitude webMercatorBoundingBox,
                     maxLatitude webMercatorBoundingBox) in
  let sw := inverse (minLongitude webMercatorBoundingBox,
                     minLatitude webMercatorBoundingBox) in
  let width := (fst ne - fst sw)%Q in
  scan maxZoom width widths 0 None.

(** The rule as the design document words it, for comparison: a stored
    width qualifies when it is at least the requested width or within the
    tolerance band, and the largest qualifying zoom level is the answer.
    Zoom level [maxZoom - i] has the stored width [widths[i]], so the
    largest qualifying level is the first qualifying index. *)
Definition qualifies_as_worded (width tileWidth : Q) : bool :=
  le width tileWidth || le (Qabs (width - tileWidth)) (0.001 * tileWidth)%Q.

Fixpoint largest_zoom_as_worded (maxZoom : Z) (width : Q) (widths : list Q)
    (i : Z) : option Z :=
  match widths with
  | [] => None
  | tileWidth :: rest =>
      if qualifies_as_worded width tileWidth then Some (maxZoom - i)
      else largest_zoom_as_worded maxZoom width rest (i + 1)
  end.

End ZoomLevel.

(** ** [TileBoundingBoxUtils], upper part (lines 15 to 1483)

    The methods that read a box through its accessors
    ([getMinLongitude()] ...).  Several names of this part are declared a
    second time in the lower part of the class; the two parts are kept in
    two modules.

    Some methods of this part have no behaviour to embed and are left out.
    The zoom-level remapping of a tile grid (lines 1365 to 1483) and the
    degree tiling of WGS84 (lines 1210 to 1350) are still written in Java:
    parameters and variables declared [long], [int] and [double], [(long)]
    and [(int)] casts, and bodies that read names which nothing declares
    ([zoomChange], [zoomLevels]).  [getBoundingBoxForTileGrid] (lines 999 to
    1023) returns the name [boundingBox], which its body does not declare,
    and [getBoundingBox] and [getBoundingBoxForTileMatrixAndTileGrid]
    (lines 962 to 982) only call it. *)

Module Upper.

(** *** Pixel mapping (lines 106 to 207) *)
Section PixelMapping.
Context {N : Type} `{Number N}.
Local Open Scope number_scope.

Definition getXPixel (width : N) (boundingBox : BoundingBox N)
    (longitude : N) : N :=
  let boxWidth := maxLongitude boundingBox - minLongitude boundingBox in
  let offset := longitude - minLongitude boundingBox in
  let percentage := offset / boxWidth in
  let pixel := percentage * width in
  pixel.

Definition getLongitudeFromPixel (width : N)
    (boundingBox tileBoundingBox : BoundingBox N) (pixel : N) : N :=
  let boxWidth :=
    maxLongitude tileBoundingBox - minLongitude tileBoundingBox in
  let percentage := pixel / width in
  let offset := percentage * boxWidth in
  let longitude := offset + minLongitude boundingBox in
  longitude.

Definition getYPixel (height : N) (boundingBox : BoundingBox N)
    (latitude : N) : N :=
  let boxHeight := maxLatitude boundingBox - minLatitude boundingBox in
  let offset := maxLatitude boundingBox - latitude in
  let percentage := offset / boxHeight in
  let pixel := percentage * height in
  pixel.

Definition getLatitudeFromPixel (height : N)
    (boundingBox tileBoundingBox : BoundingBox N) (pixel : N) : N :=
  let boxHeight :=
    maxLatitude tileBoundingBox - minLatitude tileBoundingBox in
  let percentage := pixel / height in
  let offset := percentage * boxHeight in
  let latitude := maxLatitude boundingBox - offset in
  latitude.
End PixelMapping.

(** *** Square world tiling (lines 551 to 567 and 690 to 752) *)

Definition tileSize (pc : ProjectionConstants Q) (tilesPerSide : Z) : Q :=
  (2 * WEB_MERCATOR_HALF_WORLD_WIDTH pc) / inject_Z tilesPerSide.

Definition tilesPerSide (zoom : Z) : Z := roundZ (Math_pow2 zoom).

Definition getTileGridFromBoundingBox (pc : ProjectionConstants Q)
    (webMercatorBoundingBox : BoundingBox Q) (zoom : Z) : TileGrid :=
  let half := WEB_MERCATOR_HALF_WORLD_WIDTH pc in
  let tilesPerSide := tilesPerSide zoom in
  let tileSize := tileSize pc tilesPerSide in
  let minX :=
    roundZ ((minLongitude webMercatorBoundingBox + half) / tileSize) in
  let tempMaxX := ((maxLongitude webMercatorBoundingBox + half) / tileSize)%Q in
  let maxX := roundZ (tempMaxX - WEB_MERCATOR_PRECISION pc) in
  let maxX := Z.min maxX (tilesPerSide - 1) in
  let minY :=
    roundZ
      (((maxLatitude webMercatorBoundingBox - half) * -1) / tileSize) in
  let tempMaxY :=
    (((minLatitude webMercatorBoundingBox - half) * -1) / tileSize)%Q in
  let maxY := roundZ (tempMaxY - WEB_MERCATOR_PRECISION pc) in
  let maxY := Z.min maxY (tilesPerSide - 1) in
  mkTileGrid minX minY maxX maxY.

(** *** Arbitrary tile matrix (lines 839 to 926) *)

Definition getTileColumn (totalBox : BoundingBox Q) (matrixWidth : Z)
    (longitude : Q) : Z :=
  let minX := minLongitude totalBox in
  let maxX := maxLongitude totalBox in
  if lt longitude minX then -1
  else if ge longitude maxX then matrixWidth
  else
    let matrixWidthMeters := (maxLongitude totalBox - minLongitude totalBox)%Q in
    let tileWidth := (matrixWidthMeters / inject_Z matrixWidth)%Q in
    roundZ ((longitude - minX) / tileWidth).

Definition getTileRow (totalBox : BoundingBox Q) (matrixHeight : Z)
    (latitude : Q) : Z :=
  let minY := minLatitude totalBox in
  let maxY := maxLatitude totalBox in
  if le latitude minY then matrixHeight
  else if gt latitude maxY then -1
  else
    let matrixHeightMeters := (maxLatitude totalBox - minLatitude totalBox)%Q in
    let tileHeight := (matrixHeightMeters / inject_Z matrixHeight)%Q in
    roundZ ((maxY - latitude) / tileHeight).

Definition getTileGrid (totalBox : BoundingBox Q) (matrixWidth matrixHeight : Z)
    (boundingBox : BoundingBox Q) : TileGrid :=
  let minColumn := getTileColumn totalBox matrixWidth (minLongitude boundingBox) in
  let maxColumn := getTileColumn totalBox matrixWidth (maxLongitude boundingBox) in
  let '(minColumn, maxColumn) :=
    if (minColumn <? matrixWidth) && (maxColumn >=? 0) then
      (if minColumn <? 0 then 0 else minColumn,
       if maxColumn >=? matrixWidth then matrixWidth - 1 else maxColumn)
    else (minColumn, maxColumn) in
  let maxRow := getTileRow totalBox matrixHeight (minLatitude boundingBox) in
  let minRow := getTileRow totalBox matrixHeight (maxLatitude boundingBox) in
  let '(minRow, maxRow) :=
    if (minRow <? matrixHeight) && (maxRow >=? 0) then
      (if minRow <? 0 then 0 else minRow,
       if maxRow >=? matrixHeight then matrixHeight - 1 else maxRow)
    else (minRow, maxRow) in
  mkTileGrid minColumn minRow maxColumn maxRow.

(** *** Tiles of the degree grid and of the square world (lines 220 to 274) *)

Definition tileWidthDegrees (tilesPerSide : Z) : Q :=
  360 / inject_Z tilesPerSide.

Definition tileHeightDegrees (tilesPerSide : Z) : Q :=
  180 / inject_Z tilesPerSide.

Definition getBoundingBox (x y zoom : Z) : BoundingBox Q :=
  let tilesPerSide := tilesPerSide zoom in
  let tileWidthDegrees := tileWidthDegrees tilesPerSide in
  let tileHeightDegrees := tileHeightDegrees tilesPerSide in
  let minLon := (-180 + inject_Z x * tileWidthDegrees)%Q in
  let maxLon := (minLon + tileWidthDegrees)%Q in
  let maxLat := (90 - inject_Z y * tileHeightDegrees)%Q in
  let minLat := (maxLat - tileHeightDegrees)%Q in
  mkBoundingBox minLon minLat maxLon maxLat.

(** [tileSizeWithZoom(zoom)] (lines 762 to 766). *)
Definition tileSizeWithZoom (pc : ProjectionConstants Q) (zoom : Z) : Q :=
  let tilesPerSide := tilesPerSide zoom in
  let tileSize := tileSize pc tilesPerSide in
  tileSize.

Definition getWebMercatorBoundingBoxFromTileGrid (pc : ProjectionConstants Q)
    (tileGrid : TileGrid) (zoom : Z) : BoundingBox Q :=
  let half := WEB_MERCATOR_HALF_WORLD_WIDTH pc in
  let tileSize := tileSizeWithZoom pc zoom in
  let minLon := (-1 * half + inject_Z (min_x tileGrid) * tileSize)%Q in
  let maxLon := (-1 * half + inject_Z (max_x tileGrid + 1) * tileSize)%Q in
  let minLat := (half - inject_Z (max_y tileGrid + 1) * tileSize)%Q in
  let maxLat := (half - inject_Z (min_y tileGrid) * tileSize)%Q in
  mkBoundingBox minLon minLat maxLon maxLat.

Definition getWebMercatorBoundingBox (pc : ProjectionConstants Q)
    (x y zoom : Z) : BoundingBox Q :=
  getWebMercatorBoundingBoxFromTileGrid pc (mkTileGrid x y x y) zoom.

(** *** Tolerance distance and the opposite row (lines 778 to 813) *)

Definition toleranceDistanceForLength (pc : ProjectionConstants Q)
    (zoom : Z) (pixels : Q) : Q :=
  let tileSize := tileSizeWithZoom pc zoom in
  let tolerance := (tileSize / pixels)%Q in
  tolerance.

Definition toleranceDistance (pc : ProjectionConstants Q) (zoom : Z)
    (pixelWidth pixelHeight : Q) : Q :=
  toleranceDistanceForLength pc zoom (Qmax pixelWidth pixelHeight).

(** [getYAsOppositeTileFormat] (lines 809 to 813), on integer-valued
    numbers; the integer arithmetic is that of binary64 as long as
    [tilesPerSide] and [y] stay within [2^53]. *)
Definition getYAsOppositeTileFormat (zoom y : Z) : Z :=
  let tilesPerSide := tilesPerSide zoom in
  let oppositeY := tilesPerSide - y - 1 in
  oppositeY.

(** *** Pixel sizes (lines 1069 to 1089) *)

Definition getPixelXSize (webMercatorBoundingBox : BoundingBox Q)
    (matrixWidth : Z) (tileWidth : Q) : Q :=
  let pixelXSize :=
    ((maxLongitude webMercatorBoundingBox
      - minLongitude webMercatorBoundingBox)
     / inject_Z matrixWidth / tileWidth)%Q in
  pixelXSize.

Definition getPixelYSize (webMercatorBoundingBox : BoundingBox Q)
    (matrixHeight : Z) (tileHeight : Q) : Q :=
  let pixelYSize :=
    ((maxLatitude webMercatorBoundingBox
      - minLatitude webMercatorBoundingBox)
     / inject_Z matrixHeight / tileHeight)%Q in
  pixelYSize.

End Upper.

(** ** [TileBoundingBoxUtils], lower part (lines 1487 to 2057)

    The methods that read a box through its fields ([.minLongitude] ...). *)

Module Lower.

(** *** Square world tiling *)

Definition tilesPerSideWithZoom (zoom : Z) : Z := shl 1 zoom.

Definition tileSize (pc : ProjectionConstants Q) (tilesPerSide : Q) : Q :=
  (2 * WEB_MERCATOR_HALF_WORLD_WIDTH pc) / tilesPerSide.

Definition tilesPerSide (zoom : Z) : Q := Math_pow2 zoom.

(** The optional argument [options] of
    [getWebMercatorBoundingBoxFromXYZ]. *)
Record Options (N : Type) : Type := mkOptions {
  options_tileSize : option N;
  options_buffer : option N }.
Arguments mkOptions {N}.
Arguments options_tileSize {N}.
Arguments options_buffer {N}.

Section SquareWorld.
Context {N : Type} `{Number N}.
Local Open Scope number_scope.

Definition tileSizeWithTilesPerSide (pc : ProjectionConstants N)
    (tilesPerSide : Z) : N :=
  (of_Z 2 * WEB_MERCATOR_HALF_WORLD_WIDTH pc) / of_Z tilesPerSide.

(** [webMercatorTileBox] (lines 1497 to 1520).  Its result is a
    [BoundingBox] that holds tile indices. *)
Definition webMercatorTileBox (pc : ProjectionConstants N)
    (webMercatorBoundingBox : BoundingBox N) (zoom : Z) : BoundingBox N :=
  let half := WEB_MERCATOR_HALF_WORLD_WIDTH pc in
  let tilesPerSide := tilesPerSideWithZoom zoom in
  let tileSize := tileSizeWithTilesPerSide pc tilesPerSide in
  let minLonClip := Math_max (- half) (minLongitude webMercatorBoundingBox) in
  let maxLonClip := Math_min half (maxLongitude webMercatorBoundingBox) in
  let minLatClip := Math_max (- half) (minLatitude webMercatorBoundingBox) in
  let maxLatClip := Math_min half (maxLatitude webMercatorBoundingBox) in
  let minX := Math_floor ((minLonClip + half) / tileSize) in
  let maxX :=
    Math_max (of_Z 0) (Math_ceil ((maxLonClip + half) / tileSize) - of_Z 1) in
  let minY := Math_floor ((half - maxLatClip) / tileSize) in
  let maxY :=
    Math_max (of_Z 0) (Math_ceil ((half - minLatClip) / tileSize) - of_Z 1) in
  {| minLongitude := minX; maxLongitude := maxX;
     minLatitude := minY; maxLatitude := maxY |}.

Definition defined_and_truthy (x : option N) : bool :=
  match x with Some v => truthy v | None => false end.

(** [getWebMercatorBoundingBoxFromXYZ] (lines 1625 to 1660), in two
    pieces: the statements that follow the two [while] loops (lines 1642 to
    1659), on the corrected [x], and the function itself, whose loops run on
    [fuel].  The column [x] is an integer-valued number and the loops add
    and subtract integers: as long as [x] is within [2^53] these sums are
    the ones of binary64, since both loops bring [x] towards zero.  Beyond
    [2^53] binary64 no longer holds every integer, and the statements
    about a call that returns keep [x] within that bound. *)
Definition boundsAfterCorrection (pc : ProjectionConstants N) (x y zoom : Z)
    (options : option (Options N)) : BoundingBox N :=
  let half := WEB_MERCATOR_HALF_WORLD_WIDTH pc in
  let tilesPerSide := tilesPerSideWithZoom zoom in
  let tileSize := tileSizeWithTilesPerSide pc tilesPerSide in
  let meterBuffer :=
    match options with
    | Some o =>
        if defined_and_truthy (options_buffer o)
           && defined_and_truthy (options_tileSize o)
        then
          let pixelBuffer := default (of_Z 0) (options_buffer o) in
          let metersPerPixel :=
            tileSize / default (of_Z 0) (options_tileSize o) in
          metersPerPixel * pixelBuffer
        else of_Z 0
    | None => of_Z 0
    end in
  let minLon := of_Z (-1) * half + of_Z x * tileSize - meterBuffer in
  let maxLon := of_Z (-1) * half + of_Z (x + 1)%Z * tileSize + meterBuffer in
  let minLat := half - of_Z (y + 1)%Z * tileSize - meterBuffer in
  let maxLat := half - of_Z y * tileSize + meterBuffer in
  let minLon := Math_max (of_Z (-1) * half) minLon in
  let maxLon := Math_min half maxLon in
  let minLat := Math_max (of_Z (-1) * half) minLat in
  let maxLat := Math_min half maxLat in
  {| minLongitude := minLon; maxLongitude := maxLon;
     minLatitude := minLat; maxLatitude := maxLat |}.

Definition getWebMercatorBoundingBoxFromXYZ (fuel : nat)
    (pc : ProjectionConstants N) (x y zoom : Z) (options : option (Options N))
    : option (BoundingBox N) :=
  let tilesPerSide := tilesPerSideWithZoom zoom in
  match while fuel (fun x => (x <? 0)%Z) (fun x => (x + tilesPerSide)%Z) x with
  | None => None
  | Some x =>
      match while fuel (fun x => (x >=? tilesPerSide)%Z)
                  (fun x => (x - tilesPerSide)%Z) x with
      | None => None
      | Some x => Some (boundsAfterCorrection pc x y zoom options)
      end
  end.

End SquareWorld.

(** [intersection] (lines 1689 to 1698). *)
Definition intersection (boundingBoxA boundingBoxB : BoundingBox Q)
    : option (BoundingBox Q) :=
  let x1 := Qmax (minLongitude boundingBoxA) (minLongitude boundingBoxB) in
  let y1 := Qmax (minLatitude boundingBoxA) (minLatitude boundingBoxB) in
  let x2 := Qmin (maxLongitude boundingBoxA) (maxLongitude boundingBoxB) in
  let y2 := Qmin (maxLatitude boundingBoxA) (maxLatitude boundingBoxB) in
  if gt x1 x2 || gt y1 y2 then None
  else Some {| minLongitude := x1; maxLongitude := x2;
               minLatitude := y1; maxLatitude := y2 |}.

(** *** Arbitrary tile matrix (lines 1766 to 1870) *)

Definition getTileColumnWithTotalBoundingBox
    (webMercatorTotalBox : BoundingBox Q) (matrixWidth : Z) (longitude : Q)
    : Z :=
  let minX := minLongitude webMercatorTotalBox in
  let maxX := maxLongitude webMercatorTotalBox in
  if lt longitude minX then -1
  else if ge longitude maxX then matrixWidth
  else
    let matrixWidthMeters := (maxX - minX)%Q in
    let tileWidth := (matrixWidthMeters / inject_Z matrixWidth)%Q in
    let tileIdDouble := ((longitude - minX) / tileWidth)%Q in
    double_tilde tileIdDouble.

Definition getRowWithTotalBoundingBox
    (webMercatorTotalBox : BoundingBox Q) (matrixHeight : Z) (latitude : Q)
    : Z :=
  let minY := minLatitude webMercatorTotalBox in
  let maxY := maxLatitude webMercatorTotalBox in
  if lt latitude minY then matrixHeight
  else if ge latitude maxY then -1
  else
    let matrixHeightMeters := (maxY - minY)%Q in
    let tileHeight := (matrixHeightMeters / inject_Z matrixHeight)%Q in
    let tileIdDouble := ((maxY - latitude) / tileHeight)%Q in
    double_tilde tileIdDouble.

Definition getTileGridWithTotalBoundingBox (totalBoundingBox : BoundingBox Q)
    (matrixWidth matrixHeight : Z) (boundingBox : BoundingBox Q) : TileGrid :=
  let minColumn :=
    getTileColumnWithTotalBoundingBox totalBoundingBox matrixWidth
      (minLongitude boundingBox) in
  let maxColumn :=
    getTileColumnWithTotalBoundingBox totalBoundingBox matrixWidth
      (maxLongitude boundingBox) in
  let '(minColumn, maxColumn) :=
    if (minColumn <? matrixWidth) && (maxColumn >=? 0) then
      (if minColumn <? 0 then 0 else minColumn,
       if maxColumn >=? matrixWidth then matrixWidth - 1 else maxColumn)
    else (minColumn, maxColumn) in
  let maxRow :=
    getRowWithTotalBoundingBox totalBoundingBox matrixHeight
      (minLatitude boundingBox) in
  let minRow :=
    getRowWithTotalBoundingBox totalBoundingBox matrixHeight
      (maxLatitude boundingBox) in
  let '(minRow, maxRow) :=
    if (minRow <? matrixHeight) && (maxRow >=? 0) then
      (if minRow <? 0 then 0 else minRow,
       if maxRow >=? matrixHeight then matrixHeight - 1 else maxRow)
    else (minRow, maxRow) in
  {| min_x := minColumn; max_x := maxColumn;
     min_y := minRow; max_y := maxRow |}.

(** *** Pixel mapping (lines 1941 to 1965) *)
Section PixelMapping.
Context {N : Type} `{Number N}.
Local Open Scope number_scope.

Definition getXPixel (width_ : N) (boundingBox : BoundingBox N)
    (longitude : N) : N :=
  ((longitude - minLongitude boundingBox) / width boundingBox) * width_.

Definition getLongitudeFromPixel (width_ : N)
    (boundingBox tileBoundingBox : BoundingBox N) (pixel : N) : N :=
  (pixel / width_) * width tileBoundingBox + minLongitude boundingBox.

Definition getYPixel (height_ : N) (boundingBox : BoundingBox N)
    (latitude : N) : N :=
  ((maxLatitude boundingBox - latitude) / height boundingBox) * height_.

Definition getLatitudeFromPixel (height_ : N)
    (boundingBox tileBoundingBox : BoundingBox N) (pixel : N) : N :=
  maxLatitude boundingBox - (pixel / height_) * height tileBoundingBox.
End PixelMapping.

(** [intersects] (lines 1685 to 1687). *)
Definition intersects (boundingBoxA boundingBoxB : BoundingBox Q) : bool :=
  match intersection boundingBoxA boundingBoxB with
  | Some _ => true
  | None => false
  end.

(** *** The degree tiling of WGS84 (lines 1532 to 1552, 1662 to 1672 and
    1717 to 1755) *)

Definition tilesPerWGS84LatSide (zoom : Z) : Q := tilesPerSide zoom.

Definition tilesPerWGS84LonSide (zoom : Z) : Q := 2 * tilesPerSide zoom.

Definition tileSizeLatPerWGS84Side (dc : DegreeConstants Q) (tilesPerLat : Q)
    : Q :=
  (2 * WGS84_HALF_WORLD_LAT_HEIGHT dc) / tilesPerLat.

Definition tileSizeLonPerWGS84Side (dc : DegreeConstants Q) (tilesPerLon : Q)
    : Q :=
  (2 * WGS84_HALF_WORLD_LON_WIDTH dc) / tilesPerLon.

(** [wgs84TileBox]: like [webMercatorTileBox], its result is a
    [BoundingBox] that holds tile indices. *)
Definition wgs84TileBox (dc : DegreeConstants Q)
    (wgs84BoundingBox : BoundingBox Q) (zoom : Z) : BoundingBox Q :=
  let halfLon := WGS84_HALF_WORLD_LON_WIDTH dc in
  let halfLat := WGS84_HALF_WORLD_LAT_HEIGHT dc in
  let tilesPerSideLat := tilesPerWGS84LatSide zoom in
  let tilesPerSideLon := tilesPerWGS84LonSide zoom in
  let tileSizeLat := tileSizeLatPerWGS84Side dc tilesPerSideLat in
  let tileSizeLon := tileSizeLonPerWGS84Side dc tilesPerSideLon in
  let minLonClip := Qmax (- halfLon) (minLongitude wgs84BoundingBox) in
  let maxLonClip := Qmin halfLon (maxLongitude wgs84BoundingBox) in
  let minLatClip := Qmax (- halfLat) (minLatitude wgs84BoundingBox) in
  let maxLatClip := Qmin halfLat (maxLatitude wgs84BoundingBox) in
  let minX := Math_floor ((minLonClip + halfLon) / tileSizeLon)%Q in
  let maxX :=
    Qmax 0 (Math_ceil ((maxLonClip + halfLon) / tileSizeLon)%Q - 1) in
  let minY := Math_floor ((halfLat - maxLatClip) / tileSizeLat)%Q in
  let maxY :=
    Qmax 0 (Math_ceil ((halfLat - minLatClip) / tileSizeLat)%Q - 1) in
  {| minLongitude := minX; maxLongitude := maxX;
     minLatitude := minY; maxLatitude := maxY |}.

Definition getWGS84BoundingBoxFromXYZ (dc : DegreeConstants Q) (x y zoom : Z)
    : BoundingBox Q :=
  let tilesPerLat := tilesPerWGS84LatSide zoom in
  let tilesPerLon := tilesPerWGS84LonSide zoom in
  let tileSizeLat := tileSizeLatPerWGS84Side dc tilesPerLat in
  let tileSizeLon := tileSizeLonPerWGS84Side dc tilesPerLon in
  let minLon :=
    (-1 * WGS84_HALF_WORLD_LON_WIDTH dc + inject_Z x * tileSizeLon)%Q in
  let maxLon :=
    (-1 * WGS84_HALF_WORLD_LON_WIDTH dc + inject_Z (x + 1) * tileSizeLon)%Q in
  let minLat :=
    (WGS84_HALF_WORLD_LAT_HEIGHT dc - inject_Z (y + 1) * tileSizeLat)%Q in
  let maxLat :=
    (WGS84_HALF_WORLD_LAT_HEIGHT dc - inject_Z y * tileSizeLat)%Q in
  {| minLongitude := minLon; maxLongitude := maxLon;
     minLatitude := minLat; maxLatitude := maxLat |}.

(** *** Where a stored tile goes in the requested tile (lines 1554 to
    1613) *)

Record PositionAndScale : Type := mkPositionAndScale {
  yPositionInFinalTileStart : Q;
  xPositionInFinalTileStart : Q;
  dx : Q;
  dy : Q;
  sx : Q;
  sy : Q;
  dWidth : Q;
  dHeight : Q;
  sWidth : Q;
  sHeight : Q }.

Definition determinePositionAndScale
    (geoPackageTileBoundingBox : BoundingBox Q) (tileHeight tileWidth : Q)
    (totalBoundingBox : BoundingBox Q) (totalHeight totalWidth : Q)
    : PositionAndScale :=
  let finalTileWidth :=
    (maxLongitude totalBoundingBox - minLongitude totalBoundingBox)%Q in
  let xoffsetMin :=
    (minLongitude geoPackageTileBoundingBox
     - minLongitude totalBoundingBox)%Q in
  let xpercentageMin := (xoffsetMin / finalTileWidth)%Q in
  let finalTileHeight :=
    (maxLatitude totalBoundingBox - minLatitude totalBoundingBox)%Q in
  let yoffsetMax :=
    (maxLatitude totalBoundingBox
     - maxLatitude geoPackageTileBoundingBox)%Q in
  let ypercentageMax := (yoffsetMax / finalTileHeight)%Q in
  let finalTilePixelsPerUnitWidth := (totalWidth / finalTileWidth)%Q in
  let widthInFinalTileUnits :=
    ((maxLongitude geoPackageTileBoundingBox
      - minLongitude geoPackageTileBoundingBox)
     * finalTilePixelsPerUnitWidth)%Q in
  let finalTilePixelsPerUnitHeight := (totalHeight / finalTileHeight)%Q in
  let heightInFinalTileUnits :=
    ((maxLatitude geoPackageTileBoundingBox
      - minLatitude geoPackageTileBoundingBox)
     * finalTilePixelsPerUnitHeight)%Q in
  let p_yPositionInFinalTileStart := (ypercentageMax * totalHeight)%Q in
  let p_xPositionInFinalTileStart := (xpercentageMin * totalWidth)%Q in
  {| yPositionInFinalTileStart := p_yPositionInFinalTileStart;
     xPositionInFinalTileStart := p_xPositionInFinalTileStart;
     dx := p_xPositionInFinalTileStart;
     dy := p_yPositionInFinalTileStart;
     sx := 0;
     sy := 0;
     dWidth := widthInFinalTileUnits;
     dHeight := heightInFinalTileUnits;
     sWidth := tileWidth;
     sHeight := tileHeight |}.

(** *** The box of a tile and of a tile grid in a tile matrix (lines 1883
    to 1939) *)

Definition getTileBoundingBox (box : BoundingBox Q) (tileMatrix : TileMatrix)
    (tileColumn tileRow : Z) : BoundingBox Q :=
  let tileMatrixWidth := matrix_width tileMatrix in
  let tileMatrixHeight := matrix_height tileMatrix in
  let tileGrid := {| min_x := tileColumn; max_x := tileColumn;
                     min_y := tileRow; max_y := tileRow |} in
  let matrixMinX := minLongitude box in
  let matrixMaxX := maxLongitude box in
  let matrixWidth := (matrixMaxX - matrixMinX)%Q in
  let tileWidth := (matrixWidth / inject_Z tileMatrixWidth)%Q in
  let minLon := (matrixMinX + tileWidth * inject_Z (min_x tileGrid))%Q in
  let maxLon :=
    (minLon
     + tileWidth * inject_Z (max_x tileGrid + 1 - min_x tileGrid))%Q in
  let matrixMinY := minLatitude box in
  let matrixMaxY := maxLatitude box in
  let matrixHeight := (matrixMaxY - matrixMinY)%Q in
  let tileHeight := (matrixHeight / inject_Z tileMatrixHeight)%Q in
  let maxLat := (matrixMaxY - tileHeight * inject_Z (min_y tileGrid))%Q in
  let minLat :=
    (maxLat
     - tileHeight * inject_Z (max_y tileGrid + 1 - min_y tileGrid))%Q in
  {| minLongitude := minLon; maxLongitude := maxLon;
     minLatitude := minLat; maxLatitude := maxLat |}.

Definition getTileGridBoundingBox (matrixSetBoundingBox : BoundingBox Q)
    (tileMatrixWidth tileMatrixHeight : Z) (tileGrid : TileGrid)
    : BoundingBox Q :=
  let matrixMinX := minLongitude matrixSetBoundingBox in
  let matrixWidth := width matrixSetBoundingBox in
  let tileWidth := (matrixWidth / inject_Z tileMatrixWidth)%Q in
  let minLon := (matrixMinX + tileWidth * inject_Z (min_x tileGrid))%Q in
  let maxLon :=
    (minLon
     + tileWidth * inject_Z (max_x tileGrid + 1 - min_x tileGrid))%Q in
  let matrixMaxY := maxLatitude matrixSetBoundingBox in
  let matrixHeight := height matrixSetBoundingBox in
  let tileHeight := (matrixHeight / inject_Z tileMatrixHeight)%Q in
  let maxLat := (matrixMaxY - tileHeight * inject_Z (min_y tileGrid))%Q in
  let minLat :=
    (maxLat
     - tileHeight * inject_Z (max_y tileGrid + 1 - min_y tileGrid))%Q in
  {| minLongitude := minLon; maxLongitude := maxLon;
     minLatitude := minLat; maxLatitude := maxLat |}.

(** *** Tile size and tolerance distance (lines 2020 to 2047) *)

Definition tileSizeWithZoom (pc : ProjectionConstants Q) (zoom : Z) : Q :=
  let tilesPerSide := tilesPerSide zoom in
  tileSize pc tilesPerSide.

Definition toleranceDistance (pc : ProjectionConstants Q) (zoom : Z)
    (pixels : Q) : Q :=
  let tileSize := tileSizeWithZoom pc zoom in
  (tileSize / pixels)%Q.

Definition toleranceDistanceWidthAndHeight (pc : ProjectionConstants Q)
    (zoom : Z) (pixelWidth pixelHeight : Q) : Q :=
  toleranceDistance pc zoom (Qmax pixelWidth pixelHeight).

(** *** The pixel rectangle of a section of a box (lines 2049 to 2056) *)

Record RoundedRectangle : Type := mkRoundedRectangle {
  left : Z;
  right : Z;
  bottom : Z;
  top : Z;
  isValid : bool }.

Definition getFloatRoundedRectangle (width_ height_ : Q)
    (boundingBox boundingBoxSection : BoundingBox Q) : RoundedRectangle :=
  let left :=
    roundZ (getXPixel width_ boundingBox (minLongitude boundingBoxSection)) in
  let right :=
    roundZ (getXPixel width_ boundingBox (maxLongitude boundingBoxSection)) in
  let top :=
    roundZ (getYPixel height_ boundingBox (maxLatitude boundingBoxSection)) in
  let bottom :=
    roundZ (getYPixel height_ boundingBox (minLatitude boundingBoxSection)) in
  let isValid := (left <? right) && (top <? bottom) in
  {| left := left; right := right; bottom := bottom; top := top;
     isValid := isValid |}.

End Lower.

(** ** [TileBoundingBoxUtils.overlap] on a store of objects (lines 44 to 61)

    [overlap] receives two references, may copy the second object and
    update the copy, and hands references to [BoundingBox.overlap].  Objects
    live in a store indexed by references; a computation threads the store
    and fails only on a reference that the store does not hold. *)

Module Store.

Abbreviation ref := positive (only parsing).
Abbreviation store := (gmap positive (BoundingBox Q)) (only parsing).

Definition M (A : Type) : Type := store -> option (A * store).

Definition ret {A} (a : A) : M A := fun s => Some (a, s).

Definition bind {A B} (m : M A) (f : A -> M B) : M B :=
  fun s => match m s with
           | Some (a, s') => f a s'
           | None => None
           end.

Notation "x <- m ;; k" := (bind m (fun x => k))
  (at level 100, m at next level, right associativity, only parsing).

Definition read (r : ref) : M (BoundingBox Q) :=
  fun s => match s !! r with
           | Some b => Some (b, s)
           | None => None
           end.

Definition write (r : ref) (f : BoundingBox Q -> BoundingBox Q) : M unit :=
  fun s => match s !! r with
           | Some b => Some (tt, <[r := f b]> s)
           | None => None
           end.

(** [new BoundingBox(...)]: a reference that the store does not hold
    yet. *)
Definition new (b : BoundingBox Q) : M ref :=
  fun s => let r := fresh (dom s) in Some (r, <[r := b]> s).

(** *** The methods of [BoundingBox] that [overlap] calls *)

(** Modelled from the spec: the accessors of the absent class
    [BoundingBox]: each reads its field of the receiver. *)
Definition getMinLongitude (r : ref) : M Q := b <- read r ;; ret (minLongitude b).
Definition getMaxLongitude (r : ref) : M Q := b <- read r ;; ret (maxLongitude b).

(** Modelled from the spec: the method [copy] of the absent class
    [BoundingBox] ("operations return new instances or mutate a private
    copy"): a new object with the same four fields. *)
Definition copy (r : ref) : M ref := b <- read r ;; new b.

(** Modelled from the spec: the setters of the absent class [BoundingBox]:
    each updates its one field of the receiver and nothing else. *)
Definition setMinLongitude (r : ref) (v : Q) : M unit :=
  write r (fun b => {| minLongitude := v; minLatitude := minLatitude b;
                       maxLongitude := maxLongitude b;
                       maxLatitude := maxLatitude b |}).

Definition setMaxLongitude (r : ref) (v : Q) : M unit :=
  write r (fun b => {| minLongitude := minLongitude b;
                       minLatitude := minLatitude b;
                       maxLongitude := v;
                       maxLatitude := maxLatitude b |}).

(** Modelled from the spec: the intersection that the absent method
    [BoundingBox.overlap(other, allowEmpty)] computes: "intersect normally:
    x1=max(minX), y1=max(minY), x2=min(maxX), y2=min(maxY).  Result is none
    if x1>x2 or y1>y2, unless allowEmpty is set, in which case a degenerate
    (zero-width/height) box is still returned when the ranges touch."  So a
    box of zero width or height, which is what ranges that only touch
    leave, is returned when [allowEmpty] is set and only then: with
    [allowEmpty] the result is none if [x1 > x2] or [y1 > y2], and without
    it the result is a box only if [x1 < x2] and [y1 < y2]. *)
Definition intersect (a b : BoundingBox Q) (allowEmpty : bool)
    : option (BoundingBox Q) :=
  let x1 := Qmax (minLongitude a) (minLongitude b) in
  let y1 := Qmax (minLatitude a) (minLatitude b) in
  let x2 := Qmin (maxLongitude a) (maxLongitude b) in
  let y2 := Qmin (maxLatitude a) (maxLatitude b) in
  let box := {| minLongitude := x1; minLatitude := y1;
                maxLongitude := x2; maxLatitude := y2 |} in
  if allowEmpty then
    if gt x1 x2 || gt y1 y2 then None else Some box
  else
    if lt x1 x2 && lt y1 y2 then Some box else None.

(** Modelled from the spec: the method [BoundingBox.overlap] itself, which
    reads its two boxes and returns a new instance or [null]. *)
Definition BoundingBox_overlap (this other : ref) (allowEmpty : bool)
    : M (option ref) :=
  a <- read this ;;
  b <- read other ;;
  match intersect a b allowEmpty with
  | Some box => r <- new box ;; ret (Some r)
  | None => ret None
  end.

(** *** [TileBoundingBoxUtils.overlap] *)
Definition overlap (boundingBox boundingBox2 : ref) (allowEmpty : bool)
    (maxLongitude : Q) : M (option ref) :=
  let bbox2 := boundingBox2 in
  let adjustment := 0%Q in
  adjustment <-
    (if gt maxLongitude 0 then
       minLon <- getMinLongitude boundingBox ;;
       maxLon2 <- getMaxLongitude boundingBox2 ;;
       if gt minLon maxLon2 then ret (maxLongitude * 2)%Q
       else
         maxLon <- getMaxLongitude boundingBox ;;
         minLon2 <- getMinLongitude boundingBox2 ;;
         if lt maxLon minLon2 then ret (maxLongitude * -2)%Q
         else ret adjustment
     else ret adjustment) ;;
  bbox2 <-
    (if negb (Qeq_bool adjustment 0) then
       bbox2 <- copy boundingBox2 ;;
       minLon2 <- getMinLongitude bbox2 ;;
       _ <- setMinLongitude bbox2 (minLon2 + adjustment)%Q ;;
       maxLon2 <- getMaxLongitude bbox2 ;;
       _ <- setMaxLongitude bbox2 (maxLon2 + adjustment)%Q ;;
       ret bbox2
     else ret bbox2) ;;
  BoundingBox_overlap boundingBox bbox2 allowEmpty.

(** The same decisions without the store, for the statements below: the
    shift that lines 46 to 53 choose from the fields of the two boxes, and
    the box that lines 55 to 57 leave in the copy. *)
Definition adjustment_for (A B : BoundingBox Q) (maxLongitude_ : Q) : Q :=
  if gt maxLongitude_ 0 then
    if gt (minLongitude A) (maxLongitude B) then (maxLongitude_ * 2)%Q
    else if lt (maxLongitude A) (minLongitude B) then (maxLongitude_ * -2)%Q
    else 0%Q
  else 0%Q.

Definition shifted (B : BoundingBox Q) (adjustment : Q) : BoundingBox Q :=
  {| minLongitude := (minLongitude B + adjustment)%Q;
     minLatitude := minLatitude B;
     maxLongitude := (maxLongitude B + adjustment)%Q;
     maxLatitude := maxLatitude B |}.

(** The object behind the reference that a computation returns. *)
Definition result_of (m : M (option ref)) (s : store)
    : option (option (BoundingBox Q)) :=
  match m s with
  | Some (Some r, s') =>
      match s' !! r with Some b => Some (Some b) | None => None end
  | Some (None, _) => Some None
  | None => None
  end.

(** *** [boundWebMercatorBoundingBox] and
    [boundDegreesBoundingBoxWithWebMercatorLimits] (lines 1099 to 1147) *)

(** Modelled from the spec: the latitude accessors and setters of the
    absent class [BoundingBox], like the longitude ones above. *)
Definition getMinLatitude (r : ref) : M Q := b <- read r ;; ret (minLatitude b).
Definition getMaxLatitude (r : ref) : M Q := b <- read r ;; ret (maxLatitude b).

Definition setMinLatitude (r : ref) (v : Q) : M unit :=
  write r (fun b => {| minLongitude := minLongitude b;
                       minLatitude := v;
                       maxLongitude := maxLongitude b;
                       maxLatitude := maxLatitude b |}).

Definition setMaxLatitude (r : ref) (v : Q) : M unit :=
  write r (fun b => {| minLongitude := minLongitude b;
                       minLatitude := minLatitude b;
                       maxLongitude := maxLongitude b;
                       maxLatitude := v |}).

Definition boundWebMercatorBoundingBox (pc : ProjectionConstants Q)
    (boundingBox : ref) : M ref :=
  let half := WEB_MERCATOR_HALF_WORLD_WIDTH pc in
  bounded <- copy boundingBox ;;
  v <- getMinLongitude bounded ;;
  _ <- setMinLongitude bounded (Qmax v (-1 * half)) ;;
  v <- getMaxLongitude bounded ;;
  _ <- setMaxLongitude bounded (Qmin v half) ;;
  v <- getMinLatitude bounded ;;
  _ <- setMinLatitude bounded (Qmax v (-1 * half)) ;;
  v <- getMaxLatitude bounded ;;
  _ <- setMaxLatitude bounded (Qmin v half) ;;
  ret bounded.

Definition boundDegreesBoundingBoxWithWebMercatorLimits
    (dc : DegreeConstants Q) (boundingBox : ref) : M ref :=
  bounded <- copy boundingBox ;;
  v <- getMinLatitude bounded ;;
  _ <- (if lt v (WEB_MERCATOR_MIN_LAT_RANGE dc)
        then setMinLatitude bounded (WEB_MERCATOR_MIN_LAT_RANGE dc)
        else ret tt) ;;
  v <- getMaxLatitude bounded ;;
  _ <- (if lt v (WEB_MERCATOR_MIN_LAT_RANGE dc)
        then setMaxLatitude bounded (WEB_MERCATOR_MIN_LAT_RANGE dc)
        else ret tt) ;;
  v <- getMaxLatitude bounded ;;
  _ <- (if gt v (WEB_MERCATOR_MAX_LAT_RANGE dc)
        then setMaxLatitude bounded (WEB_MERCATOR_MAX_LAT_RANGE dc)
        else ret tt) ;;
  v <- getMinLatitude bounded ;;
  _ <- (if gt v (WEB_MERCATOR_MAX_LAT_RANGE dc)
        then setMinLatitude bounded (WEB_MERCATOR_MAX_LAT_RANGE dc)
        else ret tt) ;;
  ret bounded.

Definition boundWgs84BoundingBoxWithWebMercatorLimits
    (dc : DegreeConstants Q) (boundingBox : ref) : M ref :=
  boundDegreesBoundingBoxWithWebMercatorLimits dc boundingBox.

End Store.

(** ** [GeoPackageTileRetriever.getTileWithBounds] and [retrieveTileResults]

    The retriever talks to three collaborators that are not among the
    sources: the tile DAO (metadata lookup and storage query), the
    reprojection of a box, and the tile creator that composites.  Every call
    that reaches storage or the creator is recorded as an event, in call
    order; what a collaborator answers is a parameter.  A promise is its
    outcome: awaiting and [then]-chaining run one after the other. *)

Module Retriever.

(** Modelled from the spec: a stored tile, whose class is not among the
    sources; [addTile] reads its data, its column and its row. *)
Record Tile : Type := mkTile {
  getTileData : list Byte.byte;
  getTileColumn : Z;
  getRow : Z }.

(** The calls that reach the tile creator or the tile storage, with their
    arguments, in the order the retriever makes them. *)
Inductive Event : Type :=
| TileCreator_initialize (width height : Q) (tileMatrix : TileMatrix)
    (targetBoundingBox : BoundingBox Q) (targetProjection : string)
    (canvas : bool)
| TileDao_queryByTileGrid (tileGrid : TileGrid) (zoom : Z)
| TileCreator_addTile (data : list Byte.byte) (gridColumn gridRow : Z)
| TileCreator_getCompleteTile (format : string).

(** How a promise settles. *)
Inductive Outcome (A : Type) : Type :=
| Fulfilled (a : A)
| Rejected (reason : string).
Arguments Fulfilled {A}.
Arguments Rejected {A}.

(** What the collaborators hold and answer: the tile DAO, the tile creator,
    the reprojection and proj4 are not among the sources, and every answer
    of theirs is a field here, so that a statement holds for all of them. *)
Record Collaborators : Type := mkCollaborators {
  proj4_inverse : Q * Q -> Q * Q;
  tileDao_widths : list Q;
  tileDao_maxZoom : Z;
  tileDao_projection : string;
  tileDao_getTileMatrixWithZoomLevel : option Z -> option TileMatrix;
  tileMatrixSet_getBoundingBox : BoundingBox Q;
  projectBoundingBox : BoundingBox Q -> string -> string -> BoundingBox Q;
  initialize_answer : Outcome unit;
  queryByTileGrid_answer : TileGrid -> Z -> Outcome (list Tile);
  addTile_answer : list Byte.byte -> Z -> Z -> Outcome unit;
  getCompleteTile_answer : Outcome (list Byte.byte) }.

(** The fields [width] and [height] of the retriever object. *)
Record This : Type := mkThis {
  this_width : Q;
  this_height : Q }.

Definition M (A : Type) : Type := list Event -> Outcome A * list Event.

Definition ret {A} (a : A) : M A := fun log => (Fulfilled a, log).

Definition throw {A} (reason : string) : M A := fun log => (Rejected reason, log).

Definition bind {A B} (m : M A) (f : A -> M B) : M B :=
  fun log => match m log with
             | (Fulfilled a, log') => f a log'
             | (Rejected reason, log') => (Rejected reason, log')
             end.

Notation "x <- m ;; k" := (bind m (fun x => k))
  (at level 100, m at next level, right associativity, only parsing).

(** A call to a collaborator: the event is recorded, then the answer
    comes back. *)
Definition call {A} (e : Event) (answer : Outcome A) : M A :=
  fun log => (answer, log ++ [e]).

(** [a || b] on numbers. *)
Definition or_else (a b : Q) : Q := if truthy a then a else b.

(** [retrieveTileResults] (lines 113 to 121).  [None] is the
    [Promise.resolve()] of the branch without a tile matrix. *)
Definition retrieveTileResults (c : Collaborators)
    (tileMatrixProjectionBoundingBox : BoundingBox Q)
    (tileMatrix : option TileMatrix) : M (option (list Tile)) :=
  match tileMatrix with
  | Some tileMatrix =>
      let tileGrid :=
        Lower.getTileGridWithTotalBoundingBox (tileMatrixSet_getBoundingBox c)
          (matrix_width tileMatrix) (matrix_height tileMatrix)
          tileMatrixProjectionBoundingBox in
      rows <- call (TileDao_queryByTileGrid tileGrid (zoom_level tileMatrix))
                   (queryByTileGrid_answer c tileGrid (zoom_level tileMatrix)) ;;
      ret (Some rows)
  | None => ret None
  end.

(** The chain [tiles.reduce(... creator.addTile ...)]: one call after the
    other, in the order of [tiles]. *)
Fixpoint addTiles (c : Collaborators) (tiles : list (list Byte.byte * Z * Z))
    : M unit :=
  match tiles with
  | [] => ret tt
  | (data, gridColumn, gridRow) :: rest =>
      _ <- call (TileCreator_addTile data gridColumn gridRow)
                (addTile_answer c data gridColumn gridRow) ;;
      addTiles c rest
  end.

(** [getTileWithBounds] (lines 86 to 112).  [zoom] may be [undefined]
    ([None]); the result [None] is the promise fulfilled with
    [undefined]. *)
Definition getTileWithBounds (c : Collaborators) (this : This)
    (targetBoundingBox : BoundingBox Q) (zoom : option Z)
    (targetProjection : string) (canvas : bool)
    : M (option (list Byte.byte)) :=
  let tileMatrix := tileDao_getTileMatrixWithZoomLevel c zoom in
  match tileMatrix with
  | None => ret None
  | Some tileMatrix =>
      let tileWidth := tile_width tileMatrix in
      let tileHeight := tile_height tileMatrix in
      _ <- call (TileCreator_initialize (or_else (this_width this) tileWidth)
                   (or_else (this_height this) tileHeight) tileMatrix
                   targetBoundingBox targetProjection canvas)
                (initialize_answer c) ;;
      iterator <- retrieveTileResults c
                    (projectBoundingBox c targetBoundingBox targetProjection
                       (tileDao_projection c))
                    (Some tileMatrix) ;;
      match iterator with
      | None => throw "TypeError: iterator is not iterable"
      | Some rows =>
          let tiles :=
            map (fun tile => (getTileData tile, getTileColumn tile, getRow tile))
                rows in
          _ <- addTiles c tiles ;;
          if canvas then ret None
          else
            image <- call (TileCreator_getCompleteTile "png")
                          (getCompleteTile_answer c) ;;
            ret (Some image)
      end
  end.

(** [getTile] (lines 43 to 47): the box of the XYZ tile, the zoom level
    selected for it, and the retrieval.  [None] is a call whose box is still
    being computed when the fuel is spent. *)
Definition getTile (fuel : nat) (pc : ProjectionConstants Q)
    (c : Collaborators) (this : This) (x y zoom : Z)
    : option (M (option (list Byte.byte))) :=
  match Lower.getWebMercatorBoundingBoxFromXYZ fuel pc x y zoom None with
  | None => None
  | Some webMercatorBoundingBox =>
      let gpZoom :=
        ZoomLevel.determineGeoPackageZoomLevel (proj4_inverse c)
          (tileDao_widths c) (tileDao_maxZoom c) webMercatorBoundingBox in
      Some (getTileWithBounds c this webMercatorBoundingBox gpZoom
              "EPSG:3857" false)
  end.

(** A call that reaches storage or the creator. *)
Definition is_query (e : Event) : bool :=
  match e with TileDao_queryByTileGrid _ _ => true | _ => false end.

Definition is_compositing (e : Event) : bool :=
  match e with
  | TileCreator_initialize _ _ _ _ _ _ | TileCreator_addTile _ _ _
  | TileCreator_getCompleteTile _ => true
  | TileDao_queryByTileGrid _ _ => false
  end.

(** [drawTileIn] (lines 48 to 52): [getTile] with a canvas to draw in. *)
Definition drawTileIn (fuel : nat) (pc : ProjectionConstants Q)
    (c : Collaborators) (this : This) (x y zoom : Z) (canvas : bool)
    : option (M (option (list Byte.byte))) :=
  match Lower.getWebMercatorBoundingBoxFromXYZ fuel pc x y zoom None with
  | None => None
  | Some webMercatorBoundingBox =>
      let gpZoom :=
        ZoomLevel.determineGeoPackageZoomLevel (proj4_inverse c)
          (tileDao_widths c) (tileDao_maxZoom c) webMercatorBoundingBox in
      Some (getTileWithBounds c this webMercatorBoundingBox gpZoom
              "EPSG:3857" canvas)
  end.


(** The events of the calls [creator.addTile] for a list of stored
    tiles, in their order. *)
Definition addTile_events (rows : list Tile) : list Event :=
  map (fun tile =>
         TileCreator_addTile (getTileData tile) (getTileColumn tile)
           (getRow tile))
      rows.

Definition is_getCompleteTile (e : Event) : bool :=
  match e with TileCreator_getCompleteTile _ => true | _ => false end.

End Retriever.

(** ** The design document's wording, for comparison

    Definitions that follow the wording of the design document where the
    sources depart from it. *)

Module AsWorded.

(** "tileColumn: returns -1 if longitude < totalBox.minX, matrixWidth if
    longitude >= totalBox.maxX, else floor((longitude-totalBox.minX)/tileWidth)
    where tileWidth = (totalBox.maxX-totalBox.minX)/matrixWidth." *)
Definition tileColumn (totalBox : BoundingBox Q) (matrixWidth : Z)
    (longitude : Q) : Z :=
  let tileWidth :=
    ((maxLongitude totalBox - minLongitude totalBox) / inject_Z matrixWidth)%Q in
  if lt longitude (minLongitude totalBox) then -1
  else if ge longitude (maxLongitude totalBox) then matrixWidth
  else Qfloor ((longitude - minLongitude totalBox) / tileWidth).

(** "tileRow is the latitude analogue with inverted sense (latitude >= maxY
    -> row -1, latitude < minY -> row matrixHeight, descending)." *)
Definition tileRow (totalBox : BoundingBox Q) (matrixHeight : Z)
    (latitude : Q) : Z :=
  let tileHeight :=
    ((maxLatitude totalBox - minLatitude totalBox) / inject_Z matrixHeight)%Q in
  if ge latitude (maxLatitude totalBox) then -1
  else if lt latitude (minLatitude totalBox) then matrixHeight
  else Qfloor ((maxLatitude totalBox - latitude) / tileHeight).

End AsWorded.

(** ** [FeatureTilePointIcon]

    The icon of a point feature with its display size and the offset of
    the pinned point inside it.  The image itself is a parameter; the four
    numbers are the fields that the methods update. *)

Module FeatureTilePointIcon.

Section Icon.
Context {N : Type} `{Number N}.
Local Open Scope number_scope.

Record Icon : Type := mkIcon {
  width : N;
  height : N;
  xOffset : N;
  yOffset : N }.

(** [pinIconDefault]: lower middle on the point. *)
Definition pinIconDefault (this : Icon) : Icon :=
  {| width := width this; height := height this;
     xOffset := width this / of_Z 2;
     yOffset := height this |}.

(** [pinIconCenter]: centre on the point. *)
Definition pinIconCenter (this : Icon) : Icon :=
  {| width := width this; height := height this;
     xOffset := width this / of_Z 2;
     yOffset := height this / of_Z 2 |}.

(** The constructor, from the width and the height of the image. *)
Definition constructor (icon_width icon_height : N) : Icon :=
  pinIconDefault {| width := icon_width; height := icon_height;
                    xOffset := icon_width; yOffset := icon_height |}.

Definition getWidth (this : Icon) : N := width this.
Definition getHeight (this : Icon) : N := height this.
Definition getXOffset (this : Icon) : N := xOffset this.
Definition getYOffset (this : Icon) : N := yOffset this.

Definition setWidth (width_ : N) (this : Icon) : Icon :=
  {| width := width_; height := height this;
     xOffset := (xOffset this / width this) * width_;
     yOffset := yOffset this |}.

Definition setHeight (height_ : N) (this : Icon) : Icon :=
  {| width := width this; height := height_;
     xOffset := xOffset this;
     yOffset := (yOffset this / height this) * height_ |}.

Definition setXOffset (xOffset_ : N) (this : Icon) : Icon :=
  {| width := width this; height := height this;
     xOffset := xOffset_; yOffset := yOffset this |}.

Definition setYOffset (yOffset_ : N) (this : Icon) : Icon :=
  {| width := width this; height := height this;
     xOffset := xOffset this; yOffset := yOffset_ |}.

End Icon.
Arguments Icon N : clear implicits.

End FeatureTilePointIcon.

(** A change of the display size, and a sequence of such changes applied
    to an icon, first to last. *)
Inductive Resize : Type :=
| Width (width_ : Q)
| Height (height_ : Q).

Definition resize (this : FeatureTilePointIcon.Icon Q) (op : Resize)
    : FeatureTilePointIcon.Icon Q :=
  match op with
  | Width width_ => FeatureTilePointIcon.setWidth width_ this
  | Height height_ => FeatureTilePointIcon.setHeight height_ this
  end.

Definition resize_to (op : Resize) : Q :=
  match op with Width width_ => width_ | Height height_ => height_ end.

(** ** [RelationType]

    The relation types of the related tables extension and their lookup
    by name.  Strings are sequences of ASCII characters. *)

Module RelationType.

(** The constants of [ContentsDataType] that the relation types carry;
    the class is not among the sources. *)
Module ContentsDataType.
Inductive t : Type := FEATURES | ATTRIBUTES | TILES.
End ContentsDataType.

Record RelationType : Type := mkRelationType {
  name : string;
  dataType : ContentsDataType.t }.

Definition FEATURES : RelationType :=
  mkRelationType "features" ContentsDataType.FEATURES.
Definition SIMPLE_ATTRIBUTES : RelationType :=
  mkRelationType "simple_attributes" ContentsDataType.ATTRIBUTES.
Definition MEDIA : RelationType :=
  mkRelationType "media" ContentsDataType.ATTRIBUTES.
Definition ATTRIBUTES : RelationType :=
  mkRelationType "attributes" ContentsDataType.ATTRIBUTES.
Definition TILES : RelationType :=
  mkRelationType "tiles" ContentsDataType.TILES.

(** The static fields of the class that hold a relation type, by key.
    The other properties of the class object ([fromName], [prototype],
    [name], [length] and the inherited ones) have a lower-case letter in
    their key, which the key that [fromName] looks up never has. *)
Definition static_fields : list (string * RelationType) :=
  [("FEATURES", FEATURES); ("SIMPLE_ATTRIBUTES", SIMPLE_ATTRIBUTES);
   ("MEDIA", MEDIA); ("ATTRIBUTES", ATTRIBUTES); ("TILES", TILES)]%string.

(** [String.prototype.toUpperCase] on ASCII characters. *)
Definition toUpperCase_char (ch : Ascii.ascii) : Ascii.ascii :=
  let n := Ascii.N_of_ascii ch in
  if ((97 <=? n) && (n <=? 122))%N then Ascii.ascii_of_N (n - 32) else ch.

Fixpoint toUpperCase (s : string) : string :=
  match s with
  | EmptyString => EmptyString
  | String ch rest => String (toUpperCase_char ch) (toUpperCase rest)
  end.

Fixpoint property (key : string) (fields : list (string * RelationType))
    : option RelationType :=
  match fields with
  | [] => None
  | (k, v) :: rest => if String.eqb key k then Some v else property key rest
  end.

(** [fromName]: [None] is [undefined]. *)
Definition fromName (name : string) : option RelationType :=
  property (toUpperCase name) static_fields.

Definition is_ascii (s : string) : bool :=
  forallb (fun ch => (Ascii.N_of_ascii ch <? 128)%N) (list_ascii_of_string s).

End RelationType.

(** ** [GeoPackageConnection]

    The connection forwards to a database adapter, which is not among the
    sources.  Two of its methods do work of their own: [registerFunction]
    keeps the names it has registered, and [minOfColumn], [maxOfColumn] and
    [delete] build the text of a statement. *)

Module GeoPackageConnection.

(** [Array.prototype.indexOf] on an array of strings and
    [String.prototype.indexOf]: the first index of an occurrence, or -1. *)
Fixpoint Array_indexOf (x : string) (l : list string) : Z :=
  match l with
  | [] => -1
  | y :: rest =>
      if String.eqb x y then 0
      else let i := Array_indexOf x rest in if i =? -1 then -1 else i + 1
  end.

Definition String_indexOf (s searchString : string) : Z :=
  match String.index 0 searchString s with
  | Some i => Z.of_nat i
  | None => -1
  end.

Section Connection.
(** The function definitions that SQL statements can use. *)
Context {Function_ : Type}.

(** The field [registeredFunctions], and the calls
    [connection.registerFunction(name, functionDefinition)] that the
    adapter has received, in their order. *)
Record Connection : Type := mkConnection {
  registeredFunctions : list string;
  adapter_registerFunction : list (string * Function_) }.

Definition constructor : Connection :=
  {| registeredFunctions := []; adapter_registerFunction := [] |}.

Definition registerFunction (this : Connection) (name : string)
    (functionDefinition : Function_) : Connection :=
  if Array_indexOf name (registeredFunctions this) =? -1 then
    {| registeredFunctions := registeredFunctions this ++ [name];
       adapter_registerFunction :=
         adapter_registerFunction this ++ [(name, functionDefinition)] |}
  else this.

End Connection.
Arguments Connection Function_ : clear implicits.

(** The truthiness of an optional string: defined and not empty. *)
Definition truthy_string (s : option string) : bool :=
  match s with
  | None | Some EmptyString => false
  | Some _ => true
  end.

Section Statements.
(** The substitution parameters and the value that the adapter reads from
    the first row of a result. *)
Context {Args Value : Type}.
Local Open Scope string_scope.

(** [minOfColumn] (lines 147 to 157); [connection_get_min] is
    [this.connection.get(sql, params).min]. *)
Definition minOfColumn (connection_get_min : string -> option Args -> Value)
    (table column : string) (where_ : option string)
    (whereArgs : option Args) : Value :=
  let minStatement := "select min(" ++ column ++ ") as min from " ++ table in
  let minStatement :=
    if truthy_string where_ then
      let where_ := default EmptyString where_ in
      let minStatement := minStatement ++ " " in
      let where_ :=
        if negb (String_indexOf where_ "where" =? 0)%Z
        then "where " ++ where_ else where_ in
      minStatement ++ where_
    else minStatement in
  connection_get_min minStatement whereArgs.

(** [maxOfColumn] (lines 166 to 176). *)
Definition maxOfColumn (connection_get_max : string -> option Args -> Value)
    (table column : string) (where_ : option string)
    (whereArgs : option Args) : Value :=
  let maxStatement := "select max(" ++ column ++ ") as max from " ++ table in
  let maxStatement :=
    if truthy_string where_ then
      let where_ := default EmptyString where_ in
      let maxStatement := maxStatement ++ " " in
      let where_ :=
        if negb (String_indexOf where_ "where" =? 0)%Z
        then "where " ++ where_ else where_ in
      maxStatement ++ where_
    else maxStatement in
  connection_get_max maxStatement whereArgs.

(** [delete] (lines 215 to 221). *)
Definition delete (connection_delete : string -> option Args -> Value)
    (tableName : string) (where_ : option string) (whereArgs : option Args)
    : Value :=
  let deleteStatement := "DELETE FROM " ++ tableName ++ EmptyString in
  let deleteStatement :=
    if truthy_string where_
    then deleteStatement ++ " WHERE " ++ default EmptyString where_
    else deleteStatement in
  connection_delete deleteStatement whereArgs.

End Statements.

End GeoPackageConnection.

(** ** [MetadataDao.deleteCascade]

    The DAO deletes through its base class and through the metadata
    reference DAO, which are not among the sources.  Their calls are
    recorded as events, in call order; what [deleteById] answers is a
    parameter, and no call throws. *)

Module MetadataDao.

Inductive Event : Type :=
| MetadataReferenceDao_createDao
| MetadataReferenceDao_deleteByMetadata (id : Z)
| MetadataReferenceDao_removeMetadataParent (id : Z)
| GeoPackageDao_deleteById (id : Z).

(** The field [metadataReferenceDao] ([false]: not set yet) and the calls
    made so far. *)
Record State : Type := mkState {
  metadataReferenceDao : bool;
  calls : list Event }.

Definition constructor : State :=
  {| metadataReferenceDao := false; calls := [] |}.

Definition record (e : Event) (this : State) : State :=
  {| metadataReferenceDao := metadataReferenceDao this;
     calls := calls this ++ [e] |}.

(** [getMetadataReferenceDao] (lines 72 to 77). *)
Definition getMetadataReferenceDao (this : State) : State :=
  if metadataReferenceDao this then this
  else {| metadataReferenceDao := true;
          calls := calls this ++ [MetadataReferenceDao_createDao] |}.

(** [deleteCascade] (lines 53 to 65), on the id of the metadata ([None]
    is [null]); the answer of [deleteById] may depend on the calls made
    before it. *)
Definition deleteCascade (deleteById_answer : list Event -> Z -> Z)
    (metadata : option Z) (this : State) : Z * State :=
  let count := 0 in
  match metadata with
  | Some id =>
      let this := getMetadataReferenceDao this in
      let this := record (MetadataReferenceDao_deleteByMetadata id) this in
      let this := record (MetadataReferenceDao_removeMetadataParent id) this in
      let count := deleteById_answer (calls this) id in
      (count, record (GeoPackageDao_deleteById id) this)
  | None => (count, this)
  end.

(** A sequence of calls of [deleteCascade], first to last: the counts
    they return and the state they leave. *)
Fixpoint deleteCascade_all (deleteById_answer : list Event -> Z -> Z)
    (metadata : list (option Z)) (this : State) : list Z * State :=
  match metadata with
  | [] => ([], this)
  | m :: rest =>
      let '(count, this) := deleteCascade deleteById_answer m this in
      let '(counts, this) := deleteCascade_all deleteById_answer rest this in
      (count :: counts, this)
  end.

(** The calls that deleting one metadata makes after the reference DAO
    exists. *)
Definition cascade (metadata : option Z) : list Event :=
  match metadata with
  | Some id => [MetadataReferenceDao_deleteByMetadata id;
                MetadataReferenceDao_removeMetadataParent id;
                GeoPackageDao_deleteById id]
  | None => []
  end.

End MetadataDao.

(** * Properties *)

(** ** Number helpers *)

Lemma le_true_iff (x y : Q) : le x y = true <-> (x <= y)%Q.
Proof. unfold le. apply Qle_bool_iff. Qed.

Lemma lt_true_iff (x y : Q) : lt x y = true <-> (x < y)%Q.
Proof.
  unfold lt. rewrite negb_true_iff, <- not_true_iff_false, Qle_bool_iff.
  split; [apply Qnot_le_lt | apply Qlt_not_le].
Qed.

Lemma lt_false_iff (x y : Q) : lt x y = false <-> (y <= x)%Q.
Proof. unfold lt. rewrite negb_false_iff. apply Qle_bool_iff. Qed.

Lemma le_false_iff (x y : Q) : le x y = false <-> (y < x)%Q.
Proof.
  unfold le. rewrite <- not_true_iff_false, Qle_bool_iff.
  split; [apply Qnot_le_lt | apply Qlt_not_le].
Qed.

(** ** Zoom-level selection *)

Section ZoomLevelFacts.
Import ZoomLevel.

Lemma fits_true_iff (width tileWidth : Q) :
  fits width tileWidth = true <->
  (tileWidth <= width \/ Qabs (width - tileWidth) <= 0.001 * tileWidth)%Q.
Proof.
  unfold fits. cbv zeta. rewrite orb_true_iff, !le_true_iff. reflexivity.
Qed.

(** The loop keeps the last index that passes the test; an index that
    passes later overwrites an earlier one. *)
Lemma scan_last (maxZoom : Z) (width : Q) (widths : list Q) :
  forall (i : Z) (gpZoom : option Z),
    (exists (k : nat) (tw : Q),
        widths !! k = Some tw /\ fits width tw = true /\
        scan maxZoom width widths i gpZoom = Some (maxZoom - (i + Z.of_nat k)) /\
        forall (j : nat) (tw' : Q),
          widths !! j = Some tw' -> fits width tw' = true -> (j <= k)%nat)
    \/ (scan maxZoom width widths i gpZoom = gpZoom /\
        forall (j : nat) (tw' : Q), widths !! j = Some tw' -> fits width tw' = false).
Proof.
  induction widths as [|tw rest IH]; intros i gpZoom.
  - right. split; [reflexivity|]. intros j tw' Hj. destruct j; discriminate.
  - cbn [scan].
    destruct (IH (i + 1) (if fits width tw then Some (maxZoom - i) else gpZoom))
      as [(k & twk & Hk & Hfit & Hres & Hlast) | [Hres Hnone]].
    + left. exists (S k), twk. repeat split; try assumption.
      * rewrite Hres. f_equal. lia.
      * intros [|j] tw' Hj Hf; [lia|]. apply le_n_S. eapply Hlast; eassumption.
    + destruct (fits width tw) eqn:Hfit.
      * left. exists 0%nat, tw. repeat split; try assumption.
        -- rewrite Hres. f_equal. lia.
        -- intros [|j] tw' Hj Hf; [lia|].
           cbn in Hj. rewrite (Hnone j tw' Hj) in Hf. discriminate.
      * right. split; [assumption|].
        intros [|j] tw' Hj; cbn in Hj; [congruence | eauto].
Qed.

End ZoomLevelFacts.

(** C1 (as amended).  [determineGeoPackageZoomLevel] compares the requested
    width [w] (the difference of the first coordinates of the two
    back-projected corners) with every stored width, and returns
    [maxZoom - i] for the last index [i] of [tileDao.widths] whose width is
    at most [w] or within 0.1% of that stored width of [w].  Zoom level
    [maxZoom - i] being the one whose width is [widths[i]], this is the
    smallest zoom level among those whose stored width passes the test; the
    result is [undefined] when no stored width passes. *)
Theorem determineGeoPackageZoomLevel_last_fit
    (inverse : Q * Q -> Q * Q) (widths : list Q) (maxZoom : Z)
    (box : BoundingBox Q) :
  let w := (fst (inverse (maxLongitude box, maxLatitude box))
            - fst (inverse (minLongitude box, minLatitude box)))%Q in
  let passes (tw : Q) := (tw <= w \/ Qabs (w - tw) <= 0.001 * tw)%Q in
  match ZoomLevel.determineGeoPackageZoomLevel inverse widths maxZoom box with
  | Some z =>
      exists (i : nat) (tw : Q),
        widths !! i = Some tw /\ passes tw /\ z = maxZoom - Z.of_nat i /\
        forall (j : nat) (tw' : Q),
          widths !! j = Some tw' -> passes tw' ->
          (j <= i)%nat /\ z <= maxZoom - Z.of_nat j
  | None =>
      forall (j : nat) (tw' : Q), widths !! j = Some tw' -> ~ passes tw'
  end.
Proof.
  intros w passes. unfold ZoomLevel.determineGeoPackageZoomLevel. cbv zeta.
  fold w.
  destruct (scan_last maxZoom w widths 0 None)
    as [(k & tw & Hk & Hfit & Hres & Hlast) | [Hres Hnone]].
  - rewrite Hres. exists k, tw. apply fits_true_iff in Hfit.
    repeat split; try assumption; try lia.
    + apply (Hlast j tw'); [assumption | apply fits_true_iff; assumption].
    + assert (j <= k)%nat
        by (apply (Hlast j tw'); [assumption | apply fits_true_iff; assumption]).
      lia.
  - rewrite Hres. intros j tw' Hj Hp. apply fits_true_iff in Hp.
    rewrite (Hnone j tw' Hj) in Hp. discriminate.
Qed.

(** C1 (as stated) fails.  With the stored widths 10 (zoom 5) and 20
    (zoom 4) and the requested width 15, the only stored width that is at
    least 15 is the one of zoom 4, yet the function returns zoom 5, whose
    width 10 is below 15 and outside the tolerance band. *)
Lemma determineGeoPackageZoomLevel_not_largest_at_least :
  let box := {| minLongitude := 0; minLatitude := 0;
                maxLongitude := 15; maxLatitude := 15 |}%Q in
  let result :=
    ZoomLevel.determineGeoPackageZoomLevel (fun p => p) [10; 20]%Q 5 box in
  result = Some 5 /\
  ZoomLevel.qualifies_as_worded 15 10 = false /\
  ZoomLevel.largest_zoom_as_worded 5 15 [10; 20]%Q 0 = Some 4 /\
  result <> ZoomLevel.largest_zoom_as_worded 5 15 [10; 20]%Q 0.
Proof. cbv zeta. repeat split; try reflexivity. vm_compute. discriminate. Qed.

(** ** Integer parts *)

Lemma ToInt32_small (n : Z) : - 2 ^ 31 <= n < 2 ^ 31 -> ToInt32 n = n.
Proof. intros Hn. unfold ToInt32. rewrite Z.mod_small; lia. Qed.

Lemma trunc_nonneg (x : Q) : (0 <= x)%Q -> trunc x = Qfloor x.
Proof.
  intros Hx. unfold trunc.
  destruct (Qle_bool 0 x) eqn:E; [reflexivity|].
  apply Qle_bool_iff in Hx. congruence.
Qed.

Lemma Qfloor_bounds (x : Q) (lo hi : Z) :
  (inject_Z lo <= x)%Q -> (x < inject_Z hi)%Q -> lo <= Qfloor x < hi.
Proof.
  intros Hlo Hhi. split.
  - rewrite <- (Qfloor_Z lo). apply Qfloor_resp_le, Hlo.
  - rewrite Zlt_Qlt. eapply Qle_lt_trans; [apply Qfloor_le | exact Hhi].
Qed.

Lemma double_tilde_floor (x : Q) (hi : Z) :
  (0 <= x)%Q -> (x < inject_Z hi)%Q -> hi <= 2 ^ 31 ->
  double_tilde x = Qfloor x.
Proof.
  intros H0 Hhi Hbound. unfold double_tilde. rewrite (trunc_nonneg _ H0).
  pose proof (Qfloor_bounds x 0 hi H0 Hhi). apply ToInt32_small. lia.
Qed.

(** The offset of a coordinate inside the total extent, counted in tiles. *)
Lemma offset_ratio_bounds (lo hi v : Q) (n : Z) :
  (lo < hi)%Q -> 1 <= n -> (lo <= v)%Q -> (v <= hi)%Q ->
  (0 <= (v - lo) / ((hi - lo) / inject_Z n) <= inject_Z n)%Q /\
  ((v < hi)%Q -> ((v - lo) / ((hi - lo) / inject_Z n) < inject_Z n)%Q).
Proof.
  intros Hbox Hn Hlo Hhi.
  assert (Hn' : (inject_Z 0 < inject_Z n)%Q) by (rewrite <- Zlt_Qlt; lia).
  change (inject_Z 0) with 0%Q in Hn'.
  assert (Htw : (0 < (hi - lo) / inject_Z n)%Q).
  { apply Qlt_shift_div_l; [exact Hn' | lra]. }
  assert (E : (inject_Z n * ((hi - lo) / inject_Z n) == hi - lo)%Q)
    by (field; lra).
  repeat split.
  - apply Qle_shift_div_l; [exact Htw | lra].
  - apply Qle_shift_div_r; [exact Htw |]. rewrite E. lra.
  - intros Hlt. apply Qlt_shift_div_r; [exact Htw |]. rewrite E. lra.
Qed.

(** ** Tile column and row of a coordinate *)

(** C2 (as amended).  For a total box with [minX < maxX] and [minY < maxY]
    and matrix sizes from 1 to 2^31 - 1:
    - [getTileColumn] returns -1 left of [minX] and [matrixWidth] from [maxX]
      on; [getTileRow] returns [matrixHeight] for a latitude up to and
      including [minY] and -1 for a latitude strictly above [maxY], a
      latitude equal to [maxY] being in row 0;
    - [getTileColumnWithTotalBoundingBox] and [getRowWithTotalBoundingBox]
      return -1 / [matrixWidth] (columns) and, with the sense inverted,
      -1 from [maxY] on and [matrixHeight] strictly below [minY] (rows), and
      in between the floor of the coordinate's offset divided by the tile
      width or height.
    The value of [getTileColumn] and [getTileRow] strictly inside the
    extent is not part of this statement. *)
Theorem tile_column_and_row_of_coordinate
    (totalBox : BoundingBox Q) (matrixWidth matrixHeight : Z)
    (longitude latitude : Q) :
  (minLongitude totalBox < maxLongitude totalBox)%Q ->
  (minLatitude totalBox < maxLatitude totalBox)%Q ->
  1 <= matrixWidth < 2 ^ 31 ->
  1 <= matrixHeight < 2 ^ 31 ->
  let minX := minLongitude totalBox in
  let maxX := maxLongitude totalBox in
  let minY := minLatitude totalBox in
  let maxY := maxLatitude totalBox in
  let tileWidth := ((maxX - minX) / inject_Z matrixWidth)%Q in
  let tileHeight := ((maxY - minY) / inject_Z matrixHeight)%Q in
  ((longitude < minX)%Q ->
     Upper.getTileColumn totalBox matrixWidth longitude = -1) /\
  ((maxX <= longitude)%Q ->
     Upper.getTileColumn totalBox matrixWidth longitude = matrixWidth) /\
  ((latitude <= minY)%Q ->
     Upper.getTileRow totalBox matrixHeight latitude = matrixHeight) /\
  ((maxY < latitude)%Q ->
     Upper.getTileRow totalBox matrixHeight latitude = -1) /\
  ((latitude == maxY)%Q ->
     Upper.getTileRow totalBox matrixHeight latitude = 0) /\
  ((longitude < minX)%Q ->
     Lower.getTileColumnWithTotalBoundingBox totalBox matrixWidth longitude
     = -1) /\
  ((maxX <= longitude)%Q ->
     Lower.getTileColumnWithTotalBoundingBox totalBox matrixWidth longitude
     = matrixWidth) /\
  ((minX <= longitude)%Q -> (longitude < maxX)%Q ->
     Lower.getTileColumnWithTotalBoundingBox totalBox matrixWidth longitude
     = Qfloor ((longitude - minX) / tileWidth)) /\
  ((maxY <= latitude)%Q ->
     Lower.getRowWithTotalBoundingBox totalBox matrixHeight latitude = -1) /\
  ((latitude < minY)%Q ->
     Lower.getRowWithTotalBoundingBox totalBox matrixHeight latitude
     = matrixHeight) /\
  ((minY <= latitude)%Q -> (latitude < maxY)%Q ->
     Lower.getRowWithTotalBoundingBox totalBox matrixHeight latitude
     = Qfloor ((maxY - latitude) / tileHeight)).
Proof.
  intros Hx Hy Hw Hh minX maxX minY maxY tileWidth tileHeight.
  unfold Upper.getTileColumn, Upper.getTileRow,
    Lower.getTileColumnWithTotalBoundingBox, Lower.getRowWithTotalBoundingBox.
  subst minX maxX minY maxY tileWidth tileHeight. cbv zeta. unfold ge, gt.
  set (minX := minLongitude totalBox) in *.
  set (maxX := maxLongitude totalBox) in *.
  set (minY := minLatitude totalBox) in *.
  set (maxY := maxLatitude totalBox) in *.
  clearbody minX maxX minY maxY.
  repeat split.
  - intros H. apply lt_true_iff in H. rewrite H. reflexivity.
  - intros H. assert (Hnot : lt longitude minX = false)
      by (apply lt_false_iff; lra).
    rewrite Hnot. apply le_true_iff in H. rewrite H. reflexivity.
  - intros H. apply le_true_iff in H. rewrite H. reflexivity.
  - intros H. assert (Hnot : le latitude minY = false)
      by (apply le_false_iff; lra).
    rewrite Hnot. apply lt_true_iff in H. rewrite H. reflexivity.
  - intros H.
    assert (H1 : le latitude minY = false) by (apply le_false_iff; lra).
    assert (H2 : lt maxY latitude = false) by (apply lt_false_iff; lra).
    rewrite H1, H2. unfold roundZ.
    assert (E : ((maxY - latitude) / ((maxY - minY) / inject_Z matrixHeight)
                 + (1 # 2) == 1 # 2)%Q).
    { assert (E0 : (maxY - latitude == 0)%Q) by lra.
      rewrite E0. unfold Qdiv. rewrite Qmult_0_l. reflexivity. }
    rewrite (Qfloor_comp _ _ E). reflexivity.
  - intros H. apply lt_true_iff in H. rewrite H. reflexivity.
  - intros H. assert (Hnot : lt longitude minX = false)
      by (apply lt_false_iff; lra).
    rewrite Hnot. apply le_true_iff in H. rewrite H. reflexivity.
  - intros Hlo Hhi.
    assert (H1 : lt longitude minX = false) by (apply lt_false_iff; lra).
    assert (H2 : le maxX longitude = false) by (apply le_false_iff; lra).
    rewrite H1, H2.
    destruct (offset_ratio_bounds minX maxX longitude matrixWidth Hx
                ltac:(lia) Hlo ltac:(lra)) as [[Hq0 _] Hq1].
    apply (double_tilde_floor _ matrixWidth Hq0 (Hq1 Hhi)). lia.
  - intros H. assert (Hnot : lt latitude minY = false)
      by (apply lt_false_iff; lra).
    rewrite Hnot. apply le_true_iff in H. rewrite H. reflexivity.
  - intros H. apply lt_true_iff in H. rewrite H. reflexivity.
  - intros Hlo Hhi.
    assert (H1 : lt latitude minY = false) by (apply lt_false_iff; lra).
    assert (H2 : le maxY latitude = false) by (apply le_false_iff; lra).
    rewrite H1, H2.
    assert (Hq : (0 <= (maxY - latitude) / ((maxY - minY) / inject_Z matrixHeight)
                  <= inject_Z matrixHeight)%Q).
    { destruct (offset_ratio_bounds minY maxY (maxY + minY - latitude)
                  matrixHeight Hy ltac:(lia) ltac:(lra) ltac:(lra)) as [Hb _].
      assert (E : ((maxY + minY - latitude - minY)
                   / ((maxY - minY) / inject_Z matrixHeight)
                   == (maxY - latitude)
                      / ((maxY - minY) / inject_Z matrixHeight))%Q).
      { apply Qmult_comp; [ring | reflexivity]. }
      rewrite E in Hb. exact Hb. }
    destruct Hq as [Hq0 Hq1].
    apply (double_tilde_floor _ (matrixHeight + 1) Hq0); [| lia].
    eapply Qle_lt_trans; [exact Hq1 |]. rewrite <- Zlt_Qlt. lia.
Qed.

Lemma tile_column_and_row_of_coordinate_witness :
  let totalBox := {| minLongitude := 0; minLatitude := 0;
                     maxLongitude := 10; maxLatitude := 10 |}%Q in
  (minLongitude totalBox < maxLongitude totalBox)%Q /\
  (minLatitude totalBox < maxLatitude totalBox)%Q /\
  1 <= 10 < 2 ^ 31 /\
  Upper.getTileRow totalBox 10 10 = 0 /\
  Lower.getTileColumnWithTotalBoundingBox totalBox 10 (37 # 10)
  = Qfloor (((37 # 10) - 0) / ((10 - 0) / inject_Z 10)).
Proof.
  intros totalBox.
  assert (Hx : (minLongitude totalBox < maxLongitude totalBox)%Q) by reflexivity.
  assert (Hy : (minLatitude totalBox < maxLatitude totalBox)%Q) by reflexivity.
  assert (Hn : 1 <= 10 < 2 ^ 31) by (split; [discriminate | reflexivity]).
  pose proof (tile_column_and_row_of_coordinate totalBox 10 10 (37 # 10) 10
                Hx Hy Hn Hn) as T.
  cbv zeta in T.
  destruct T as (_ & _ & _ & _ & Hrow & _ & _ & Hcol & _).
  refine (conj Hx (conj Hy (conj Hn (conj _ _)))).
  - apply Hrow. reflexivity.
  - apply Hcol; [discriminate | reflexivity].
Defined.

(** C2 (as stated) fails.  On the total box (0,0)-(10,10) with ten rows, the
    latitude 10 equals [maxY]: the wording puts it in row -1, [getTileRow]
    puts it in row 0. *)
Lemma getTileRow_at_maxY_not_as_worded :
  let totalBox := {| minLongitude := 0; minLatitude := 0;
                     maxLongitude := 10; maxLatitude := 10 |}%Q in
  Upper.getTileRow totalBox 10 10 = 0 /\
  AsWorded.tileRow totalBox 10 10 = -1 /\
  Upper.getTileRow totalBox 10 10 <> AsWorded.tileRow totalBox 10 10.
Proof. cbv zeta. repeat split; try reflexivity. vm_compute. discriminate. Qed.

(** Strictly inside the extent [getTileColumn] and [getTileRow] round to the
    nearest index where their [...WithTotalBoundingBox] counterparts keep
    the integer part: at six tenths of the first tile's width the first pair
    answers column 1, the second column 0. *)
Remark getTileColumn_rounds_to_nearest :
  let totalBox := {| minLongitude := 0; minLatitude := 0;
                     maxLongitude := 10; maxLatitude := 10 |}%Q in
  Upper.getTileColumn totalBox 10 (6 # 10) = 1 /\
  Lower.getTileColumnWithTotalBoundingBox totalBox 10 (6 # 10) = 0 /\
  Upper.getTileColumn totalBox 10 (96 # 10) = 10.
Proof. cbv zeta. repeat split; reflexivity. Qed.

(** ** Powers of two *)

Lemma Math_pow2_nonneg (n : Z) : 0 <= n -> (Math_pow2 n == inject_Z (2 ^ n))%Q.
Proof.
  intros Hn. unfold Math_pow2. symmetry. apply (Zpower_Qpower 2 n Hn).
Qed.

(** ** Pixel mapping, exact reading *)


(** The two declarations of each pixel-mapping method compute the same
    expression. *)
Lemma pixel_mapping_declarations_agree {N : Type} `{Number N}
    (size : N) (box tileBox : BoundingBox N) (v : N) :
  Upper.getXPixel size box v = Lower.getXPixel size box v /\
  Upper.getYPixel size box v = Lower.getYPixel size box v /\
  Upper.getLongitudeFromPixel size box tileBox v
  = Lower.getLongitudeFromPixel size box tileBox v /\
  Upper.getLatitudeFromPixel size box tileBox v
  = Lower.getLatitudeFromPixel size box tileBox v.
Proof. repeat split; reflexivity. Qed.



(** ** Pixel mapping, binary64 reading

    The classification of a binary64 number ([is_zero], [is_nan],
    [is_infinity], [is_finite]) is read off its specification value
    [Prim2SF], and so are the special cases of division, multiplication and
    subtraction. *)

Section Binary64Facts.
Local Open Scope float_scope.


Lemma Prim2SF_zero : Prim2SF zero = S754_zero false.
Proof. reflexivity. Qed.

Lemma Prim2SF_infinity : Prim2SF infinity = S754_infinity false.
Proof. reflexivity. Qed.

Lemma SFcompare_refl (s : bool) (m : positive) (e : Z) :
  SFcompare (S754_finite s m e) (S754_finite s m e) = Some Eq.
Proof.
  cbn. rewrite Z.compare_refl.
  change (PosDef.Pos.compare_cont Eq m m) with (Pos.compare m m).
  rewrite Pos.compare_refl. destruct s; reflexivity.
Qed.

Lemma is_zero_spec (x : float) :
  is_zero x = true <-> exists s, Prim2SF x = S754_zero s.
Proof.
  unfold is_zero. rewrite FloatAxioms.eqb_spec, Prim2SF_zero.
  destruct (Prim2SF x) as [s|s| |s m e]; cbn; split;
    try (intros [s' Hs]); try discriminate; eauto;
    destruct s; discriminate.
Qed.

Lemma is_nan_spec (x : float) : is_nan x = true <-> Prim2SF x = S754_nan.
Proof.
  unfold is_nan. rewrite FloatAxioms.eqb_spec, negb_true_iff. unfold SFeqb.
  destruct (Prim2SF x) as [s|s| |s m e] eqn:E.
  - cbn. split; discriminate.
  - cbn. destruct s; split; discriminate.
  - cbn. split; reflexivity.
  - rewrite SFcompare_refl. split; discriminate.
Qed.

Lemma is_infinity_spec (x : float) :
  is_infinity x = true <-> exists s, Prim2SF x = S754_infinity s.
Proof.
  unfold is_infinity. rewrite FloatAxioms.eqb_spec, abs_spec, Prim2SF_infinity.
  destruct (Prim2SF x) as [s|s| |s m e]; cbn; split;
    try (intros [s' Hs]); try discriminate; eauto.
Qed.

Lemma not_nan_not_zero (x : float) :
  is_nan x = false -> is_zero x = false ->
  (exists s, Prim2SF x = S754_infinity s) \/
  (exists s m e, Prim2SF x = S754_finite s m e).
Proof.
  intros Hn Hz.
  destruct (Prim2SF x) as [s|s| |s m e] eqn:E; eauto.
  - assert (is_zero x = true) by (apply is_zero_spec; eauto). congruence.
  - assert (is_nan x = true) by (apply is_nan_spec; eauto). congruence.
Qed.

Lemma div_by_zero (x y : float) :
  is_zero y = true -> is_nan x = false -> is_zero x = false ->
  is_infinity (x / y) = true.
Proof.
  intros Hy Hn Hz. apply is_infinity_spec. rewrite div_spec.
  apply is_zero_spec in Hy. destruct Hy as [sy Hy]. rewrite Hy.
  destruct (not_nan_not_zero x Hn Hz) as [[s Hx] | (s & m & e & Hx)]; rewrite Hx; cbn; eauto.
Qed.

Lemma zero_div_zero (x y : float) :
  is_zero y = true -> is_zero x = true -> is_nan (x / y) = true.
Proof.
  intros Hy Hx. apply is_nan_spec. rewrite div_spec.
  apply is_zero_spec in Hy, Hx. destruct Hy as [sy Hy], Hx as [sx Hx].
  rewrite Hx, Hy. reflexivity.
Qed.

Lemma infinity_mul (x y : float) :
  is_infinity x = true -> is_nan y = false -> is_zero y = false ->
  is_infinity (x * y) = true.
Proof.
  intros Hx Hn Hz. apply is_infinity_spec. rewrite mul_spec.
  apply is_infinity_spec in Hx. destruct Hx as [sx Hx]. rewrite Hx.
  destruct (not_nan_not_zero y Hn Hz) as [[s Hy] | (s & m & e & Hy)]; rewrite Hy; cbn; eauto.
Qed.

Lemma nan_mul (x y : float) : is_nan x = true -> is_nan (x * y) = true.
Proof.
  intros Hx. apply is_nan_spec. rewrite mul_spec.
  apply is_nan_spec in Hx. rewrite Hx. reflexivity.
Qed.

Lemma SFcompare_Eq_finite s1 m1 e1 s2 m2 e2 :
  SFcompare (S754_finite s1 m1 e1) (S754_finite s2 m2 e2) = Some Eq ->
  s1 = s2 /\ m1 = m2 /\ e1 = e2.
Proof.
  cbn. destruct s1, s2; try discriminate;
    destruct (Z.compare_spec e1 e2) as [He| |]; try discriminate;
    change (PosDef.Pos.compare_cont Eq m1 m2) with (Pos.compare m1 m2);
    destruct (Pos.compare_spec m1 m2); try discriminate; intros _; auto.
Qed.

Lemma sub_equal_is_zero (x y : float) :
  (x =? y) = true -> is_finite x = true -> is_zero (x - y) = true.
Proof.
  intros Heq Hfin. apply is_zero_spec. rewrite sub_spec.
  rewrite FloatAxioms.eqb_spec in Heq. unfold SFeqb in Heq.
  unfold is_finite in Hfin. rewrite negb_true_iff, orb_false_iff in Hfin.
  destruct Hfin as [Hn Hi].
  destruct (Prim2SF x) as [sx|sx| |sx mx ex] eqn:Ex.
  - destruct (Prim2SF y) as [sy|sy| |sy my ey]; cbn in Heq; try discriminate.
    + destruct sx, sy; cbn; eauto.
    + destruct sy; discriminate.
    + destruct sy; discriminate.
  - assert (is_infinity x = true) by (apply is_infinity_spec; eauto). congruence.
  - discriminate.
  - destruct (Prim2SF y) as [sy|sy| |sy my ey] eqn:Ey.
    + cbn in Heq. destruct sx; discriminate.
    + cbn in Heq. destruct sy; discriminate.
    + discriminate.
    + destruct (SFcompare (S754_finite sx mx ex) (S754_finite sy my ey)) as [[| |]|] eqn:C;
        try discriminate.
      apply SFcompare_Eq_finite in C. destruct C as (-> & -> & ->).
      unfold SF64sub, SFsub. rewrite Z.sub_diag. cbn. eauto.
Qed.

(** C6 (as amended).  [getXPixel] and [getYPixel] divide by the extent of the
    box as it is; nothing stands in for a zero extent.  In binary64, for a
    raster size that is neither zero nor NaN: when [maxX == minX] (finite),
    [getXPixel] is infinite if the offset [longitude - minX] is neither zero
    nor NaN, and NaN if that offset is zero; when [maxY == minY] (finite),
    [getYPixel] is infinite or NaN in the same way, by the offset
    [maxY - latitude]. *)
Theorem pixel_of_zero_extent_box
    (size : float) (box : BoundingBox float) (longitude latitude : float) :
  is_nan size = false -> is_zero size = false ->
  ((maxLongitude box =? minLongitude box) = true ->
   is_finite (maxLongitude box) = true ->
   let offset := longitude - minLongitude box in
   (is_nan offset = false -> is_zero offset = false ->
    is_infinity (Lower.getXPixel size box longitude) = true) /\
   (is_zero offset = true ->
    is_nan (Lower.getXPixel size box longitude) = true))
  /\
  ((maxLatitude box =? minLatitude box) = true ->
   is_finite (maxLatitude box) = true ->
   let offset := maxLatitude box - latitude in
   (is_nan offset = false -> is_zero offset = false ->
    is_infinity (Lower.getYPixel size box latitude) = true) /\
   (is_zero offset = true ->
    is_nan (Lower.getYPixel size box latitude) = true)).
Proof.
  intros Hn Hz.
  unfold Lower.getXPixel, Lower.getYPixel, width, height.
  cbn [add sub mul div Number_binary64].
  split; intros Heq Hfin;
    pose proof (sub_equal_is_zero _ _ Heq Hfin) as Hzero; split.
  - intros Hon Hoz. apply infinity_mul; [| assumption | assumption].
    apply div_by_zero; assumption.
  - intros Hoz. apply nan_mul, zero_div_zero; assumption.
  - intros Hon Hoz. apply infinity_mul; [| assumption | assumption].
    apply div_by_zero; assumption.
  - intros Hoz. apply nan_mul, zero_div_zero; assumption.
Qed.

Lemma pixel_of_zero_extent_box_witness :
  let box := {| minLongitude := 0; minLatitude := 0;
                maxLongitude := 0; maxLatitude := 0 |} in
  is_nan 256 = false /\ is_zero 256 = false /\
  is_infinity (Lower.getXPixel 256 box 1) = true /\
  is_nan (Lower.getYPixel 256 box 0) = true.
Proof.
  intros box.
  assert (Hn : is_nan 256 = false) by reflexivity.
  assert (Hz : is_zero 256 = false) by reflexivity.
  destruct (pixel_of_zero_extent_box 256 box 1 0 Hn Hz) as [HX HY].
  refine (conj Hn (conj Hz (conj _ _))).
  - apply HX; reflexivity.
  - apply HY; reflexivity.
Defined.

(** C6 (as stated) fails.  All inputs are finite, the box has zero width and
    zero height, and the pixel values are the two infinities. *)
Lemma pixel_of_zero_extent_box_is_infinite :
  let box := {| minLongitude := 0; minLatitude := 0;
                maxLongitude := 0; maxLatitude := 0 |} in
  is_finite 256 = true /\ is_finite 0 = true /\ is_finite 1 = true /\
  Lower.getXPixel 256 box 1 = infinity /\
  Lower.getYPixel 256 box 1 = neg_infinity /\
  Upper.getXPixel 256 box 1 = infinity /\
  Upper.getYPixel 256 box 1 = neg_infinity.
Proof. cbv zeta. repeat split; reflexivity. Qed.

(** In the binary64 reading the round trip is not exact: on the box
    (-180,-90)-(180,90) and a raster 256 wide, the longitude 0.1 comes back
    as 0.0999999999999659, within 2^-43 of where it started. *)
Remark pixel_round_trip_binary64 :
  let B := {| minLongitude := -180; minLatitude := -90;
              maxLongitude := 180; maxLatitude := 90 |} in
  let back :=
    Lower.getLongitudeFromPixel 256 B B
      (Lower.getXPixel 256 B 0x1.999999999999ap-4) in
  back = 0x1.9999999999000p-4 /\
  (back =? 0x1.999999999999ap-4) = false /\
  (abs (back - 0x1.999999999999ap-4) <? 0x1p-43) = true.
Proof. cbv zeta. repeat split; vm_compute; reflexivity. Qed.


End Binary64Facts.

(** ** Square world tiling: tiles per side and the correction of [x] *)

Lemma tilesPerSideWithZoom_pow2 (zoom : Z) :
  zoom mod 32 <> 31 -> Lower.tilesPerSideWithZoom zoom = 2 ^ (zoom mod 32).
Proof.
  intros Hz. unfold Lower.tilesPerSideWithZoom, shl.
  change (ToInt32 1) with 1. rewrite Z.mul_1_l.
  pose proof (Z.mod_pos_bound zoom 32 ltac:(lia)) as Hk.
  apply ToInt32_small. split.
  - pose proof (Z.pow_nonneg 2 (zoom mod 32) ltac:(lia)). lia.
  - apply Z.pow_lt_mono_r; lia.
Qed.

Lemma tilesPerSideWithZoom_small (zoom : Z) :
  0 <= zoom <= 30 -> Lower.tilesPerSideWithZoom zoom = 2 ^ zoom.
Proof.
  intros Hz. rewrite tilesPerSideWithZoom_pow2; rewrite Z.mod_small; lia.
Qed.

Lemma while_done {S : Type} (fuel : nat) (cond : S -> bool) (body : S -> S)
    (s : S) :
  cond s = false -> while fuel cond body s = Some s.
Proof. intros H. destruct fuel; cbn; rewrite H; reflexivity. Qed.

(** [while (x < 0) x = x + tilesPerSide]. *)
Lemma while_negative_add (tilesPerSide : Z) (fuel : nat) :
  forall x : Z,
    0 < tilesPerSide -> - x <= Z.of_nat fuel ->
    while fuel (fun x => x <? 0) (fun x => x + tilesPerSide) x
    = Some (if x <? 0 then x mod tilesPerSide else x).
Proof.
  induction fuel as [|fuel IH]; intros x Hn Hx.
  - cbn. destruct (Z.ltb_spec x 0); [lia | reflexivity].
  - cbn [while]. destruct (Z.ltb_spec x 0) as [Hneg|]; [| reflexivity].
    rewrite IH by lia. f_equal.
    rewrite <- (Z.mod_add x 1 tilesPerSide) by lia. rewrite Z.mul_1_l.
    destruct (Z.ltb_spec (x + tilesPerSide) 0); [reflexivity |].
    symmetry. apply Z.mod_small. lia.
Qed.

(** [while (x >= tilesPerSide) x = x - tilesPerSide]. *)
Lemma while_large_subtract (tilesPerSide : Z) (fuel : nat) :
  forall x : Z,
    0 < tilesPerSide -> 0 <= x <= Z.of_nat fuel ->
    while fuel (fun x => x >=? tilesPerSide) (fun x => x - tilesPerSide) x
    = Some (x mod tilesPerSide).
Proof.
  induction fuel as [|fuel IH]; intros x Hn Hx.
  - cbn. rewrite Z.geb_leb. destruct (Z.leb_spec tilesPerSide x); [lia |].
    f_equal. symmetry. apply Z.mod_small. lia.
  - cbn [while]. rewrite Z.geb_leb.
    destruct (Z.leb_spec tilesPerSide x) as [Hge|Hlt].
    + rewrite IH by lia. f_equal.
      rewrite <- (Z.mod_add (x - tilesPerSide) 1 tilesPerSide) by lia.
      f_equal. lia.
    + f_equal. symmetry. apply Z.mod_small. lia.
Qed.

(** With a negative [tilesPerSide] the second loop never ends. *)
Lemma while_large_subtract_diverges (tilesPerSide : Z) (fuel : nat) :
  forall x : Z,
    tilesPerSide < 0 -> 0 <= x ->
    while fuel (fun x => x >=? tilesPerSide) (fun x => x - tilesPerSide) x
    = None.
Proof.
  induction fuel as [|fuel IH]; intros x Hn Hx; cbn [while];
    rewrite Z.geb_leb; destruct (Z.leb_spec tilesPerSide x); try lia.
  - reflexivity.
  - apply IH; lia.
Qed.

(** Both loops together leave [x mod tilesPerSide]. *)
Lemma getWebMercatorBoundingBoxFromXYZ_corrects_x {N : Type} `{Number N}
    (fuel : nat) (pc : ProjectionConstants N) (x y zoom : Z)
    (options : option (Lower.Options N)) :
  0 < Lower.tilesPerSideWithZoom zoom -> Z.abs x <= Z.of_nat fuel ->
  Lower.getWebMercatorBoundingBoxFromXYZ fuel pc x y zoom options
  = Some (Lower.boundsAfterCorrection pc
            (x mod Lower.tilesPerSideWithZoom zoom) y zoom options).
Proof.
  intros Hn Hfuel. unfold Lower.getWebMercatorBoundingBoxFromXYZ. cbv zeta.
  set (n := Lower.tilesPerSideWithZoom zoom) in *.
  rewrite (while_negative_add n fuel x Hn) by lia.
  destruct (Z.ltb_spec x 0) as [Hneg|Hpos].
  - pose proof (Z.mod_pos_bound x n Hn) as Hb.
    rewrite while_done; [reflexivity |].
    rewrite Z.geb_leb. apply Z.leb_gt. lia.
  - rewrite (while_large_subtract n fuel x Hn) by lia. reflexivity.
Qed.

(** Away from the shift count 31, [getWebMercatorBoundingBoxFromXYZ] wraps
    the column into the world.  For every zoom [z >= 0] whose shift count
    [z mod 32] is not 31 (so for every zoom from 0 to 30),
    [tilesPerSide = 1 << z] is [2^(z mod 32)] (which is [2^z] up to zoom
    30), and for every integer column [x] within [2^53] the call returns,
    the two loops having brought [x] to [x mod tilesPerSide] in
    [[0, tilesPerSide)] before the bounds are computed; the call at
    [x mod tilesPerSide] returns the same box.  This holds in both readings
    of numbers. *)
Theorem getWebMercatorBoundingBoxFromXYZ_wraps_x {N : Type} `{Number N}
    (pc : ProjectionConstants N) (x y zoom : Z)
    (options : option (Lower.Options N)) :
  0 <= zoom -> zoom mod 32 <> 31 -> Z.abs x <= 2 ^ 53 ->
  let tilesPerSide := Lower.tilesPerSideWithZoom zoom in
  tilesPerSide = 2 ^ (zoom mod 32) /\
  (zoom <= 30 -> tilesPerSide = 2 ^ zoom) /\
  0 <= x mod tilesPerSide < tilesPerSide /\
  exists fuel0 : nat, forall fuel : nat, (fuel0 <= fuel)%nat ->
    Lower.getWebMercatorBoundingBoxFromXYZ fuel pc x y zoom options
    = Some (Lower.boundsAfterCorrection pc (x mod tilesPerSide) y zoom options)
    /\
    Lower.getWebMercatorBoundingBoxFromXYZ fuel pc (x mod tilesPerSide) y zoom
      options
    = Lower.getWebMercatorBoundingBoxFromXYZ fuel pc x y zoom options.
Proof.
  intros Hz H31 _ tilesPerSide.
  assert (Hn : tilesPerSide = 2 ^ (zoom mod 32))
    by (apply tilesPerSideWithZoom_pow2; assumption).
  pose proof (Z.mod_pos_bound zoom 32 ltac:(lia)) as Hk.
  assert (Hpos : 0 < tilesPerSide)
    by (rewrite Hn; apply Z.pow_pos_nonneg; lia).
  split; [exact Hn |]. split.
  { intros Hle. rewrite Hn, Z.mod_small; [reflexivity | lia]. }
  split; [apply Z.mod_pos_bound; exact Hpos |].
  exists (Z.to_nat (Z.max (Z.abs x) (Z.abs (x mod tilesPerSide)))).
  intros fuel Hfuel.
  rewrite !getWebMercatorBoundingBoxFromXYZ_corrects_x by (fold tilesPerSide; lia).
  fold tilesPerSide. split; [reflexivity |].
  rewrite (Z.mod_mod x tilesPerSide) by lia. reflexivity.
Qed.

Lemma getWebMercatorBoundingBoxFromXYZ_wraps_x_witness :
  0 <= 3 /\ 3 mod 32 <> 31 /\ Z.abs (-13) <= 2 ^ 53 /\
  Lower.tilesPerSideWithZoom 3 = 2 ^ 3 /\
  exists fuel0 : nat, forall fuel : nat, (fuel0 <= fuel)%nat ->
    Lower.getWebMercatorBoundingBoxFromXYZ fuel projections_js (-13) 2 3 None
    = Some (Lower.boundsAfterCorrection projections_js 3 2 3 None).
Proof.
  assert (H0 : 0 <= 3) by discriminate.
  assert (H31 : 3 mod 32 <> 31) by discriminate.
  assert (Hx : Z.abs (-13) <= 2 ^ 53) by discriminate.
  destruct (getWebMercatorBoundingBoxFromXYZ_wraps_x projections_js (-13) 2 3
              None H0 H31 Hx) as (_ & Hn & _ & fuel0 & Hrun).
  refine (conj H0 (conj H31 (conj Hx (conj (Hn ltac:(discriminate)) _)))).
  exists fuel0. intros fuel Hfuel. exact (proj1 (Hrun fuel Hfuel)).
Defined.

(** C10.  The call at zoom 31 never returns.  There the shift [1 << 31] is
    -2^31, where the documentation of [tilesPerSideWithZoom] and the sibling
    [tilesPerSide], which takes [Math.pow(2, zoom)], say [2^31].  For
    [x = 0] the test [x >= tilesPerSide] of the second loop holds and keeps
    holding, as [x] only grows, so the call returns no box, whatever the
    number of turns; the claim says the box of column 0. *)
Theorem getWebMercatorBoundingBoxFromXYZ_zoom_31_never_returns :
  Lower.tilesPerSideWithZoom 31 = - 2 ^ 31 /\
  Upper.tilesPerSide 31 = 2 ^ 31 /\
  forall fuel : nat,
    Lower.getWebMercatorBoundingBoxFromXYZ fuel projections_js 0 0 31 None
    = None.
Proof.
  split; [reflexivity |]. split; [reflexivity |].
  intros fuel. unfold Lower.getWebMercatorBoundingBoxFromXYZ. cbv zeta.
  change (Lower.tilesPerSideWithZoom 31) with (- 2 ^ 31).
  rewrite while_done by reflexivity.
  rewrite while_large_subtract_diverges; [reflexivity | reflexivity | discriminate].
Qed.

(** ** Square world tiling: a tile, its box, and the tiles that cover it *)

Lemma inject_Z_0_le (n : Z) : 0 <= n -> (0 <= inject_Z n)%Q.
Proof. intros H. change 0%Q with (inject_Z 0). rewrite <- Zle_Qle. exact H. Qed.

Ltac inject_Z_literals :=
  change (inject_Z (-1)) with (-1)%Q in *;
  change (inject_Z 0) with 0%Q in *;
  change (inject_Z 1) with 1%Q in *;
  change (inject_Z 2) with 2%Q in *.

(** The tile [(x, y)] of a world of [n] by [n] tiles of size [ts]: the
    bounds that [getWebMercatorBoundingBoxFromXYZ] computes for it, and the
    indices that [webMercatorTileBox] computes from these bounds. *)
Lemma tile_of_own_bounds (half ts : Q) (n x y : Z) :
  (0 < half)%Q -> (0 < ts)%Q -> (inject_Z n * ts == inject_Z 2 * half)%Q ->
  0 <= x < n -> 0 <= y < n ->
  let minLon :=
    Qmax (inject_Z (-1) * half)
         (inject_Z (-1) * half + inject_Z x * ts - inject_Z 0) in
  let maxLon :=
    Qmin half (inject_Z (-1) * half + inject_Z (x + 1) * ts + inject_Z 0) in
  let minLat :=
    Qmax (inject_Z (-1) * half) (half - inject_Z (y + 1) * ts - inject_Z 0) in
  let maxLat := Qmin half (half - inject_Z y * ts + inject_Z 0) in
  (inject_Z (Qfloor ((Qmax (- half) minLon + half) / ts)) == inject_Z x /\
   Qmax (inject_Z 0)
        (inject_Z (Qceiling ((Qmin half maxLon + half) / ts)) - inject_Z 1)
   == inject_Z x /\
   inject_Z (Qfloor ((half - Qmin half maxLat) / ts)) == inject_Z y /\
   Qmax (inject_Z 0)
        (inject_Z (Qceiling ((half - Qmax (- half) minLat) / ts)) - inject_Z 1)
   == inject_Z y)%Q.
Proof.
  intros Hh Hts Hn Hx Hy. cbv zeta. inject_Z_literals.
  assert (Hx0 : (0 <= inject_Z x * ts)%Q)
    by (apply Qmult_le_0_compat; [apply inject_Z_0_le; lia | lra]).
  assert (Hy0 : (0 <= inject_Z y * ts)%Q)
    by (apply Qmult_le_0_compat; [apply inject_Z_0_le; lia | lra]).
  assert (Hx1 : (inject_Z (x + 1) * ts <= 2 * half)%Q).
  { rewrite <- Hn. apply Qmult_le_compat_r; [| lra]. rewrite <- Zle_Qle. lia. }
  assert (Hy1 : (inject_Z (y + 1) * ts <= 2 * half)%Q).
  { rewrite <- Hn. apply Qmult_le_compat_r; [| lra]. rewrite <- Zle_Qle. lia. }
  assert (E1 : ((Qmax (- half) (Qmax (-1 * half) (-1 * half + inject_Z x * ts - 0))
                 + half) / ts == inject_Z x)%Q).
  { set (m := (-1 * half + inject_Z x * ts - 0)%Q).
    assert (M1 : (Qmax (-1 * half) m == m)%Q) by (apply Q.max_r; unfold m; lra).
    rewrite M1. rewrite (Q.max_r (- half) m) by (unfold m; lra).
    unfold m. field. lra. }
  assert (E2 : ((Qmin half (Qmin half (-1 * half + inject_Z (x + 1) * ts + 0))
                 + half) / ts == inject_Z (x + 1))%Q).
  { set (m := (-1 * half + inject_Z (x + 1) * ts + 0)%Q).
    assert (M1 : (Qmin half m == m)%Q) by (apply Q.min_r; unfold m; lra).
    rewrite M1. rewrite (Q.min_r half m) by (unfold m; lra).
    unfold m. field. lra. }
  assert (E3 : ((half - Qmin half (Qmin half (half - inject_Z y * ts + 0))) / ts
                == inject_Z y)%Q).
  { set (m := (half - inject_Z y * ts + 0)%Q).
    assert (M1 : (Qmin half m == m)%Q) by (apply Q.min_r; unfold m; lra).
    rewrite M1. rewrite (Q.min_r half m) by (unfold m; lra).
    unfold m. field. lra. }
  assert (E4 : ((half - Qmax (- half)
                           (Qmax (-1 * half) (half - inject_Z (y + 1) * ts - 0)))
                / ts == inject_Z (y + 1))%Q).
  { set (m := (half - inject_Z (y + 1) * ts - 0)%Q).
    assert (M1 : (Qmax (-1 * half) m == m)%Q) by (apply Q.max_r; unfold m; lra).
    rewrite M1. rewrite (Q.max_r (- half) m) by (unfold m; lra).
    unfold m. field. lra. }
  rewrite (Qfloor_comp _ _ E1), (Qceiling_comp _ _ E2),
    (Qfloor_comp _ _ E3), (Qceiling_comp _ _ E4).
  rewrite !Qfloor_Z, !Qceiling_Z.
  assert (Ix : (inject_Z (x + 1) - 1 == inject_Z x)%Q)
    by (rewrite inject_Z_plus; inject_Z_literals; ring).
  assert (Iy : (inject_Z (y + 1) - 1 == inject_Z y)%Q)
    by (rewrite inject_Z_plus; inject_Z_literals; ring).
  pose proof (inject_Z_0_le x ltac:(lia)) as Px.
  pose proof (inject_Z_0_le y ltac:(lia)) as Py.
  repeat split; try reflexivity.
  - rewrite Ix. apply Q.max_r. exact Px.
  - rewrite Iy. apply Q.max_r. exact Py.
Qed.

Lemma roundZ_inject_Z (n : Z) : roundZ (inject_Z n) = n.
Proof.
  unfold roundZ.
  destruct (Qfloor_bounds (inject_Z n + (1 # 2)) n (n + 1)) as [H1 H2].
  - lra.
  - rewrite inject_Z_plus. change (inject_Z 1) with 1%Q. lra.
  - lia.
Qed.

Lemma tilesPerSide_pow2 (zoom : Z) :
  0 <= zoom ->
  Upper.tilesPerSide zoom = 2 ^ zoom /\
  (Lower.tilesPerSide zoom == inject_Z (2 ^ zoom))%Q.
Proof.
  intros Hz. pose proof (Math_pow2_nonneg zoom Hz) as E.
  split; [| exact E].
  unfold Upper.tilesPerSide, roundZ.
  assert (E' : (Math_pow2 zoom + (1 # 2) == inject_Z (2 ^ zoom) + (1 # 2))%Q)
    by (rewrite E; reflexivity).
  rewrite (Qfloor_comp _ _ E'). apply roundZ_inject_Z.
Qed.

(** A tile, its box and the tiles that cover the box, with the arithmetic
    carried out exactly.  For every zoom [z >= 0], [tilesPerSide z] is
    [2^z].  For every zoom from 0 to 30, [1 << z] is [2^z] as well, and for
    every tile [(x, y)] with [0 <= x, y < 2^z]:
    [getWebMercatorBoundingBoxFromXYZ] returns a box (its loops make no
    turn), and [webMercatorTileBox] of that box at the same zoom is the
    single tile with [minX = maxX = x] and [minY = maxY = y].  The half
    world width is any positive number. *)
Theorem xyz_tile_round_trip (pc : ProjectionConstants Q) (x y zoom : Z) :
  (0 < WEB_MERCATOR_HALF_WORLD_WIDTH pc)%Q -> 0 <= zoom ->
  Upper.tilesPerSide zoom = 2 ^ zoom /\
  (Lower.tilesPerSide zoom == inject_Z (2 ^ zoom))%Q /\
  (zoom <= 30 ->
   Lower.tilesPerSideWithZoom zoom = 2 ^ zoom /\
   (0 <= x < 2 ^ zoom -> 0 <= y < 2 ^ zoom ->
    forall fuel : nat, exists box : BoundingBox Q,
      Lower.getWebMercatorBoundingBoxFromXYZ fuel pc x y zoom None = Some box /\
      let grid := Lower.webMercatorTileBox pc box zoom in
      (minLongitude grid == inject_Z x /\ maxLongitude grid == inject_Z x /\
       minLatitude grid == inject_Z y /\ maxLatitude grid == inject_Z y)%Q)).
Proof.
  intros Hh Hz.
  destruct (tilesPerSide_pow2 zoom Hz) as [T1 T2].
  split; [exact T1 |]. split; [exact T2 |].
  intros Hz30.
  pose proof (tilesPerSideWithZoom_small zoom ltac:(lia)) as Hn.
  split; [exact Hn |].
  intros Hx Hy fuel.
  exists (Lower.boundsAfterCorrection pc x y zoom None). split.
  - unfold Lower.getWebMercatorBoundingBoxFromXYZ. cbv zeta. rewrite Hn.
    rewrite while_done by (apply Z.ltb_ge; lia).
    rewrite while_done by (rewrite Z.geb_leb; apply Z.leb_gt; lia).
    reflexivity.
  - unfold Lower.webMercatorTileBox, Lower.boundsAfterCorrection.
    cbv zeta. cbn [minLongitude maxLongitude minLatitude maxLatitude].
    rewrite Hn.
    set (half := WEB_MERCATOR_HALF_WORLD_WIDTH pc) in *.
    set (ts := Lower.tileSizeWithTilesPerSide pc (2 ^ zoom)).
    assert (Hn0 : (0 < inject_Z (2 ^ zoom))%Q).
    { change 0%Q with (inject_Z 0). rewrite <- Zlt_Qlt.
      apply Z.pow_pos_nonneg; lia. }
    assert (Hts : (0 < ts)%Q).
    { unfold ts, Lower.tileSizeWithTilesPerSide. fold half.
      cbn [mul div of_Z Number_Q]. inject_Z_literals.
      apply Qlt_shift_div_l; [exact Hn0 | lra]. }
    assert (Hnts : (inject_Z (2 ^ zoom) * ts == inject_Z 2 * half)%Q).
    { unfold ts, Lower.tileSizeWithTilesPerSide. fold half.
      cbn [mul div of_Z Number_Q]. field. lra. }
    pose proof (tile_of_own_bounds half ts (2 ^ zoom) x y Hh Hts Hnts Hx Hy)
      as Hgrid.
    cbv zeta in Hgrid.
    cbn [add sub mul div neg of_Z Math_max Math_min Math_floor Math_ceil
         Number_Q].
    exact Hgrid.
Qed.

Lemma xyz_tile_round_trip_witness :
  (0 < WEB_MERCATOR_HALF_WORLD_WIDTH projections_js)%Q /\ 0 <= 4 /\
  Lower.tilesPerSideWithZoom 4 = 2 ^ 4 /\
  exists box : BoundingBox Q,
    Lower.getWebMercatorBoundingBoxFromXYZ 0 projections_js 11 5 4 None
    = Some box /\
    (minLongitude (Lower.webMercatorTileBox projections_js box 4)
     == inject_Z 11)%Q.
Proof.
  assert (Hh : (0 < WEB_MERCATOR_HALF_WORLD_WIDTH projections_js)%Q)
    by reflexivity.
  assert (Hz : 0 <= 4) by discriminate.
  destruct (xyz_tile_round_trip projections_js 11 5 4 Hh Hz)
    as (_ & _ & Hrt).
  destruct (Hrt ltac:(discriminate)) as [Hn Hbox].
  refine (conj Hh (conj Hz (conj Hn _))).
  destruct (Hbox ltac:(split; first [discriminate | reflexivity])
                 ltac:(split; first [discriminate | reflexivity]) 0%nat)
    as (box & Hrun & Hgrid).
  exists box. split; [exact Hrun | exact (proj1 Hgrid)].
Defined.

(** At zoom 32 the shift [1 << 32] is 1, so the tile [x = 1] (which is
    below [2^32]) is taken for column 0: its box is the whole world, and the
    grid that covers it at zoom 32 is the tile (0, 0). *)
Lemma xyz_tile_round_trip_fails_at_zoom_32 :
  0 <= 1 < 2 ^ 32 /\
  Lower.tilesPerSideWithZoom 32 = 1 /\
  forall fuel : nat,
    Lower.getWebMercatorBoundingBoxFromXYZ (S fuel) projections_js 1 0 32 None
    = Some (Lower.boundsAfterCorrection projections_js 0 0 32 None) /\
    let grid :=
      Lower.webMercatorTileBox projections_js
        (Lower.boundsAfterCorrection projections_js 0 0 32 None) 32 in
    (minLongitude grid == 0 /\ maxLongitude grid == 0 /\
     ~ minLongitude grid == inject_Z 1)%Q.
Proof.
  split; [split; [discriminate | reflexivity] |].
  split; [reflexivity |].
  intros fuel. split.
  - rewrite getWebMercatorBoundingBoxFromXYZ_corrects_x.
    + reflexivity.
    + reflexivity.
    + change (Z.abs 1) with 1. lia.
  - cbv zeta. repeat split; vm_compute; congruence.
Qed.

(** The second declaration of the covering grid,
    [getTileGridFromBoundingBox], rounds to the nearest index: applied to
    the box that [getWebMercatorBoundingBox], of the same part of the
    class, gives to tile (1, 2) at zoom 2, it answers the columns 1 to 2 and
    the rows 2 to 3. *)
Remark getTileGridFromBoundingBox_rounds_to_nearest :
  same_bounds (Upper.getWebMercatorBoundingBox projections_js 1 2 2)
    {| minLongitude := -10018754.171394622; minLatitude := -10018754.171394622;
       maxLongitude := 0; maxLatitude := 0 |}%Q /\
  Upper.getTileGridFromBoundingBox projections_js
    (Upper.getWebMercatorBoundingBox projections_js 1 2 2) 2
  = {| min_x := 1; min_y := 2; max_x := 2; max_y := 3 |}.
Proof. split; vm_compute; repeat split; reflexivity. Qed.

(** In the binary64 reading the same round trip does not come back to the
    tile it started from: the bounds of tile (0, 0) at zoom 3 are rounded
    ([maxLon] is -15028131.257091932), and the grid that covers them spans
    the columns 0 to 1 and the rows 0 to 1. *)
Remark xyz_tile_round_trip_binary64_zoom_3 :
  Lower.getWebMercatorBoundingBoxFromXYZ 0 projections_js_binary64 0 0 3 None
  = Some (Lower.boundsAfterCorrection projections_js_binary64 0 0 3 None) /\
  maxLongitude (Lower.boundsAfterCorrection projections_js_binary64 0 0 3 None)
  = (-0x1.ca9f4683a18dcp+23)%float /\
  Lower.webMercatorTileBox projections_js_binary64
    (Lower.boundsAfterCorrection projections_js_binary64 0 0 3 None) 3
  = {| minLongitude := 0%float; maxLongitude := 1%float;
       minLatitude := 0%float; maxLatitude := 1%float |}.
Proof. repeat split; vm_compute; reflexivity. Qed.

(** C3.  The round trip from a tile to its box and back to the covering
    grid does not recover the tile.  At zoom 32, [tilesPerSideWithZoom]
    answers [1 << 32 = 1] where its sibling [tilesPerSide] answers [2^32]:
    tile (1, 0) is taken for column 0 and comes back as tile (0, 0).  In
    binary64 the box of tile (0, 0) at zoom 3 is covered by the columns 0 to
    1 and the rows 0 to 1 of [webMercatorTileBox].  And
    [getTileGridFromBoundingBox], which rounds where [webMercatorTileBox]
    takes floor and ceiling, answers the columns 1 to 2 and the rows 2 to 3
    for the box that [getWebMercatorBoundingBox] gives to tile (1, 2) at
    zoom 2, also with exact arithmetic. *)
Theorem xyz_tile_round_trip_fails :
  (Lower.tilesPerSideWithZoom 32 = 1 /\ Upper.tilesPerSide 32 = 2 ^ 32 /\
   forall fuel : nat,
     Lower.getWebMercatorBoundingBoxFromXYZ (S fuel) projections_js 1 0 32 None
     = Some (Lower.boundsAfterCorrection projections_js 0 0 32 None) /\
     let grid :=
       Lower.webMercatorTileBox projections_js
         (Lower.boundsAfterCorrection projections_js 0 0 32 None) 32 in
     (minLongitude grid == 0 /\ maxLongitude grid == 0)%Q) /\
  (Lower.getWebMercatorBoundingBoxFromXYZ 0 projections_js_binary64 0 0 3 None
   = Some (Lower.boundsAfterCorrection projections_js_binary64 0 0 3 None) /\
   Lower.webMercatorTileBox projections_js_binary64
     (Lower.boundsAfterCorrection projections_js_binary64 0 0 3 None) 3
   = {| minLongitude := 0%float; maxLongitude := 1%float;
        minLatitude := 0%float; maxLatitude := 1%float |}) /\
  Upper.getTileGridFromBoundingBox projections_js
    (Upper.getWebMercatorBoundingBox projections_js 1 2 2) 2
  = {| min_x := 1; min_y := 2; max_x := 2; max_y := 3 |}.
Proof.
  split; [| split].
  - destruct xyz_tile_round_trip_fails_at_zoom_32 as (_ & Hn & Hrun).
    split; [exact Hn |]. split; [reflexivity |].
    intros fuel. destruct (Hrun fuel) as (Hbox & Hmin & Hmax & _).
    split; [exact Hbox |]. cbv zeta. split; assumption.
  - destruct xyz_tile_round_trip_binary64_zoom_3 as (Hbox & _ & Hgrid).
    split; assumption.
  - exact (proj2 getTileGridFromBoundingBox_rounds_to_nearest).
Qed.

(** ** [overlap] and the store *)

Section StoreFacts.
Import Store.

Implicit Types (s : gmap positive (BoundingBox Q)) (r : positive).

Lemma fresh_ne s r (v : BoundingBox Q) :
  s !! r = Some v -> r <> fresh (dom s).
Proof.
  intros Hr ->. apply (is_fresh (dom s)). apply elem_of_dom. eauto.
Qed.

Lemma read_held s r v : s !! r = Some v -> read r s = Some (v, s).
Proof. intros H. unfold read. rewrite H. reflexivity. Qed.

Lemma BoundingBox_overlap_run s a b A B allowEmpty :
  s !! a = Some A -> s !! b = Some B ->
  BoundingBox_overlap a b allowEmpty s =
  match intersect A B allowEmpty with
  | Some box => Some (Some (fresh (dom s)), <[fresh (dom s) := box]> s)
  | None => Some (None, s)
  end.
Proof.
  intros Ha Hb. unfold BoundingBox_overlap, bind.
  rewrite (read_held _ _ _ Ha), (read_held _ _ _ Hb).
  destruct (intersect A B allowEmpty); reflexivity.
Qed.

Lemma overlap_run s a b A B allowEmpty maxLon :
  s !! a = Some A -> s !! b = Some B ->
  let adjustment := adjustment_for A B maxLon in
  overlap a b allowEmpty maxLon s =
  if negb (Qeq_bool adjustment 0) then
    BoundingBox_overlap a (fresh (dom s)) allowEmpty
      (<[fresh (dom s) := shifted B adjustment]> s)
  else BoundingBox_overlap a b allowEmpty s.
Proof.
  intros Ha Hb adjustment.
  assert (Hadj :
    (if gt maxLon 0 then
       minLon <- getMinLongitude a ;;
       maxLon2 <- getMaxLongitude b ;;
       if gt minLon maxLon2 then ret (maxLon * 2)%Q
       else
         maxLon' <- getMaxLongitude a ;;
         minLon2 <- getMinLongitude b ;;
         if lt maxLon' minLon2 then ret (maxLon * -2)%Q
         else ret 0%Q
     else ret 0%Q) s = Some (adjustment, s)).
  { unfold adjustment, adjustment_for, getMinLongitude, getMaxLongitude, bind, ret.
    destruct (gt maxLon 0); [| reflexivity].
    rewrite (read_held _ _ _ Ha), (read_held _ _ _ Hb).
    destruct (gt (minLongitude A) (maxLongitude B)); [reflexivity |].
    rewrite (read_held _ _ _ Ha), (read_held _ _ _ Hb).
    destruct (lt (maxLongitude A) (minLongitude B)); reflexivity. }
  unfold overlap. cbv zeta. unfold bind at 1. rewrite Hadj.
  unfold bind at 1.
  destruct (negb (Qeq_bool adjustment 0)); [| reflexivity].
  unfold copy, new, getMinLongitude, getMaxLongitude, setMinLongitude,
    setMaxLongitude, write, bind, ret.
  rewrite (read_held _ _ _ Hb).
  set (c := fresh (dom s)).
  unfold read.
  assert (L : forall (m : gmap positive (BoundingBox Q)) v, <[c:=v]> m !! c = Some v)
    by (intros; apply lookup_insert_eq).
  rewrite L. cbn [minLongitude maxLongitude minLatitude maxLatitude].
  rewrite L. rewrite L. cbn [minLongitude maxLongitude minLatitude maxLatitude].
  rewrite L. rewrite !insert_insert_eq. reflexivity.
Qed.


(** With [allowEmpty] the intersection behind [BoundingBox.overlap] is the
    one that [intersection] of the sources computes (lines 1689 to 1698),
    which lets touching ranges through; without [allowEmpty] it returns
    fewer boxes, and the same box where it returns one. *)
Remark intersect_is_intersection (A B : BoundingBox Q) :
  intersect A B true = Lower.intersection A B /\
  forall R, intersect A B false = Some R -> intersect A B true = Some R.
Proof.
  unfold intersect, Lower.intersection. cbv zeta. unfold gt, lt, le.
  split.
  - destruct (Qle_bool (Qmax (minLongitude A) (minLongitude B))
                       (Qmin (maxLongitude A) (maxLongitude B)));
      destruct (Qle_bool (Qmax (minLatitude A) (minLatitude B))
                         (Qmin (maxLatitude A) (maxLatitude B)));
      reflexivity.
  - intros R.
    set (x1 := Qmax (minLongitude A) (minLongitude B)).
    set (x2 := Qmin (maxLongitude A) (maxLongitude B)).
    set (y1 := Qmax (minLatitude A) (minLatitude B)).
    set (y2 := Qmin (maxLatitude A) (maxLatitude B)).
    destruct (Qle_bool x2 x1) eqn:Ex; cbn [negb andb]; [discriminate |].
    destruct (Qle_bool y2 y1) eqn:Ey; cbn [negb andb]; [discriminate |].
    intros E.
    assert (Hx : Qle_bool x1 x2 = true).
    { apply Qle_bool_iff. apply Qlt_le_weak. apply Qnot_le_lt.
      intros H. apply Qle_bool_iff in H. congruence. }
    assert (Hy : Qle_bool y1 y2 = true).
    { apply Qle_bool_iff. apply Qlt_le_weak. apply Qnot_le_lt.
      intros H. apply Qle_bool_iff in H. congruence. }
    rewrite Hx, Hy. exact E.
Qed.

Lemma held_after_new s r (v w : BoundingBox Q) :
  s !! r = Some v -> <[fresh (dom s) := w]> s !! r = Some v.
Proof.
  intros Hr. rewrite lookup_insert_ne; [exact Hr |].
  intros E. apply (fresh_ne s r v Hr). symmetry. exact E.
Qed.

Lemma BoundingBox_overlap_frame s a b A B allowEmpty :
  s !! a = Some A -> s !! b = Some B ->
  exists result s',
    BoundingBox_overlap a b allowEmpty s = Some (result, s') /\
    forall r v, s !! r = Some v -> s' !! r = Some v.
Proof.
  intros Ha Hb. rewrite (BoundingBox_overlap_run s a b A B) by assumption.
  destruct (intersect A B allowEmpty) as [box|]; eexists _, _;
    (split; [reflexivity |]); intros r v Hr;
    [apply held_after_new |]; exact Hr.
Qed.

(** C9.  [overlap] leaves both boxes it is given as they were, and with
    them every object the store held before the call; when the adjustment
    is not zero, the shifted box is a new object, at a reference that the
    store did not hold before.  The call returns whenever its two references
    are held (also when they are the same reference). *)
Theorem overlap_leaves_arguments_unchanged
    s a b (A B : BoundingBox Q) (allowEmpty : bool) (maxLongitude_ : Q) :
  s !! a = Some A -> s !! b = Some B ->
  exists result s',
    overlap a b allowEmpty maxLongitude_ s = Some (result, s') /\
    s' !! a = Some A /\ s' !! b = Some B /\
    (forall r v, s !! r = Some v -> s' !! r = Some v) /\
    (Qeq_bool (adjustment_for A B maxLongitude_) 0 = false ->
     exists c, s !! c = None /\
               s' !! c = Some (shifted B (adjustment_for A B maxLongitude_))).
Proof.
  intros Ha Hb.
  pose proof (overlap_run s a b A B allowEmpty maxLongitude_ Ha Hb) as Hrun.
  cbv zeta in Hrun. rewrite Hrun. clear Hrun.
  destruct (Qeq_bool (adjustment_for A B maxLongitude_) 0) eqn:Hadj;
    cbn [negb].
  - destruct (BoundingBox_overlap_frame s a b A B allowEmpty Ha Hb)
      as (result & s' & Hrun & Hframe).
    exists result, s'. rewrite Hrun.
    repeat split; eauto. discriminate.
  - set (c := fresh (dom s)).
    set (B' := shifted B (adjustment_for A B maxLongitude_)).
    set (s1 := <[c := B']> s).
    assert (Hc : s !! c = None)
      by (apply not_elem_of_dom, is_fresh).
    assert (Ha1 : s1 !! a = Some A) by (apply held_after_new; exact Ha).
    assert (Hc1 : s1 !! c = Some B') by (apply lookup_insert_eq).
    destruct (BoundingBox_overlap_frame s1 a c A B' allowEmpty Ha1 Hc1)
      as (result & s' & Hrun & Hframe).
    exists result, s'. rewrite Hrun.
    assert (Hold : forall r v, s !! r = Some v -> s' !! r = Some v)
      by (intros r v Hr; apply Hframe, held_after_new; exact Hr).
    repeat split; eauto.
Qed.

Lemma overlap_leaves_arguments_unchanged_witness :
  let A := {| minLongitude := 170; minLatitude := -10;
              maxLongitude := 180; maxLatitude := 10 |}%Q in
  let B := {| minLongitude := -180; minLatitude := -10;
              maxLongitude := -170; maxLatitude := 10 |}%Q in
  let s : gmap positive (BoundingBox Q) := <[2%positive := B]> (<[1%positive := A]> ∅) in
  s !! 1%positive = Some A /\ s !! 2%positive = Some B /\
  exists result s',
    overlap 1%positive 2%positive false 180 s = Some (result, s') /\
    s' !! 1%positive = Some A /\ s' !! 2%positive = Some B.
Proof.
  intros A B s.
  assert (Ha : s !! 1%positive = Some A) by reflexivity.
  assert (Hb : s !! 2%positive = Some B) by reflexivity.
  destruct (overlap_leaves_arguments_unchanged s 1%positive 2%positive A B
              false 180 Ha Hb) as (result & s' & Hrun & Ha' & Hb' & _).
  refine (conj Ha (conj Hb _)). exists result, s'. auto.
Defined.

(** What [overlap] returns, as a box: the intersection of the first box
    with the second one, shifted when the adjustment is not zero. *)
Lemma overlap_result s a b A B allowEmpty maxLon :
  s !! a = Some A -> s !! b = Some B ->
  let adjustment := adjustment_for A B maxLon in
  result_of (overlap a b allowEmpty maxLon) s
  = Some (if negb (Qeq_bool adjustment 0)
          then intersect A (shifted B adjustment) allowEmpty
          else intersect A B allowEmpty).
Proof.
  intros Ha Hb adjustment. unfold result_of.
  pose proof (overlap_run s a b A B allowEmpty maxLon Ha Hb) as Hrun.
  cbv zeta in Hrun. rewrite Hrun. clear Hrun. fold adjustment.
  destruct (negb (Qeq_bool adjustment 0)).
  - set (c := fresh (dom s)).
    set (B' := shifted B adjustment).
    assert (Ha1 : <[c := B']> s !! a = Some A)
      by (apply held_after_new; exact Ha).
    assert (Hc1 : <[c := B']> s !! c = Some B') by (apply lookup_insert_eq).
    rewrite (BoundingBox_overlap_run _ a c A B' allowEmpty Ha1 Hc1).
    destruct (intersect A B' allowEmpty); [| reflexivity].
    rewrite lookup_insert_eq. reflexivity.
  - rewrite (BoundingBox_overlap_run s a b A B allowEmpty Ha Hb).
    destruct (intersect A B allowEmpty); [| reflexivity].
    rewrite lookup_insert_eq. reflexivity.
Qed.

(** C5 (as amended).  With the intersection of the design document behind
    [BoundingBox.overlap]: for the boxes (170,-10,180,10) and
    (-180,-10,-170,10), [overlap] with [maxLongitude = 180] shifts a copy of
    the second box by 360, to (180,-10,190,10), which touches the first box
    at longitude 180 and shares no width with it.  So with
    [allowEmpty = false] the call returns none, and with [allowEmpty = true]
    it returns the box of zero width (180,-10,180,10).  With any
    [maxLongitude <= 0] no shift is made and the call returns none, for
    either value of [allowEmpty]. *)
Theorem overlap_across_the_antimeridian s a b :
  let A := {| minLongitude := 170; minLatitude := -10;
              maxLongitude := 180; maxLatitude := 10 |}%Q in
  let B := {| minLongitude := -180; minLatitude := -10;
              maxLongitude := -170; maxLatitude := 10 |}%Q in
  s !! a = Some A -> s !! b = Some B ->
  adjustment_for A B 180 = 360%Q /\
  shifted B 360 = {| minLongitude := -180 + 360; minLatitude := -10;
                     maxLongitude := -170 + 360; maxLatitude := 10 |}%Q /\
  result_of (overlap a b false 180) s = Some None /\
  result_of (overlap a b true 180) s
  = Some (Some {| minLongitude := 180; minLatitude := -10;
                  maxLongitude := 180; maxLatitude := 10 |}%Q) /\
  forall (allowEmpty : bool) (maxLongitude_ : Q), (maxLongitude_ <= 0)%Q ->
    result_of (overlap a b allowEmpty maxLongitude_) s = Some None.
Proof.
  intros A B Ha Hb. split; [reflexivity |]. split; [reflexivity |].
  split; [| split].
  - rewrite (overlap_result s a b A B false 180 Ha Hb). reflexivity.
  - rewrite (overlap_result s a b A B true 180 Ha Hb). reflexivity.
  - intros allowEmpty maxLongitude_ Hm.
    rewrite (overlap_result s a b A B allowEmpty maxLongitude_ Ha Hb).
    cbv zeta.
    assert (Hadj : adjustment_for A B maxLongitude_ = 0%Q).
    { unfold adjustment_for, gt.
      assert (Hlt : lt 0 maxLongitude_ = false) by (apply lt_false_iff; exact Hm).
      rewrite Hlt. reflexivity. }
    rewrite Hadj. destruct allowEmpty; reflexivity.
Qed.

Lemma overlap_across_the_antimeridian_witness :
  let A := {| minLongitude := 170; minLatitude := -10;
              maxLongitude := 180; maxLatitude := 10 |}%Q in
  let B := {| minLongitude := -180; minLatitude := -10;
              maxLongitude := -170; maxLatitude := 10 |}%Q in
  let s : gmap positive (BoundingBox Q) := <[2%positive := B]> (<[1%positive := A]> ∅) in
  s !! 1%positive = Some A /\ s !! 2%positive = Some B /\
  result_of (overlap 1%positive 2%positive true 180) s
  = Some (Some {| minLongitude := 180; minLatitude := -10;
                  maxLongitude := 180; maxLatitude := 10 |}%Q) /\
  result_of (overlap 1%positive 2%positive false 0) s = Some None.
Proof.
  intros A B s.
  assert (Ha : s !! 1%positive = Some A) by reflexivity.
  assert (Hb : s !! 2%positive = Some B) by reflexivity.
  destruct (overlap_across_the_antimeridian s 1%positive 2%positive Ha Hb)
    as (_ & _ & _ & H180 & H0).
  refine (conj Ha (conj Hb (conj H180 (H0 false 0%Q _)))). discriminate.
Defined.

(** C5 (as stated) fails.  The call of the claim, with
    [allowEmpty = false] and [maxLongitude = 180], returns none: the shifted
    second box begins at longitude 180, where the first box ends, and an
    intersection of zero width is no result unless [allowEmpty] is set. *)
Lemma overlap_across_the_antimeridian_is_none :
  let A := {| minLongitude := 170; minLatitude := -10;
              maxLongitude := 180; maxLatitude := 10 |}%Q in
  let B := {| minLongitude := -180; minLatitude := -10;
              maxLongitude := -170; maxLatitude := 10 |}%Q in
  let s : gmap positive (BoundingBox Q) := <[2%positive := B]> (<[1%positive := A]> ∅) in
  s !! 1%positive = Some A /\ s !! 2%positive = Some B /\
  result_of (overlap 1%positive 2%positive false 180) s = Some None /\
  intersect A (shifted B 360) false = None.
Proof.
  intros A B s.
  assert (Ha : s !! 1%positive = Some A) by reflexivity.
  assert (Hb : s !! 2%positive = Some B) by reflexivity.
  refine (conj Ha (conj Hb (conj _ _))); [| reflexivity].
  rewrite (overlap_result s 1%positive 2%positive A B false 180 Ha Hb).
  reflexivity.
Qed.

End StoreFacts.

(** ** Retrieval without tile-matrix metadata *)

Section RetrieverFacts.
Import Retriever.

(** With metadata for the zoom level the log does record what the
    retrieval reaches: for a pyramid of one zoom level with one stored tile,
    the creator is initialised, storage is queried for the grid (0,0,0,0),
    the tile is added and the complete tile is asked for, in this order. *)
Example getTileWithBounds_with_tile_matrix :
  let world := {| minLongitude := -180; minLatitude := -90;
                  maxLongitude := 180; maxLatitude := 90 |}%Q in
  let tileMatrix := {| zoom_level := 0; matrix_width := 1; matrix_height := 1;
                       tile_width := 256; tile_height := 256 |} in
  let c := {| proj4_inverse := fun p => p;
              tileDao_widths := [360%Q];
              tileDao_maxZoom := 0;
              tileDao_projection := "EPSG:4326";
              tileDao_getTileMatrixWithZoomLevel :=
                fun zoom => match zoom with
                            | Some 0 => Some tileMatrix
                            | _ => None
                            end;
              tileMatrixSet_getBoundingBox := world;
              projectBoundingBox := fun box _ _ => box;
              initialize_answer := Fulfilled tt;
              queryByTileGrid_answer := fun _ _ => Fulfilled [mkTile [] 0 0];
              addTile_answer := fun _ _ _ => Fulfilled tt;
              getCompleteTile_answer := Fulfilled [] |} in
  getTileWithBounds c (mkThis 0 0) world (Some 0) "EPSG:4326" false []
  = (Fulfilled (Some []),
     [TileCreator_initialize 256 256 tileMatrix world "EPSG:4326" false;
      TileDao_queryByTileGrid (mkTileGrid 0 0 0 0) 0;
      TileCreator_addTile [] 0 0;
      TileCreator_getCompleteTile "png"]).
Proof. vm_compute. reflexivity. Qed.

(** C8.  When the tile DAO holds no tile matrix for the zoom level,
    [getTileWithBounds] is fulfilled with [undefined] (it is not rejected)
    and the log of calls is what it was: no storage query, no call to the
    tile creator.  [retrieveTileResults] without a tile matrix behaves the
    same, and so does [getTile] when the tile DAO holds no tile matrix for
    the zoom level that [determineGeoPackageZoomLevel] selects ([undefined]
    included). *)
Theorem retrieval_without_tile_matrix
    (c : Collaborators) (this : This) (targetBoundingBox : BoundingBox Q)
    (zoom : option Z) (targetProjection : string) (canvas : bool)
    (log : list Event) :
  (tileDao_getTileMatrixWithZoomLevel c zoom = None ->
   getTileWithBounds c this targetBoundingBox zoom targetProjection canvas log
   = (Fulfilled None, log)) /\
  retrieveTileResults c targetBoundingBox None log = (Fulfilled None, log) /\
  (forall (fuel : nat) (pc : ProjectionConstants Q) (x y z : Z)
          (box : BoundingBox Q),
     Lower.getWebMercatorBoundingBoxFromXYZ fuel pc x y z None = Some box ->
     tileDao_getTileMatrixWithZoomLevel c
       (ZoomLevel.determineGeoPackageZoomLevel (proj4_inverse c)
          (tileDao_widths c) (tileDao_maxZoom c) box) = None ->
     exists run, getTile fuel pc c this x y z = Some run /\
                 run log = (Fulfilled None, log)).
Proof.
  split; [| split].
  - intros Hnone. unfold getTileWithBounds. rewrite Hnone. reflexivity.
  - reflexivity.
  - intros fuel pc x y z box Hbox Hnone. unfold getTile. rewrite Hbox.
    eexists. split; [reflexivity |].
    unfold getTileWithBounds. rewrite Hnone. reflexivity.
Qed.

Lemma retrieval_without_tile_matrix_witness :
  let world := {| minLongitude := -180; minLatitude := -90;
                  maxLongitude := 180; maxLatitude := 90 |}%Q in
  let c := {| proj4_inverse := fun p => p;
              tileDao_widths := [];
              tileDao_maxZoom := 0;
              tileDao_projection := "EPSG:3857";
              tileDao_getTileMatrixWithZoomLevel := fun _ => None;
              tileMatrixSet_getBoundingBox := world;
              projectBoundingBox := fun box _ _ => box;
              initialize_answer := Fulfilled tt;
              queryByTileGrid_answer := fun _ _ => Fulfilled [];
              addTile_answer := fun _ _ _ => Fulfilled tt;
              getCompleteTile_answer := Fulfilled [] |} in
  tileDao_getTileMatrixWithZoomLevel c (Some 3) = None /\
  getTileWithBounds c (mkThis 256 256) world (Some 3) "EPSG:3857" false []
  = (Fulfilled None, []) /\
  exists run, getTile 0 projections_js c (mkThis 256 256) 1 2 3 = Some run /\
              run [] = (Fulfilled None, []).
Proof.
  intros world c.
  assert (Hnone : tileDao_getTileMatrixWithZoomLevel c (Some 3) = None)
    by reflexivity.
  destruct (retrieval_without_tile_matrix c (mkThis 256 256) world (Some 3)
              "EPSG:3857" false []) as (Hbounds & _ & Htile).
  refine (conj Hnone (conj (Hbounds Hnone) _)).
  apply (Htile 0%nat projections_js 1 2 3
           (Lower.boundsAfterCorrection projections_js 1 2 3 None));
    reflexivity.
Defined.

End RetrieverFacts.

(** * Further properties of [TileBoundingBoxUtils] *)

(** ** Intersection of two boxes *)

(** [intersection] (lines 1689 to 1698) returns the common part of two
    boxes: a point lies in the result exactly when it lies in both, the
    result is never empty (boxes that only touch give a box of zero width
    or height), and it is [null] exactly when the boxes have no point in
    common.  [intersects] does not depend on the order of its arguments. *)
Theorem intersection_is_common_part (A B : BoundingBox Q) :
  match Lower.intersection A B with
  | Some R =>
      (forall lon lat : Q,
          contains R lon lat <-> contains A lon lat /\ contains B lon lat) /\
      contains R (minLongitude R) (minLatitude R)
  | None =>
      forall lon lat : Q, ~ (contains A lon lat /\ contains B lon lat)
  end /\
  Lower.intersects A B = Lower.intersects B A.
Proof.
  assert (Hsym : forall a b c d : Q,
             gt (Qmax a b) (Qmin c d) = gt (Qmax b a) (Qmin d c)).
  { intros a b c d. unfold gt. apply eq_true_iff_eq.
    rewrite !lt_true_iff, (Q.max_comm a b), (Q.min_comm c d). reflexivity. }
  split.
  - unfold Lower.intersection. cbv zeta.
    destruct (gt _ _ || gt _ _) eqn:E.
    + intros lon lat [[[A1 A2] [A3 A4]] [[B1 B2] [B3 B4]]].
      apply orb_true_iff in E. unfold gt in E. rewrite !lt_true_iff in E.
      rewrite !Q.min_lt_iff, !Q.max_lt_iff in E.
      destruct E as [[[E | E] | [E | E]] | [[E | E] | [E | E]]]; lra.
    + apply orb_false_iff in E. unfold gt in E. rewrite !lt_false_iff in E.
      destruct E as [Ex Ey].
      unfold contains. cbn [minLongitude maxLongitude minLatitude maxLatitude].
      split.
      * intros lon lat.
        rewrite !Q.max_lub_iff, !Q.min_glb_iff. tauto.
      * repeat split; try apply Qle_refl; assumption.
  - unfold Lower.intersects, Lower.intersection. cbv zeta.
    rewrite (Hsym (minLongitude A)), (Hsym (minLatitude A)).
    destruct (gt _ _ || gt _ _); reflexivity.
Qed.

(** ** The tile grid that covers a box in a tile matrix *)

Lemma Qdiv_le_compat_r (a b t : Q) : (0 < t)%Q -> (a <= b)%Q -> (a / t <= b / t)%Q.
Proof.
  intros Ht Hab. unfold Qdiv. apply Qmult_le_compat_r; [exact Hab |].
  apply Qinv_le_0_compat. lra.
Qed.

Lemma tile_extent_pos (lo hi : Q) (n : Z) :
  (lo < hi)%Q -> 1 <= n -> (0 < (hi - lo) / inject_Z n)%Q.
Proof.
  intros Hbox Hn.
  assert (Hn' : (inject_Z 0 < inject_Z n)%Q) by (rewrite <- Zlt_Qlt; lia).
  change (inject_Z 0) with 0%Q in Hn'.
  apply Qlt_shift_div_l; [exact Hn' | lra].
Qed.

(** The three answers of [getTileColumnWithTotalBoundingBox]. *)
Lemma getTileColumnWithTotalBoundingBox_cases
    (box : BoundingBox Q) (w : Z) (lon : Q) :
  (minLongitude box < maxLongitude box)%Q -> 1 <= w < 2 ^ 31 ->
  let col := Lower.getTileColumnWithTotalBoundingBox box w lon in
  ((lon < minLongitude box)%Q /\ col = -1) \/
  ((maxLongitude box <= lon)%Q /\ col = w) \/
  ((minLongitude box <= lon)%Q /\ (lon < maxLongitude box)%Q /\
   col = Qfloor ((lon - minLongitude box)
                 / ((maxLongitude box - minLongitude box) / inject_Z w)) /\
   0 <= col < w).
Proof.
  intros Hbox Hw. cbv zeta.
  unfold Lower.getTileColumnWithTotalBoundingBox. cbv zeta. unfold ge.
  set (minX := minLongitude box) in *. set (maxX := maxLongitude box) in *.
  clearbody minX maxX.
  destruct (lt lon minX) eqn:E1.
  { left. apply lt_true_iff in E1. auto. }
  apply lt_false_iff in E1.
  destruct (le maxX lon) eqn:E2.
  { right; left. apply le_true_iff in E2. auto. }
  apply le_false_iff in E2. right; right.
  destruct (offset_ratio_bounds minX maxX lon w Hbox ltac:(lia) E1
              ltac:(lra)) as [[Hq0 _] Hq1].
  rewrite (double_tilde_floor _ w Hq0 (Hq1 E2)) by lia.
  repeat split; try assumption;
    apply (Qfloor_bounds _ 0 w); try exact Hq0; exact (Hq1 E2).
Qed.

(** The three answers of [getRowWithTotalBoundingBox]: a latitude on the
    lower edge of the extent is in row [matrixHeight]. *)
Lemma getRowWithTotalBoundingBox_cases
    (box : BoundingBox Q) (h : Z) (lat : Q) :
  (minLatitude box < maxLatitude box)%Q -> 1 <= h < 2 ^ 31 ->
  let row := Lower.getRowWithTotalBoundingBox box h lat in
  ((lat <= minLatitude box)%Q /\ row = h) \/
  ((maxLatitude box <= lat)%Q /\ row = -1) \/
  ((minLatitude box < lat)%Q /\ (lat < maxLatitude box)%Q /\
   row = Qfloor ((maxLatitude box - lat)
                 / ((maxLatitude box - minLatitude box) / inject_Z h)) /\
   0 <= row < h).
Proof.
  intros Hbox Hh. cbv zeta.
  unfold Lower.getRowWithTotalBoundingBox. cbv zeta. unfold ge.
  set (minY := minLatitude box) in *. set (maxY := maxLatitude box) in *.
  clearbody minY maxY.
  destruct (lt lat minY) eqn:E1.
  { left. apply lt_true_iff in E1. split; [lra | reflexivity]. }
  apply lt_false_iff in E1.
  destruct (le maxY lat) eqn:E2.
  { right; left. apply le_true_iff in E2. auto. }
  apply le_false_iff in E2.
  pose proof (tile_extent_pos minY maxY h Hbox ltac:(lia)) as Hth.
  assert (En : (inject_Z h * ((maxY - minY) / inject_Z h) == maxY - minY)%Q).
  { field. intros Hz.
    assert (Hn' : (inject_Z 0 < inject_Z h)%Q) by (rewrite <- Zlt_Qlt; lia).
    change (inject_Z 0) with 0%Q in Hn'. lra. }
  assert (Hq0 : (0 <= (maxY - lat) / ((maxY - minY) / inject_Z h))%Q)
    by (apply Qle_shift_div_l; [exact Hth | lra]).
  destruct (Qlt_le_dec minY lat) as [Hin | Hedge].
  - right; right.
    assert (Hq1 : ((maxY - lat) / ((maxY - minY) / inject_Z h) < inject_Z h)%Q).
    { apply Qlt_shift_div_r; [exact Hth |]. rewrite En. lra. }
    rewrite (double_tilde_floor _ h Hq0 Hq1) by lia.
    repeat split; try assumption;
      apply (Qfloor_bounds _ 0 h); assumption.
  - left. split; [exact Hedge |].
    assert (E : ((maxY - lat) / ((maxY - minY) / inject_Z h) == inject_Z h)%Q).
    { assert (Elat : (lat == minY)%Q) by lra.
      assert (Hn' : (inject_Z 0 < inject_Z h)%Q) by (rewrite <- Zlt_Qlt; lia).
      change (inject_Z 0) with 0%Q in Hn'.
      rewrite Elat. field. split; lra. }
    rewrite (double_tilde_floor _ (h + 1) Hq0) ; [| | lia].
    + rewrite (Qfloor_comp _ _ E). apply Qfloor_Z.
    + rewrite E. rewrite <- Zlt_Qlt. lia.
Qed.

Lemma getTileColumnWithTotalBoundingBox_mono
    (box : BoundingBox Q) (w : Z) (lon1 lon2 : Q) :
  (minLongitude box < maxLongitude box)%Q -> 1 <= w < 2 ^ 31 ->
  (lon1 <= lon2)%Q ->
  Lower.getTileColumnWithTotalBoundingBox box w lon1
  <= Lower.getTileColumnWithTotalBoundingBox box w lon2.
Proof.
  intros Hbox Hw Hle.
  pose proof (tile_extent_pos _ _ w Hbox ltac:(lia)) as Htw.
  destruct (getTileColumnWithTotalBoundingBox_cases box w lon1 Hbox Hw)
    as [[H1 E1] | [[H1 E1] | (H1 & H1' & E1 & R1)]];
  destruct (getTileColumnWithTotalBoundingBox_cases box w lon2 Hbox Hw)
    as [[H2 E2] | [[H2 E2] | (H2 & H2' & E2 & R2)]];
  try lia; try lra.
  rewrite E1, E2. apply Qfloor_resp_le. apply Qdiv_le_compat_r; [exact Htw | lra].
Qed.

Lemma getRowWithTotalBoundingBox_anti
    (box : BoundingBox Q) (h : Z) (lat1 lat2 : Q) :
  (minLatitude box < maxLatitude box)%Q -> 1 <= h < 2 ^ 31 ->
  (lat1 <= lat2)%Q ->
  Lower.getRowWithTotalBoundingBox box h lat2
  <= Lower.getRowWithTotalBoundingBox box h lat1.
Proof.
  intros Hbox Hh Hle.
  pose proof (tile_extent_pos _ _ h Hbox ltac:(lia)) as Hth.
  destruct (getRowWithTotalBoundingBox_cases box h lat1 Hbox Hh)
    as [[H1 E1] | [[H1 E1] | (H1 & H1' & E1 & R1)]];
  destruct (getRowWithTotalBoundingBox_cases box h lat2 Hbox Hh)
    as [[H2 E2] | [[H2 E2] | (H2 & H2' & E2 & R2)]];
  try lia; try lra.
  rewrite E1, E2. apply Qfloor_resp_le. apply Qdiv_le_compat_r; [exact Hth | lra].
Qed.

(** The clamping of a pair of indices (lines 1782 to 1789 and 1802 to
    1809), as [getTileGridWithTotalBoundingBox] writes it. *)
Lemma clamp_cases (lo hi n : Z) :
  -1 <= lo <= hi -> hi <= n -> 1 <= n ->
  let '(lo', hi') :=
    if (lo <? n) && (hi >=? 0) then
      (if lo <? 0 then 0 else lo, if hi >=? n then n - 1 else hi)
    else (lo, hi) in
  (lo < n /\ 0 <= hi /\ 0 <= lo' <= hi' /\ hi' < n) \/
  (hi = -1 /\ lo' = -1 /\ hi' = -1) \/
  (lo = n /\ lo' = n /\ hi' = n).
Proof.
  intros H1 H2 Hn.
  destruct (Z.ltb_spec lo n), (Z.geb_spec hi 0); cbn [andb].
  - left. destruct (Z.ltb_spec lo 0), (Z.geb_spec hi n); lia.
  - right; left. lia.
  - right; right. lia.
  - lia.
Qed.

(** The grid that [getTileGridWithTotalBoundingBox] (lines 1766 to 1812)
    answers for a box, in a tile matrix of [w] by [h] tiles over a total
    box.  Along each axis there are three outcomes.  When the box meets the
    extent, the indices are inside the matrix and in order.  When the box
    lies entirely before or after the extent, both indices are the same
    sentinel: -1 or the matrix size.  This is the grid that the retriever
    hands to the storage query. *)
Theorem getTileGridWithTotalBoundingBox_inside_or_sentinel
    (total : BoundingBox Q) (w h : Z) (box : BoundingBox Q) :
  (minLongitude total < maxLongitude total)%Q ->
  (minLatitude total < maxLatitude total)%Q ->
  1 <= w < 2 ^ 31 -> 1 <= h < 2 ^ 31 ->
  (minLongitude box <= maxLongitude box)%Q ->
  (minLatitude box <= maxLatitude box)%Q ->
  let g := Lower.getTileGridWithTotalBoundingBox total w h box in
  (((minLongitude total <= maxLongitude box)%Q /\
    (minLongitude box < maxLongitude total)%Q /\
    0 <= min_x g <= max_x g /\ max_x g < w) \/
   ((maxLongitude box < minLongitude total)%Q /\
    min_x g = -1 /\ max_x g = -1) \/
   ((maxLongitude total <= minLongitude box)%Q /\
    min_x g = w /\ max_x g = w)) /\
  (((minLatitude total < maxLatitude box)%Q /\
    (minLatitude box < maxLatitude total)%Q /\
    0 <= min_y g <= max_y g /\ max_y g < h) \/
   ((maxLatitude total <= minLatitude box)%Q /\
    min_y g = -1 /\ max_y g = -1) \/
   ((maxLatitude box <= minLatitude total)%Q /\
    min_y g = h /\ max_y g = h)).
Proof.
  intros Hx Hy Hw Hh Hbx Hby. cbv zeta.
  unfold Lower.getTileGridWithTotalBoundingBox. cbv zeta.
  pose proof (getTileColumnWithTotalBoundingBox_mono total w _ _ Hx Hw Hbx)
    as Mc.
  pose proof (getRowWithTotalBoundingBox_anti total h _ _ Hy Hh Hby) as Mr.
  pose proof (getTileColumnWithTotalBoundingBox_cases total w
                (minLongitude box) Hx Hw) as C1.
  pose proof (getTileColumnWithTotalBoundingBox_cases total w
                (maxLongitude box) Hx Hw) as C2.
  pose proof (getRowWithTotalBoundingBox_cases total h
                (minLatitude box) Hy Hh) as R1.
  pose proof (getRowWithTotalBoundingBox_cases total h
                (maxLatitude box) Hy Hh) as R2.
  cbv zeta in C1, C2, R1, R2.
  set (minColumn := Lower.getTileColumnWithTotalBoundingBox total w
                      (minLongitude box)) in *.
  set (maxColumn := Lower.getTileColumnWithTotalBoundingBox total w
                      (maxLongitude box)) in *.
  set (maxRow := Lower.getRowWithTotalBoundingBox total h
                   (minLatitude box)) in *.
  set (minRow := Lower.getRowWithTotalBoundingBox total h
                   (maxLatitude box)) in *.
  clearbody minColumn maxColumn maxRow minRow.
  assert (Bc : -1 <= minColumn <= maxColumn /\ maxColumn <= w).
  { destruct C1 as [[? ?] | [[? ?] | (? & ? & ? & ?)]];
    destruct C2 as [[? ?] | [[? ?] | (? & ? & ? & ?)]]; lia. }
  assert (Br : -1 <= minRow <= maxRow /\ maxRow <= h).
  { destruct R1 as [[? ?] | [[? ?] | (? & ? & ? & ?)]];
    destruct R2 as [[? ?] | [[? ?] | (? & ? & ? & ?)]]; lia. }
  pose proof (clamp_cases minColumn maxColumn w (proj1 Bc) (proj2 Bc)
                ltac:(lia)) as Kc.
  pose proof (clamp_cases minRow maxRow h (proj1 Br) (proj2 Br)
                ltac:(lia)) as Kr.
  destruct (if (minColumn <? w) && (maxColumn >=? 0) then _ else _)
    as [minColumn' maxColumn'].
  destruct (if (minRow <? h) && (maxRow >=? 0) then _ else _)
    as [minRow' maxRow'].
  cbn [min_x max_x min_y max_y].
  split.
  - destruct Kc as [(K1 & K2 & K3 & K4) | [(K1 & K2 & K3) | (K1 & K2 & K3)]].
    + left. repeat split; try lia.
      * destruct C2 as [[? ?] | [[? ?] | (? & ? & ? & ?)]]; try lra; lia.
      * destruct C1 as [[? ?] | [[? ?] | (? & ? & ? & ?)]]; try lra; lia.
    + right; left. repeat split; try assumption.
      destruct C2 as [[? ?] | [[? ?] | (? & ? & ? & ?)]]; try lra; lia.
    + right; right. repeat split; try assumption.
      destruct C1 as [[? ?] | [[? ?] | (? & ? & ? & ?)]]; try lra; lia.
  - destruct Kr as [(K1 & K2 & K3 & K4) | [(K1 & K2 & K3) | (K1 & K2 & K3)]].
    + left. repeat split; try lia.
      * destruct R2 as [[? ?] | [[? ?] | (? & ? & ? & ?)]]; try lra; lia.
      * destruct R1 as [[? ?] | [[? ?] | (? & ? & ? & ?)]]; try lra; lia.
    + right; left. repeat split; try assumption.
      destruct R1 as [[? ?] | [[? ?] | (? & ? & ? & ?)]]; try lra; lia.
    + right; right. repeat split; try assumption.
      destruct R2 as [[? ?] | [[? ?] | (? & ? & ? & ?)]]; try lra; lia.
Qed.

Lemma getTileGridWithTotalBoundingBox_inside_or_sentinel_witness :
  let total := {| minLongitude := 0; minLatitude := 0;
                  maxLongitude := 10; maxLatitude := 10 |}%Q in
  let box := {| minLongitude := -3; minLatitude := 12;
                maxLongitude := 47 # 10; maxLatitude := 15 |}%Q in
  let g := Lower.getTileGridWithTotalBoundingBox total 10 10 box in
  (minLongitude total < maxLongitude total)%Q /\
  (minLatitude total < maxLatitude total)%Q /\
  1 <= 10 < 2 ^ 31 /\
  (minLongitude box <= maxLongitude box)%Q /\
  (minLatitude box <= maxLatitude box)%Q /\
  g = {| min_x := 0; max_x := 4; min_y := -1; max_y := -1 |} /\
  (((minLongitude total <= maxLongitude box)%Q /\
    (minLongitude box < maxLongitude total)%Q /\
    0 <= min_x g <= max_x g /\ max_x g < 10) \/
   ((maxLongitude box < minLongitude total)%Q /\
    min_x g = -1 /\ max_x g = -1) \/
   ((maxLongitude total <= minLongitude box)%Q /\
    min_x g = 10 /\ max_x g = 10)) /\
  (((minLatitude total < maxLatitude box)%Q /\
    (minLatitude box < maxLatitude total)%Q /\
    0 <= min_y g <= max_y g /\ max_y g < 10) \/
   ((maxLatitude total <= minLatitude box)%Q /\
    min_y g = -1 /\ max_y g = -1) \/
   ((maxLatitude box <= minLatitude total)%Q /\
    min_y g = 10 /\ max_y g = 10)).
Proof.
  intros total box g.
  assert (Hx : (minLongitude total < maxLongitude total)%Q) by reflexivity.
  assert (Hy : (minLatitude total < maxLatitude total)%Q) by reflexivity.
  assert (Hn : 1 <= 10 < 2 ^ 31) by (split; [discriminate | reflexivity]).
  assert (Hbx : (minLongitude box <= maxLongitude box)%Q) by discriminate.
  assert (Hby : (minLatitude box <= maxLatitude box)%Q) by discriminate.
  refine (conj Hx (conj Hy (conj Hn (conj Hbx (conj Hby (conj _ _)))))).
  - reflexivity.
  - exact (getTileGridWithTotalBoundingBox_inside_or_sentinel total 10 10 box
             Hx Hy Hn Hn Hbx Hby).
Defined.

(** ** The box of a tile in a tile matrix *)

Lemma inject_Z_succ (k : Z) : (inject_Z (k + 1) == inject_Z k + 1)%Q.
Proof. rewrite inject_Z_plus. reflexivity. Qed.

Lemma inject_Z_pos (n : Z) : 1 <= n -> (0 < inject_Z n)%Q.
Proof.
  intros H. change 0%Q with (inject_Z 0). rewrite <- Zlt_Qlt. lia.
Qed.

(** The integer part of a quotient by a positive number. *)
Lemma Qfloor_div_eq_iff (a t : Q) (k : Z) :
  (0 < t)%Q ->
  Qfloor (a / t) = k <-> (inject_Z k * t <= a /\ a < inject_Z (k + 1) * t)%Q.
Proof.
  intros Ht.
  assert (E : (a / t * t == a)%Q) by (field; lra).
  split.
  - intros <-. pose proof (Qfloor_le (a / t)) as H1.
    pose proof (Qlt_floor (a / t)) as H2. split.
    + rewrite <- E at 2. apply Qmult_le_compat_r; [exact H1 | lra].
    + rewrite <- E at 1. apply Qmult_lt_compat_r; [exact Ht | exact H2].
  - intros [H1 H2].
    destruct (Qfloor_bounds (a / t) k (k + 1)) as [B1 B2].
    + apply Qle_shift_div_l; assumption.
    + apply Qlt_shift_div_r; assumption.
    + lia.
Qed.

(** The box that [getTileBoundingBox] (lines 1883 to 1912) gives to the
    tile of column [col] and row [row] is the set of the points that
    [getTileColumnWithTotalBoundingBox] and [getRowWithTotalBoundingBox]
    send to that column and that row: a longitude is in column [col] exactly
    from the left edge of the box up to, not including, its right edge; a
    latitude is in row [row] exactly from above the lower edge of the box up
    to and including its upper edge, the upper edge of the extent itself
    belonging to no row.  So the boxes of the tiles cover the extent without
    overlap, and the box of a tile is not empty. *)
Theorem tile_box_is_preimage_of_tile
    (total : BoundingBox Q) (tileMatrix : TileMatrix) (col row : Z) :
  (minLongitude total < maxLongitude total)%Q ->
  (minLatitude total < maxLatitude total)%Q ->
  1 <= matrix_width tileMatrix < 2 ^ 31 ->
  1 <= matrix_height tileMatrix < 2 ^ 31 ->
  0 <= col < matrix_width tileMatrix ->
  0 <= row < matrix_height tileMatrix ->
  let b := Lower.getTileBoundingBox total tileMatrix col row in
  (minLongitude b < maxLongitude b)%Q /\
  (minLatitude b < maxLatitude b)%Q /\
  (forall lon : Q,
      Lower.getTileColumnWithTotalBoundingBox total
        (matrix_width tileMatrix) lon = col
      <-> (minLongitude b <= lon /\ lon < maxLongitude b)%Q) /\
  (forall lat : Q,
      Lower.getRowWithTotalBoundingBox total
        (matrix_height tileMatrix) lat = row
      <-> (minLatitude b < lat /\ lat <= maxLatitude b
           /\ lat < maxLatitude total)%Q).
Proof.
  intros Hx Hy Hw Hh Hc Hr. cbv zeta.
  unfold Lower.getTileBoundingBox. cbv zeta.
  cbn [minLongitude maxLongitude minLatitude maxLatitude
       min_x max_x min_y max_y].
  set (w := matrix_width tileMatrix) in *.
  set (h := matrix_height tileMatrix) in *.
  set (minX := minLongitude total) in *.
  set (maxX := maxLongitude total) in *.
  set (minY := minLatitude total) in *.
  set (maxY := maxLatitude total) in *.
  pose proof (tile_extent_pos minX maxX w Hx ltac:(lia)) as Htw.
  pose proof (tile_extent_pos minY maxY h Hy ltac:(lia)) as Hth.
  pose proof (inject_Z_pos w ltac:(lia)) as Pw.
  pose proof (inject_Z_pos h ltac:(lia)) as Ph.
  set (tw := ((maxX - minX) / inject_Z w)%Q) in *.
  set (th := ((maxY - minY) / inject_Z h)%Q) in *.
  assert (Ew : (inject_Z w * tw == maxX - minX)%Q) by (unfold tw; field; lra).
  assert (Eh : (inject_Z h * th == maxY - minY)%Q) by (unfold th; field; lra).
  replace (col + 1 - col) with 1 by lia.
  replace (row + 1 - row) with 1 by lia.
  change (inject_Z 1) with 1%Q.
  assert (Pc : (0 <= inject_Z col * tw)%Q)
    by (apply Qmult_le_0_compat; [apply inject_Z_0_le; lia | lra]).
  assert (Pr : (0 <= inject_Z row * th)%Q)
    by (apply Qmult_le_0_compat; [apply inject_Z_0_le; lia | lra]).
  assert (Qc : (inject_Z (col + 1) * tw <= maxX - minX)%Q).
  { rewrite <- Ew. apply Qmult_le_compat_r; [| lra]. rewrite <- Zle_Qle. lia. }
  assert (Qr : (inject_Z (row + 1) * th <= maxY - minY)%Q).
  { rewrite <- Eh. apply Qmult_le_compat_r; [| lra]. rewrite <- Zle_Qle. lia. }
  pose proof (inject_Z_succ col) as Sc. pose proof (inject_Z_succ row) as Sr.
  split; [lra |]. split; [lra |]. split.
  - intros lon.
    pose proof (Qfloor_div_eq_iff (lon - minX) tw col Htw) as F.
    destruct (getTileColumnWithTotalBoundingBox_cases total w lon Hx Hw)
      as [[H1 E1] | [[H1 E1] | (H1 & H1' & E1 & R1)]];
      fold minX maxX tw in H1, E1 |- *.
    + rewrite E1. split; [lia |]. intros [A1 A2]. exfalso. nra.
    + rewrite E1. split; [lia |]. intros [A1 A2]. exfalso.
      rewrite Sc in Qc. nra.
    + fold minX maxX tw in H1'. rewrite E1, F. rewrite Sc. split.
      * intros [A1 A2]. split; nra.
      * intros [A1 A2]. split; nra.
  - intros lat.
    pose proof (Qfloor_div_eq_iff (maxY - lat) th row Hth) as F.
    destruct (getRowWithTotalBoundingBox_cases total h lat Hy Hh)
      as [[H1 E1] | [[H1 E1] | (H1 & H1' & E1 & R1)]];
      fold minY maxY th in H1, E1 |- *.
    + rewrite E1. split; [lia |]. intros (A1 & A2 & A3). exfalso.
      rewrite Sr in Qr. nra.
    + rewrite E1. split; [lia |]. intros (A1 & A2 & A3). exfalso. lra.
    + fold minY maxY th in H1'. rewrite E1, F. rewrite Sr. split.
      * intros [A1 A2]. repeat split; nra.
      * intros (A1 & A2 & A3). split; nra.
Qed.

Lemma tile_box_is_preimage_of_tile_witness :
  let total := {| minLongitude := 0; minLatitude := 0;
                  maxLongitude := 10; maxLatitude := 10 |}%Q in
  let tileMatrix := {| zoom_level := 3; matrix_width := 10;
                       matrix_height := 5; tile_width := 256;
                       tile_height := 256 |} in
  let b := Lower.getTileBoundingBox total tileMatrix 3 4 in
  (minLongitude total < maxLongitude total)%Q /\
  (minLatitude total < maxLatitude total)%Q /\
  1 <= matrix_width tileMatrix < 2 ^ 31 /\
  1 <= matrix_height tileMatrix < 2 ^ 31 /\
  0 <= 3 < matrix_width tileMatrix /\
  0 <= 4 < matrix_height tileMatrix /\
  (minLongitude b == 3 /\ maxLongitude b == 4 /\
   minLatitude b == 0 /\ maxLatitude b == 2)%Q /\
  (forall lon : Q,
      Lower.getTileColumnWithTotalBoundingBox total 10 lon = 3
      <-> (minLongitude b <= lon /\ lon < maxLongitude b)%Q) /\
  (forall lat : Q,
      Lower.getRowWithTotalBoundingBox total 5 lat = 4
      <-> (minLatitude b < lat /\ lat <= maxLatitude b
           /\ lat < maxLatitude total)%Q).
Proof.
  intros total tileMatrix b.
  assert (Hx : (minLongitude total < maxLongitude total)%Q) by reflexivity.
  assert (Hy : (minLatitude total < maxLatitude total)%Q) by reflexivity.
  assert (Hw : 1 <= matrix_width tileMatrix < 2 ^ 31)
    by (split; [discriminate | reflexivity]).
  assert (Hh : 1 <= matrix_height tileMatrix < 2 ^ 31)
    by (split; [discriminate | reflexivity]).
  assert (Hc : 0 <= 3 < matrix_width tileMatrix)
    by (split; [discriminate | reflexivity]).
  assert (Hr : 0 <= 4 < matrix_height tileMatrix)
    by (split; [discriminate | reflexivity]).
  refine (conj Hx (conj Hy (conj Hw (conj Hh (conj Hc (conj Hr
            (conj _ _))))))).
  - repeat split; reflexivity.
  - exact (proj2 (proj2 (tile_box_is_preimage_of_tile total tileMatrix 3 4
                           Hx Hy Hw Hh Hc Hr))).
Defined.

(** ** The box of a tile grid in a tile matrix *)

(** The box that [getTileGridBoundingBox] (lines 1914 to 1939) gives to a
    tile grid is made of the boxes that [getTileBoundingBox] (lines 1883 to
    1912) gives to its tiles: it reaches from the upper left corner of the
    box of its first tile to the lower right corner of the box of its last
    tile, the box of a grid of one tile is the box of that tile, and the box
    of the whole matrix is the total box. *)
Theorem tile_grid_box_spans_its_tiles
    (total : BoundingBox Q) (tileMatrix : TileMatrix) (g : TileGrid) :
  1 <= matrix_width tileMatrix -> 1 <= matrix_height tileMatrix ->
  let w := matrix_width tileMatrix in
  let h := matrix_height tileMatrix in
  let B := Lower.getTileGridBoundingBox total w h g in
  let first := Lower.getTileBoundingBox total tileMatrix (min_x g) (min_y g) in
  let last := Lower.getTileBoundingBox total tileMatrix (max_x g) (max_y g) in
  (minLongitude B == minLongitude first /\
   maxLatitude B == maxLatitude first /\
   maxLongitude B == maxLongitude last /\
   minLatitude B == minLatitude last)%Q /\
  same_bounds
    (Lower.getTileGridBoundingBox total w h
       {| min_x := min_x g; max_x := min_x g;
          min_y := min_y g; max_y := min_y g |})
    first /\
  same_bounds
    (Lower.getTileGridBoundingBox total w h
       {| min_x := 0; max_x := w - 1; min_y := 0; max_y := h - 1 |})
    total.
Proof.
  intros Hw Hh. cbv zeta.
  pose proof (inject_Z_pos _ Hw) as Pw. pose proof (inject_Z_pos _ Hh) as Ph.
  unfold same_bounds, Lower.getTileGridBoundingBox,
    Lower.getTileBoundingBox, width, height.
  cbv zeta.
  cbn [minLongitude maxLongitude minLatitude maxLatitude
       min_x max_x min_y max_y sub Number_Q].
  set (w := matrix_width tileMatrix) in *.
  set (h := matrix_height tileMatrix) in *.
  replace (w - 1 + 1 - 0) with w by lia.
  replace (h - 1 + 1 - 0) with h by lia.
  replace (max_x g + 1 - max_x g) with 1 by lia.
  replace (max_y g + 1 - max_y g) with 1 by lia.
  replace (min_x g + 1 - min_x g) with 1 by lia.
  replace (min_y g + 1 - min_y g) with 1 by lia.
  replace (max_x g + 1 - min_x g) with (max_x g + 1 + - min_x g) by lia.
  replace (max_y g + 1 - min_y g) with (max_y g + 1 + - min_y g) by lia.
  rewrite !inject_Z_plus, !inject_Z_opp.
  change (inject_Z 1) with 1%Q. change (inject_Z 0) with 0%Q.
  repeat split; field; lra.
Qed.

Lemma tile_grid_box_spans_its_tiles_witness :
  let total := {| minLongitude := -180; minLatitude := -90;
                  maxLongitude := 180; maxLatitude := 90 |}%Q in
  let tileMatrix := {| zoom_level := 2; matrix_width := 8;
                       matrix_height := 4; tile_width := 256;
                       tile_height := 256 |} in
  let g := {| min_x := 2; max_x := 5; min_y := 1; max_y := 2 |} in
  let B := Lower.getTileGridBoundingBox total 8 4 g in
  1 <= matrix_width tileMatrix /\ 1 <= matrix_height tileMatrix /\
  same_bounds B {| minLongitude := -90; minLatitude := -45;
                   maxLongitude := 90; maxLatitude := 45 |}%Q /\
  (maxLongitude B
   == maxLongitude (Lower.getTileBoundingBox total tileMatrix 5 2))%Q /\
  same_bounds
    (Lower.getTileGridBoundingBox total 8 4
       {| min_x := 0; max_x := 8 - 1; min_y := 0; max_y := 4 - 1 |})
    total.
Proof.
  intros total tileMatrix g B.
  assert (Hw : 1 <= matrix_width tileMatrix) by discriminate.
  assert (Hh : 1 <= matrix_height tileMatrix) by discriminate.
  destruct (tile_grid_box_spans_its_tiles total tileMatrix g Hw Hh)
    as ((_ & _ & Hlast & _) & _ & Hall).
  refine (conj Hw (conj Hh (conj _ (conj Hlast Hall)))).
  repeat split; reflexivity.
Defined.

(** ** The degree tiling of WGS84 *)

(** One axis of a tiling of [-half, half] by [n] tiles of size [ts]: the
    index that the floor and the ceiling of the clipped bounds of tile [k]
    give back, counted from the low end and from the high end. *)
Lemma tile_index_of_own_bounds (half ts : Q) (n k : Z) :
  (0 < half)%Q -> (0 < ts)%Q -> (inject_Z n * ts == 2 * half)%Q ->
  0 <= k < n ->
  (inject_Z (Qfloor ((Qmax (- half) (-1 * half + inject_Z k * ts) + half)
                     / ts)) == inject_Z k /\
   Qmax 0 (inject_Z (Qceiling
                       ((Qmin half (-1 * half + inject_Z (k + 1) * ts) + half)
                        / ts)) - 1) == inject_Z k /\
   inject_Z (Qfloor ((half - Qmin half (half - inject_Z k * ts)) / ts))
   == inject_Z k /\
   Qmax 0 (inject_Z (Qceiling
                       ((half - Qmax (- half) (half - inject_Z (k + 1) * ts))
                        / ts)) - 1) == inject_Z k)%Q.
Proof.
  intros Hh Hts Hn Hk.
  assert (Hk0 : (0 <= inject_Z k * ts)%Q)
    by (apply Qmult_le_0_compat; [apply inject_Z_0_le; lia | lra]).
  assert (Hk1 : (inject_Z (k + 1) * ts <= 2 * half)%Q).
  { rewrite <- Hn. apply Qmult_le_compat_r; [| lra]. rewrite <- Zle_Qle. lia. }
  assert (E1 : ((Qmax (- half) (-1 * half + inject_Z k * ts) + half) / ts
                == inject_Z k)%Q).
  { rewrite Q.max_r by lra. field. lra. }
  assert (E2 : ((Qmin half (-1 * half + inject_Z (k + 1) * ts) + half) / ts
                == inject_Z (k + 1))%Q).
  { rewrite Q.min_r by lra. field. lra. }
  assert (E3 : ((half - Qmin half (half - inject_Z k * ts)) / ts
                == inject_Z k)%Q).
  { rewrite Q.min_r by lra. field. lra. }
  assert (E4 : ((half - Qmax (- half) (half - inject_Z (k + 1) * ts)) / ts
                == inject_Z (k + 1))%Q).
  { rewrite Q.max_r by lra. field. lra. }
  rewrite (Qfloor_comp _ _ E1), (Qceiling_comp _ _ E2),
    (Qfloor_comp _ _ E3), (Qceiling_comp _ _ E4).
  rewrite !Qfloor_Z, !Qceiling_Z.
  assert (Ik : (inject_Z (k + 1) - 1 == inject_Z k)%Q)
    by (rewrite inject_Z_succ; ring).
  pose proof (inject_Z_0_le k ltac:(lia)) as Pk.
  repeat split; try reflexivity; rewrite Ik; apply Q.max_r; exact Pk.
Qed.

(** The box that [getWGS84BoundingBoxFromXYZ] (lines 1662 to 1672) gives to
    a tile of the degree tiling, and the tile indices that [wgs84TileBox]
    (lines 1532 to 1552) reads back from that box at the same zoom level:
    the tile itself, for every zoom level from 0 on and every tile of the
    [2 * 2^zoom] columns and [2^zoom] rows.  The box of a tile is the
    [2^zoom]-th part of the half world width wide and the [2^zoom]-th part
    of the world height high. *)
Theorem wgs84_tile_round_trip (dc : DegreeConstants Q) (x y zoom : Z) :
  (0 < WGS84_HALF_WORLD_LON_WIDTH dc)%Q ->
  (0 < WGS84_HALF_WORLD_LAT_HEIGHT dc)%Q ->
  0 <= zoom -> 0 <= x < 2 * 2 ^ zoom -> 0 <= y < 2 ^ zoom ->
  let box := Lower.getWGS84BoundingBoxFromXYZ dc x y zoom in
  let tiles := Lower.wgs84TileBox dc box zoom in
  (minLongitude tiles == inject_Z x /\ maxLongitude tiles == inject_Z x /\
   minLatitude tiles == inject_Z y /\ maxLatitude tiles == inject_Z y)%Q /\
  (maxLongitude box - minLongitude box
   == WGS84_HALF_WORLD_LON_WIDTH dc / inject_Z (2 ^ zoom) /\
   maxLatitude box - minLatitude box
   == 2 * WGS84_HALF_WORLD_LAT_HEIGHT dc / inject_Z (2 ^ zoom))%Q.
Proof.
  intros Hlon Hlat Hz Hx Hy. cbv zeta. split; cycle 1.
  { pose proof (Math_pow2_nonneg zoom Hz) as Ep.
    assert (Pn : 1 <= 2 ^ zoom)
      by (pose proof (Z.pow_pos_nonneg 2 zoom); lia).
    pose proof (inject_Z_pos _ Pn) as Pq.
    unfold Lower.getWGS84BoundingBoxFromXYZ,
      Lower.tileSizeLonPerWGS84Side, Lower.tileSizeLatPerWGS84Side,
      Lower.tilesPerWGS84LonSide, Lower.tilesPerWGS84LatSide,
      Lower.tilesPerSide.
    cbv zeta.
    cbn [minLongitude maxLongitude minLatitude maxLatitude].
    rewrite !inject_Z_succ, Ep.
    split; field; lra. }
  pose proof (Math_pow2_nonneg zoom Hz) as Ep.
  assert (Pn : 1 <= 2 ^ zoom) by (pose proof (Z.pow_pos_nonneg 2 zoom); lia).
  pose proof (inject_Z_pos _ Pn) as Pq.
  unfold Lower.wgs84TileBox, Lower.getWGS84BoundingBoxFromXYZ,
    Lower.tileSizeLonPerWGS84Side, Lower.tileSizeLatPerWGS84Side,
    Lower.tilesPerWGS84LonSide, Lower.tilesPerWGS84LatSide, Lower.tilesPerSide.
  cbv zeta.
  cbn [minLongitude maxLongitude minLatitude maxLatitude
       Math_floor Math_ceil Number_Q].
  set (halfLon := WGS84_HALF_WORLD_LON_WIDTH dc) in *.
  set (halfLat := WGS84_HALF_WORLD_LAT_HEIGHT dc) in *.
  set (tsLon := (2 * halfLon / (2 * Math_pow2 zoom))%Q).
  set (tsLat := (2 * halfLat / Math_pow2 zoom)%Q).
  assert (TLon : (0 < tsLon)%Q).
  { unfold tsLon. apply Qlt_shift_div_l; rewrite Ep; lra. }
  assert (TLat : (0 < tsLat)%Q).
  { unfold tsLat. apply Qlt_shift_div_l; rewrite Ep; lra. }
  assert (NLon : (inject_Z (2 * 2 ^ zoom) * tsLon == 2 * halfLon)%Q).
  { unfold tsLon. rewrite inject_Z_mult, Ep. change (inject_Z 2) with 2%Q.
    field. lra. }
  assert (NLat : (inject_Z (2 ^ zoom) * tsLat == 2 * halfLat)%Q).
  { unfold tsLat. rewrite Ep. field. lra. }
  destruct (tile_index_of_own_bounds halfLon tsLon _ x Hlon TLon NLon Hx)
    as (X1 & X2 & _ & _).
  destruct (tile_index_of_own_bounds halfLat tsLat _ y Hlat TLat NLat Hy)
    as (_ & _ & Y1 & Y2).
  repeat split; assumption.
Qed.

Lemma wgs84_tile_round_trip_witness :
  let dc := projections_js_degrees in
  let box := Lower.getWGS84BoundingBoxFromXYZ dc 5 2 2 in
  let tiles := Lower.wgs84TileBox dc box 2 in
  (0 < WGS84_HALF_WORLD_LON_WIDTH dc)%Q /\
  (0 < WGS84_HALF_WORLD_LAT_HEIGHT dc)%Q /\
  0 <= 2 /\ 0 <= 5 < 2 * 2 ^ 2 /\ 0 <= 2 < 2 ^ 2 /\
  same_bounds box {| minLongitude := 45; minLatitude := -45;
                     maxLongitude := 90; maxLatitude := 0 |}%Q /\
  (minLongitude tiles == inject_Z 5 /\ maxLongitude tiles == inject_Z 5 /\
   minLatitude tiles == inject_Z 2 /\ maxLatitude tiles == inject_Z 2)%Q.
Proof.
  intros dc box tiles.
  assert (Hlon : (0 < WGS84_HALF_WORLD_LON_WIDTH dc)%Q) by reflexivity.
  assert (Hlat : (0 < WGS84_HALF_WORLD_LAT_HEIGHT dc)%Q) by reflexivity.
  assert (Hz : 0 <= 2) by discriminate.
  assert (Hx : 0 <= 5 < 2 * 2 ^ 2) by (split; [discriminate | reflexivity]).
  assert (Hy : 0 <= 2 < 2 ^ 2) by (split; [discriminate | reflexivity]).
  refine (conj Hlon (conj Hlat (conj Hz (conj Hx (conj Hy (conj _ _)))))).
  - repeat split; reflexivity.
  - exact (proj1 (wgs84_tile_round_trip dc 5 2 2 Hlon Hlat Hz Hx Hy)).
Defined.

(** ** The square world tiling, upper part of the class *)

Lemma roundZ_below_integer (k : Z) (p : Q) :
  (0 <= p)%Q -> (p <= 1 # 2)%Q -> roundZ (inject_Z k - p) = k.
Proof.
  intros H0 H1. unfold roundZ.
  destruct (Qfloor_bounds (inject_Z k - p + (1 # 2)) k (k + 1)) as [B1 B2].
  - lra.
  - rewrite inject_Z_succ. lra.
  - lia.
Qed.

Lemma roundZ_comp (x y : Q) : (x == y)%Q -> roundZ x = roundZ y.
Proof.
  intros E. unfold roundZ. apply Qfloor_comp. rewrite E. reflexivity.
Qed.

Lemma tileSize_pos (pc : ProjectionConstants Q) (zoom : Z) :
  (0 < WEB_MERCATOR_HALF_WORLD_WIDTH pc)%Q -> 0 <= zoom ->
  (0 < Upper.tileSizeWithZoom pc zoom)%Q /\
  (Upper.tileSizeWithZoom pc zoom
   == 2 * WEB_MERCATOR_HALF_WORLD_WIDTH pc / inject_Z (2 ^ zoom))%Q.
Proof.
  intros Hh Hz. unfold Upper.tileSizeWithZoom, Upper.tileSize. cbv zeta.
  destruct (tilesPerSide_pow2 zoom Hz) as [En _]. rewrite En.
  assert (Pn : 1 <= 2 ^ zoom) by (pose proof (Z.pow_pos_nonneg 2 zoom); lia).
  pose proof (inject_Z_pos _ Pn) as Pq.
  split; [apply Qlt_shift_div_l; lra | reflexivity].
Qed.

(** [getTileGridFromBoundingBox] (lines 551 to 567) rounds each bound of a
    box to the nearest tile index.  On the box that
    [getWebMercatorBoundingBoxFromTileGrid] (lines 263 to 274) gives to a
    tile grid, at the same zoom level, it answers the first column and the
    first row of the grid, and for the last column and the last row one
    more than the grid has, up to the last tile of the world: the grid of
    the box of a single tile is that tile and its neighbours to the right
    and below. *)
Theorem getTileGridFromBoundingBox_of_grid_box
    (pc : ProjectionConstants Q) (g : TileGrid) (zoom : Z) :
  (0 < WEB_MERCATOR_HALF_WORLD_WIDTH pc)%Q ->
  (0 <= WEB_MERCATOR_PRECISION pc)%Q ->
  (WEB_MERCATOR_PRECISION pc <= 1 # 2)%Q ->
  0 <= zoom ->
  Upper.getTileGridFromBoundingBox pc
    (Upper.getWebMercatorBoundingBoxFromTileGrid pc g zoom) zoom
  = {| min_x := min_x g; min_y := min_y g;
       max_x := Z.min (max_x g + 1) (2 ^ zoom - 1);
       max_y := Z.min (max_y g + 1) (2 ^ zoom - 1) |}.
Proof.
  intros Hh Hp0 Hp1 Hz.
  destruct (tileSize_pos pc zoom Hh Hz) as [Hts _].
  destruct (tilesPerSide_pow2 zoom Hz) as [En _].
  unfold Upper.getTileGridFromBoundingBox,
    Upper.getWebMercatorBoundingBoxFromTileGrid.
  cbv zeta. cbn [minLongitude maxLongitude minLatitude maxLatitude].
  change (Upper.tileSize pc (Upper.tilesPerSide zoom))
    with (Upper.tileSizeWithZoom pc zoom).
  rewrite En.
  set (half := WEB_MERCATOR_HALF_WORLD_WIDTH pc) in *.
  set (ts := Upper.tileSizeWithZoom pc zoom) in *.
  set (p := WEB_MERCATOR_PRECISION pc) in *.
  assert (E1 : ((-1 * half + inject_Z (min_x g) * ts + half) / ts
                == inject_Z (min_x g))%Q) by (field; lra).
  assert (E2 : ((-1 * half + inject_Z (max_x g + 1) * ts + half) / ts - p
                == inject_Z (max_x g + 1) - p)%Q) by (field; lra).
  assert (E3 : ((half - inject_Z (min_y g) * ts - half) * -1 / ts
                == inject_Z (min_y g))%Q) by (field; lra).
  assert (E4 : ((half - inject_Z (max_y g + 1) * ts - half) * -1 / ts - p
                == inject_Z (max_y g + 1) - p)%Q) by (field; lra).
  rewrite (roundZ_comp _ _ E1), (roundZ_comp _ _ E2),
    (roundZ_comp _ _ E3), (roundZ_comp _ _ E4).
  rewrite !roundZ_inject_Z, !roundZ_below_integer by assumption.
  reflexivity.
Qed.

Lemma getTileGridFromBoundingBox_of_grid_box_witness :
  (0 < WEB_MERCATOR_HALF_WORLD_WIDTH projections_js)%Q /\
  (0 <= WEB_MERCATOR_PRECISION projections_js)%Q /\
  (WEB_MERCATOR_PRECISION projections_js <= 1 # 2)%Q /\
  0 <= 3 /\
  Upper.getTileGridFromBoundingBox projections_js
    (Upper.getWebMercatorBoundingBox projections_js 2 7 3) 3
  = {| min_x := 2; min_y := 7; max_x := 3; max_y := 7 |}.
Proof.
  assert (Hh : (0 < WEB_MERCATOR_HALF_WORLD_WIDTH projections_js)%Q)
    by reflexivity.
  assert (Hp0 : (0 <= WEB_MERCATOR_PRECISION projections_js)%Q)
    by discriminate.
  assert (Hp1 : (WEB_MERCATOR_PRECISION projections_js <= 1 # 2)%Q)
    by discriminate.
  assert (Hz : 0 <= 3) by discriminate.
  refine (conj Hh (conj Hp0 (conj Hp1 (conj Hz _)))).
  exact (getTileGridFromBoundingBox_of_grid_box projections_js
           (mkTileGrid 2 7 2 7) 3 Hh Hp0 Hp1 Hz).
Defined.

(** The boxes that [getWebMercatorBoundingBox] (lines 249 to 251) gives to
    the tiles of a zoom level, from 0 on, divide the square world into
    [2^zoom] columns and as many rows: every box is one tile size wide and
    high, a tile ends where the next one begins, to the right and below,
    and the first and the last tile of a row and of a column reach the
    edges of the world.  The method neither wraps the column nor clips the
    box: the box of column [x + 2^zoom] lies one world width to the right
    of the box of column [x]. *)
Theorem getWebMercatorBoundingBox_tiles_the_world
    (pc : ProjectionConstants Q) (x y zoom : Z) :
  (0 < WEB_MERCATOR_HALF_WORLD_WIDTH pc)%Q -> 0 <= zoom ->
  let half := WEB_MERCATOR_HALF_WORLD_WIDTH pc in
  let n := 2 ^ zoom in
  let box := Upper.getWebMercatorBoundingBox pc in
  (maxLongitude (box x y zoom) - minLongitude (box x y zoom)
   == 2 * half / inject_Z n /\
   maxLatitude (box x y zoom) - minLatitude (box x y zoom)
   == 2 * half / inject_Z n /\
   maxLongitude (box x y zoom) == minLongitude (box (x + 1)%Z y zoom) /\
   minLatitude (box x y zoom) == maxLatitude (box x (y + 1)%Z zoom) /\
   minLongitude (box 0%Z y zoom) == - half /\
   maxLongitude (box (n - 1)%Z y zoom) == half /\
   maxLatitude (box x 0%Z zoom) == half /\
   minLatitude (box x (n - 1)%Z zoom) == - half /\
   minLongitude (box (x + n)%Z y zoom)
   == minLongitude (box x y zoom) + 2 * half /\
   maxLongitude (box (x + n)%Z y zoom)
   == maxLongitude (box x y zoom) + 2 * half)%Q.
Proof.
  intros Hh Hz. cbv zeta.
  destruct (tileSize_pos pc zoom Hh Hz) as [Hts Ets].
  assert (Pn : 1 <= 2 ^ zoom) by (pose proof (Z.pow_pos_nonneg 2 zoom); lia).
  pose proof (inject_Z_pos _ Pn) as Pq.
  unfold Upper.getWebMercatorBoundingBox,
    Upper.getWebMercatorBoundingBoxFromTileGrid.
  cbv zeta.
  cbn [minLongitude maxLongitude minLatitude maxLatitude
       min_x max_x min_y max_y].
  set (half := WEB_MERCATOR_HALF_WORLD_WIDTH pc) in *.
  set (ts := Upper.tileSizeWithZoom pc zoom) in *.
  replace (2 ^ zoom - 1 + 1) with (2 ^ zoom) by lia.
  replace (x + 2 ^ zoom + 1) with (x + 1 + 2 ^ zoom) by lia.
  rewrite !inject_Z_plus.
  change (inject_Z 1) with 1%Q. change (inject_Z 0) with 0%Q.
  repeat split; rewrite Ets; field; lra.
Qed.

Lemma getWebMercatorBoundingBox_tiles_the_world_witness :
  let pc := {| WEB_MERCATOR_HALF_WORLD_WIDTH := 1024;
               WEB_MERCATOR_PRECISION := 0 |}%Q in
  (0 < WEB_MERCATOR_HALF_WORLD_WIDTH pc)%Q /\ 0 <= 3 /\
  same_bounds (Upper.getWebMercatorBoundingBox pc 5 2 3)
    {| minLongitude := 256; minLatitude := 256;
       maxLongitude := 512; maxLatitude := 512 |}%Q /\
  (maxLongitude (Upper.getWebMercatorBoundingBox pc 5 2 3)
   == minLongitude (Upper.getWebMercatorBoundingBox pc (5 + 1)%Z 2 3))%Q /\
  (minLongitude (Upper.getWebMercatorBoundingBox pc (5 + 2 ^ 3)%Z 2 3)
   == minLongitude (Upper.getWebMercatorBoundingBox pc 5 2 3) + 2 * 1024)%Q.
Proof.
  intros pc.
  assert (Hh : (0 < WEB_MERCATOR_HALF_WORLD_WIDTH pc)%Q) by reflexivity.
  assert (Hz : 0 <= 3) by discriminate.
  destruct (getWebMercatorBoundingBox_tiles_the_world pc 5 2 3 Hh Hz)
    as (_ & _ & Hnext & _ & _ & _ & _ & _ & Hthere & _).
  refine (conj Hh (conj Hz (conj _ (conj Hnext Hthere)))).
  repeat split; reflexivity.
Defined.

(** ** Tile size, tolerance distance and the opposite row *)

(** From zoom level 0 on, [tileSizeWithZoom] (lines 762 to 766) is the
    width of the world divided among [2^zoom] tiles and halves with each
    level; its second declaration (lines 2020 to 2023) agrees with it; and
    [toleranceDistance] (lines 796 to 798), which divides the tile size by
    the larger of the two pixel lengths, is the smaller of the tolerances
    of the two axes. *)
Theorem tile_size_by_zoom (pc : ProjectionConstants Q) (zoom : Z)
    (pixelWidth pixelHeight : Q) :
  (0 < WEB_MERCATOR_HALF_WORLD_WIDTH pc)%Q -> 0 <= zoom ->
  (0 < pixelWidth)%Q -> (0 < pixelHeight)%Q ->
  let tileSize := Upper.tileSizeWithZoom pc zoom in
  (tileSize * inject_Z (2 ^ zoom) == 2 * WEB_MERCATOR_HALF_WORLD_WIDTH pc /\
   Upper.tileSizeWithZoom pc (zoom + 1) == tileSize / 2 /\
   Lower.tileSizeWithZoom pc zoom == tileSize /\
   Upper.toleranceDistance pc zoom pixelWidth pixelHeight
   == Qmin (Upper.toleranceDistanceForLength pc zoom pixelWidth)
           (Upper.toleranceDistanceForLength pc zoom pixelHeight) /\
   Lower.toleranceDistanceWidthAndHeight pc zoom pixelWidth pixelHeight
   == Upper.toleranceDistance pc zoom pixelWidth pixelHeight)%Q.
Proof.
  intros Hh Hz Hpw Hph. cbv zeta.
  destruct (tileSize_pos pc zoom Hh Hz) as [Hts Ets].
  destruct (tileSize_pos pc (zoom + 1) Hh ltac:(lia)) as [_ Ets1].
  assert (Pn : 1 <= 2 ^ zoom) by (pose proof (Z.pow_pos_nonneg 2 zoom); lia).
  pose proof (inject_Z_pos _ Pn) as Pq.
  assert (EL : (Lower.tileSizeWithZoom pc zoom
                == Upper.tileSizeWithZoom pc zoom)%Q).
  { rewrite Ets. unfold Lower.tileSizeWithZoom, Lower.tileSize,
      Lower.tilesPerSide.
    cbv zeta. rewrite (Math_pow2_nonneg zoom Hz). reflexivity. }
  assert (ET : (Upper.toleranceDistance pc zoom pixelWidth pixelHeight
                == Qmin (Upper.toleranceDistanceForLength pc zoom pixelWidth)
                     (Upper.toleranceDistanceForLength pc zoom pixelHeight))%Q).
  { unfold Upper.toleranceDistance, Upper.toleranceDistanceForLength.
    cbv zeta. set (ts := Upper.tileSizeWithZoom pc zoom) in *.
    destruct (Qlt_le_dec pixelHeight pixelWidth) as [Hgt | Hle].
    - rewrite (Q.max_l pixelWidth pixelHeight) by lra.
      rewrite Q.min_l; [reflexivity |].
      apply Qle_shift_div_l; [lra |].
      assert (E : (ts / pixelWidth * pixelHeight
                   == ts * (pixelHeight / pixelWidth))%Q) by (field; lra).
      rewrite E.
      assert (R : (pixelHeight / pixelWidth <= 1)%Q)
        by (apply Qle_shift_div_r; lra).
      nra.
    - rewrite (Q.max_r pixelWidth pixelHeight) by lra.
      rewrite Q.min_r; [reflexivity |].
      apply Qle_shift_div_l; [lra |].
      assert (E : (ts / pixelHeight * pixelWidth
                   == ts * (pixelWidth / pixelHeight))%Q) by (field; lra).
      rewrite E.
      assert (R : (pixelWidth / pixelHeight <= 1)%Q)
        by (apply Qle_shift_div_r; lra).
      nra. }
  repeat split.
  - rewrite Ets. field. lra.
  - rewrite Ets1, Ets. rewrite Z.pow_add_r by lia.
    rewrite inject_Z_mult. change (inject_Z (2 ^ 1)) with 2%Q. field. lra.
  - exact EL.
  - exact ET.
  - unfold Lower.toleranceDistanceWidthAndHeight, Lower.toleranceDistance,
      Upper.toleranceDistance, Upper.toleranceDistanceForLength.
    cbv zeta. rewrite EL. reflexivity.
Qed.

Lemma tile_size_by_zoom_witness :
  let pc := {| WEB_MERCATOR_HALF_WORLD_WIDTH := 1024;
               WEB_MERCATOR_PRECISION := 0 |}%Q in
  (0 < WEB_MERCATOR_HALF_WORLD_WIDTH pc)%Q /\ 0 <= 3 /\
  (0 < 256)%Q /\ (0 < 512)%Q /\
  (Upper.tileSizeWithZoom pc 3 == 256 /\
   Upper.tileSizeWithZoom pc (3 + 1) == Upper.tileSizeWithZoom pc 3 / 2 /\
   Upper.toleranceDistance pc 3 256 512 == 1 # 2)%Q.
Proof.
  intros pc.
  assert (Hh : (0 < WEB_MERCATOR_HALF_WORLD_WIDTH pc)%Q) by reflexivity.
  assert (Hz : 0 <= 3) by discriminate.
  assert (Hpw : (0 < 256)%Q) by reflexivity.
  assert (Hph : (0 < 512)%Q) by reflexivity.
  destruct (tile_size_by_zoom pc 3 256 512 Hh Hz Hpw Hph)
    as (_ & Hhalf & _ & _ & _).
  refine (conj Hh (conj Hz (conj Hpw (conj Hph (conj _ (conj Hhalf _)))))).
  - reflexivity.
  - reflexivity.
Defined.

(** [getYAsOppositeTileFormat] (lines 809 to 813) turns a row counted from
    the top into the row counted from the bottom and back.  For a zoom level
    from 0 to 53 and a row of that level, the opposite row is
    [2^zoom - 1 - y], a row of the level again, and its opposite is the row
    the call started from.  Every number on the way is an integer between 0
    and [2^53], which binary64 holds exactly. *)
Theorem getYAsOppositeTileFormat_involution (zoom y : Z) :
  0 <= zoom <= 53 -> 0 <= y < 2 ^ zoom ->
  let opposite := Upper.getYAsOppositeTileFormat zoom y in
  opposite = 2 ^ zoom - 1 - y /\
  0 <= opposite < 2 ^ zoom /\
  Upper.getYAsOppositeTileFormat zoom opposite = y /\
  0 <= Upper.tilesPerSide zoom - y <= 2 ^ 53.
Proof.
  intros Hz Hy. cbv zeta. unfold Upper.getYAsOppositeTileFormat. cbv zeta.
  destruct (tilesPerSide_pow2 zoom ltac:(lia)) as [En _]. rewrite En.
  assert (Hpow : 2 ^ zoom <= 2 ^ 53) by (apply Z.pow_le_mono_r; lia).
  lia.
Qed.

Lemma getYAsOppositeTileFormat_involution_witness :
  0 <= 4 <= 53 /\ 0 <= 5 < 2 ^ 4 /\
  Upper.getYAsOppositeTileFormat 4 5 = 10 /\
  Upper.getYAsOppositeTileFormat 4 (Upper.getYAsOppositeTileFormat 4 5) = 5.
Proof.
  assert (Hz : 0 <= 4 <= 53) by (split; discriminate).
  assert (Hy : 0 <= 5 < 2 ^ 4) by (split; [discriminate | reflexivity]).
  destruct (getYAsOppositeTileFormat_involution 4 5 Hz Hy)
    as (_ & _ & Hback & _).
  refine (conj Hz (conj Hy (conj _ Hback))). reflexivity.
Defined.

(** ** Bounding a box by the limits of web mercator *)

Section BoundFacts.
Import Store.

Implicit Types (s : gmap positive (BoundingBox Q)) (r : positive).

Lemma lookup_insert_same s r (v : BoundingBox Q) : <[r := v]> s !! r = Some v.
Proof. apply lookup_insert_eq. Qed.

(** What [boundWebMercatorBoundingBox] leaves behind: the store with one
    more object, the copy with its four bounds reset. *)
Lemma boundWebMercatorBoundingBox_run (pc : ProjectionConstants Q) s r B :
  s !! r = Some B ->
  let half := WEB_MERCATOR_HALF_WORLD_WIDTH pc in
  boundWebMercatorBoundingBox pc r s
  = Some (fresh (dom s),
          <[fresh (dom s) :=
              {| minLongitude := Qmax (minLongitude B) (-1 * half);
                 minLatitude := Qmax (minLatitude B) (-1 * half);
                 maxLongitude := Qmin (maxLongitude B) half;
                 maxLatitude := Qmin (maxLatitude B) half |}]> s).
Proof.
  intros Hr half.
  unfold boundWebMercatorBoundingBox, copy, new, getMinLongitude,
    getMaxLongitude, getMinLatitude, getMaxLatitude, setMinLongitude,
    setMaxLongitude, setMinLatitude, setMaxLatitude, write, bind, ret.
  cbv zeta. rewrite (read_held _ _ _ Hr).
  set (c := fresh (dom s)). unfold read.
  repeat (rewrite lookup_insert_same;
          cbn [minLongitude maxLongitude minLatitude maxLatitude]).
  rewrite !insert_insert_eq. reflexivity.
Qed.

(** [boundWebMercatorBoundingBox] (lines 1099 to 1110) answers a new box
    and leaves the box it is given, and every other object, as they were.
    The new box is the part of the given box inside the square world: a
    point lies in it exactly when it lies in the given box and in the
    square from [-half] to [half] on both axes. *)
Theorem boundWebMercatorBoundingBox_clips_a_copy
    (pc : ProjectionConstants Q) s r (B : BoundingBox Q) :
  s !! r = Some B ->
  let half := WEB_MERCATOR_HALF_WORLD_WIDTH pc in
  let world := {| minLongitude := (- half)%Q; minLatitude := (- half)%Q;
                  maxLongitude := half; maxLatitude := half |} in
  exists bounded s' B',
    boundWebMercatorBoundingBox pc r s = Some (bounded, s') /\
    s !! bounded = None /\ s' !! bounded = Some B' /\
    (forall k v, s !! k = Some v -> s' !! k = Some v) /\
    (forall lon lat : Q,
        contains B' lon lat <-> contains B lon lat /\ contains world lon lat).
Proof.
  intros Hr half world.
  eexists _, _, _. split; [apply (boundWebMercatorBoundingBox_run pc s r B Hr) |].
  split; [| split; [| split]].
  - apply not_elem_of_dom. apply is_fresh.
  - apply lookup_insert_same.
  - intros k v Hk. apply held_after_new. exact Hk.
  - intros lon lat. unfold contains, world.
    cbn [minLongitude maxLongitude minLatitude maxLatitude].
    fold half.
    rewrite !Q.max_lub_iff, !Q.min_glb_iff.
    assert (E : (-1 * half == - half)%Q) by ring.
    rewrite E. tauto.
Qed.

Lemma boundWebMercatorBoundingBox_clips_a_copy_witness :
  let pc := {| WEB_MERCATOR_HALF_WORLD_WIDTH := 100;
               WEB_MERCATOR_PRECISION := 0 |}%Q in
  let B := {| minLongitude := -150; minLatitude := 20;
              maxLongitude := 30; maxLatitude := 170 |}%Q in
  let s : gmap positive (BoundingBox Q) := {[ 1%positive := B ]} in
  s !! 1%positive = Some B /\
  exists bounded s' B',
    boundWebMercatorBoundingBox pc 1%positive s = Some (bounded, s') /\
    s !! bounded = None /\ s' !! bounded = Some B' /\
    s' !! 1%positive = Some B.
Proof.
  intros pc B s.
  assert (Hr : s !! 1%positive = Some B) by reflexivity.
  destruct (boundWebMercatorBoundingBox_clips_a_copy pc s 1%positive B Hr)
    as (bounded & s' & B' & Hrun & Hfresh & Hnew & Hframe & _).
  refine (conj Hr _).
  exists bounded, s', B'. repeat split; try assumption.
  apply Hframe. exact Hr.
Defined.

(** What [boundDegreesBoundingBoxWithWebMercatorLimits] leaves behind:
    the store with one more object, the copy after the four tests. *)
Lemma boundDegreesBoundingBoxWithWebMercatorLimits_run
    (dc : DegreeConstants Q) s r B :
  s !! r = Some B ->
  let lo := WEB_MERCATOR_MIN_LAT_RANGE dc in
  let hi := WEB_MERCATOR_MAX_LAT_RANGE dc in
  let minLat1 := if lt (minLatitude B) lo then lo else minLatitude B in
  let maxLat1 := if lt (maxLatitude B) lo then lo else maxLatitude B in
  boundDegreesBoundingBoxWithWebMercatorLimits dc r s
  = Some (fresh (dom s),
          <[fresh (dom s) :=
              {| minLongitude := minLongitude B;
                 minLatitude := if gt minLat1 hi then hi else minLat1;
                 maxLongitude := maxLongitude B;
                 maxLatitude := if gt maxLat1 hi then hi else maxLat1 |}]> s).
Proof.
  intros Hr lo hi minLat1 maxLat1.
  unfold boundDegreesBoundingBoxWithWebMercatorLimits, copy, new,
    getMinLatitude, getMaxLatitude, setMinLatitude, setMaxLatitude, write,
    bind, ret.
  rewrite (read_held _ _ _ Hr).
  set (c := fresh (dom s)). unfold read. fold lo hi.
  subst minLat1 maxLat1. destruct B as [x0 y0 x1 y1].
  cbn [minLongitude maxLongitude minLatitude maxLatitude].
  destruct (lt y0 lo) eqn:E1; destruct (lt y1 lo) eqn:E2;
    destruct (gt lo hi) eqn:G0; destruct (gt y0 hi) eqn:G1;
    destruct (gt y1 hi) eqn:G2;
    repeat (rewrite ?lookup_insert_same, ?E1, ?E2, ?G0, ?G1, ?G2;
            cbn [minLongitude maxLongitude minLatitude maxLatitude]);
    rewrite ?insert_insert_eq; reflexivity.
Qed.

(** [boundDegreesBoundingBoxWithWebMercatorLimits] (lines 1132 to 1147)
    answers a new box and leaves the box it is given, and every other
    object, as they were.  The new box has the longitudes of the given one;
    each of its two latitudes is inside the latitude range of web mercator,
    is the given latitude when that one is inside the range, and the two
    keep their order. *)
Theorem boundDegreesBoundingBoxWithWebMercatorLimits_clamps_a_copy
    (dc : DegreeConstants Q) s r (B : BoundingBox Q) :
  (WEB_MERCATOR_MIN_LAT_RANGE dc <= WEB_MERCATOR_MAX_LAT_RANGE dc)%Q ->
  s !! r = Some B ->
  let lo := WEB_MERCATOR_MIN_LAT_RANGE dc in
  let hi := WEB_MERCATOR_MAX_LAT_RANGE dc in
  exists bounded s' B',
    boundWgs84BoundingBoxWithWebMercatorLimits dc r s = Some (bounded, s') /\
    s !! bounded = None /\ s' !! bounded = Some B' /\
    (forall k v, s !! k = Some v -> s' !! k = Some v) /\
    minLongitude B' = minLongitude B /\ maxLongitude B' = maxLongitude B /\
    (lo <= minLatitude B' <= hi)%Q /\ (lo <= maxLatitude B' <= hi)%Q /\
    ((lo <= minLatitude B <= hi)%Q -> minLatitude B' = minLatitude B) /\
    ((lo <= maxLatitude B <= hi)%Q -> maxLatitude B' = maxLatitude B) /\
    ((minLatitude B <= maxLatitude B)%Q ->
     (minLatitude B' <= maxLatitude B')%Q).
Proof.
  intros Hrange Hr lo hi.
  eexists _, _, _. split.
  { unfold boundWgs84BoundingBoxWithWebMercatorLimits.
    apply (boundDegreesBoundingBoxWithWebMercatorLimits_run dc s r B Hr). }
  split; [| split; [| split]].
  - apply not_elem_of_dom. apply is_fresh.
  - apply lookup_insert_same.
  - intros k v Hk. apply held_after_new. exact Hk.
  - cbv zeta. cbn [minLongitude maxLongitude minLatitude maxLatitude].
    fold lo hi in Hrange |- *. unfold gt.
    destruct (lt (minLatitude B) lo) eqn:E1;
      destruct (lt (maxLatitude B) lo) eqn:E2;
      destruct (lt hi lo) eqn:G0;
      destruct (lt hi (minLatitude B)) eqn:G1;
      destruct (lt hi (maxLatitude B)) eqn:G2;
      rewrite ?lt_true_iff, ?lt_false_iff in *;
      repeat split; try reflexivity; try lra;
      intros; exfalso; lra.
Qed.

Lemma boundDegreesBoundingBoxWithWebMercatorLimits_clamps_a_copy_witness :
  let dc := projections_js_degrees in
  let B := {| minLongitude := -200; minLatitude := -90;
              maxLongitude := 200; maxLatitude := 45 |}%Q in
  let s : gmap positive (BoundingBox Q) := {[ 1%positive := B ]} in
  (WEB_MERCATOR_MIN_LAT_RANGE dc <= WEB_MERCATOR_MAX_LAT_RANGE dc)%Q /\
  s !! 1%positive = Some B /\
  exists bounded s' B',
    boundWgs84BoundingBoxWithWebMercatorLimits dc 1%positive s
    = Some (bounded, s') /\
    s' !! bounded = Some B' /\ s' !! 1%positive = Some B /\
    minLongitude B' = (-200)%Q /\ maxLatitude B' = 45%Q /\
    (WEB_MERCATOR_MIN_LAT_RANGE dc <= minLatitude B')%Q.
Proof.
  intros dc B s.
  assert (Hrange :
    (WEB_MERCATOR_MIN_LAT_RANGE dc <= WEB_MERCATOR_MAX_LAT_RANGE dc)%Q)
    by discriminate.
  assert (Hr : s !! 1%positive = Some B) by reflexivity.
  destruct (boundDegreesBoundingBoxWithWebMercatorLimits_clamps_a_copy
              dc s 1%positive B Hrange Hr)
    as (bounded & s' & B' & Hrun & _ & Hnew & Hframe & Hlon & _ & Hmin & _
        & _ & Hsame & _).
  refine (conj Hrange (conj Hr _)).
  exists bounded, s', B'.
  refine (conj Hrun (conj Hnew (conj (Hframe _ _ Hr) (conj Hlon (conj _ _))))).
  - apply Hsame. split; discriminate.
  - exact (proj1 Hmin).
Defined.

End BoundFacts.

(** ** Placing a stored tile in the requested tile *)

(** [determinePositionAndScale] (lines 1554 to 1613) places a stored tile
    in the requested tile by the pixel mapping: the destination corner
    [(dx, dy)] is the pixel of the upper left corner of the stored tile's
    box, and [(dx + dWidth, dy + dHeight)] the pixel of its lower right
    corner, in the box and the pixel size of the requested tile; the source
    rectangle is the whole stored tile.  A stored tile with the bounds of
    the requested one goes to the corner (0, 0) at full size. *)
Theorem determinePositionAndScale_is_the_pixel_mapping
    (tileBox : BoundingBox Q) (tileHeight tileWidth : Q)
    (total : BoundingBox Q) (totalHeight totalWidth : Q) :
  (minLongitude total < maxLongitude total)%Q ->
  (minLatitude total < maxLatitude total)%Q ->
  let p :=
    Lower.determinePositionAndScale tileBox tileHeight tileWidth
      total totalHeight totalWidth in
  (Lower.dx p == Upper.getXPixel totalWidth total (minLongitude tileBox) /\
   Lower.dy p == Upper.getYPixel totalHeight total (maxLatitude tileBox) /\
   Lower.dx p + Lower.dWidth p
   == Upper.getXPixel totalWidth total (maxLongitude tileBox) /\
   Lower.dy p + Lower.dHeight p
   == Upper.getYPixel totalHeight total (minLatitude tileBox))%Q /\
  Lower.sx p = 0%Q /\ Lower.sy p = 0%Q /\
  Lower.sWidth p = tileWidth /\ Lower.sHeight p = tileHeight /\
  Lower.xPositionInFinalTileStart p = Lower.dx p /\
  Lower.yPositionInFinalTileStart p = Lower.dy p /\
  (same_bounds tileBox total ->
   (Lower.dx p == 0 /\ Lower.dy p == 0 /\
    Lower.dWidth p == totalWidth /\ Lower.dHeight p == totalHeight)%Q).
Proof.
  intros Hx Hy. cbv zeta.
  unfold Lower.determinePositionAndScale, Upper.getXPixel, Upper.getYPixel,
    same_bounds.
  cbv zeta.
  cbn [Lower.dx Lower.dy Lower.sx Lower.sy Lower.dWidth Lower.dHeight
       Lower.sWidth Lower.sHeight Lower.xPositionInFinalTileStart
       Lower.yPositionInFinalTileStart add sub mul div Number_Q].
  repeat split; try reflexivity; try (field; lra).
  - destruct H as (E1 & E2 & E3 & E4). rewrite E1. field. lra.
  - destruct H as (E1 & E2 & E3 & E4). rewrite E4. field. lra.
  - destruct H as (E1 & E2 & E3 & E4). rewrite E1, E3. field. lra.
  - destruct H as (E1 & E2 & E3 & E4). rewrite E2, E4. field. lra.
Qed.

Lemma determinePositionAndScale_is_the_pixel_mapping_witness :
  let total := {| minLongitude := 0; minLatitude := 0;
                  maxLongitude := 100; maxLatitude := 100 |}%Q in
  let tileBox := {| minLongitude := 25; minLatitude := 50;
                    maxLongitude := 75; maxLatitude := 100 |}%Q in
  let p := Lower.determinePositionAndScale tileBox 256 256 total 512 512 in
  (minLongitude total < maxLongitude total)%Q /\
  (minLatitude total < maxLatitude total)%Q /\
  (Lower.dx p == 128 /\ Lower.dy p == 0 /\
   Lower.dWidth p == 256 /\ Lower.dHeight p == 256)%Q /\
  (Lower.dx p + Lower.dWidth p == Upper.getXPixel 512 total 75)%Q.
Proof.
  intros total tileBox p.
  assert (Hx : (minLongitude total < maxLongitude total)%Q) by reflexivity.
  assert (Hy : (minLatitude total < maxLatitude total)%Q) by reflexivity.
  destruct (determinePositionAndScale_is_the_pixel_mapping tileBox 256 256
              total 512 512 Hx Hy) as ((_ & _ & Hright & _) & _).
  refine (conj Hx (conj Hy (conj _ Hright))).
  repeat split; reflexivity.
Defined.

(** ** The pixel rectangle of a section of a box *)

Lemma roundZ_mono (x y : Q) : (x <= y)%Q -> roundZ x <= roundZ y.
Proof. intros H. unfold roundZ. apply Qfloor_resp_le. lra. Qed.

(** [getFloatRoundedRectangle] (lines 2049 to 2056), over a box of
    positive extent and a positive pixel size: the rectangle of the box
    itself starts at pixel (0, 0) and ends at the rounded pixel size; the
    sides of the rectangle of a section keep the order of the section's
    bounds; and a rectangle is marked valid only when the section has a
    positive width and a positive height. *)
Theorem getFloatRoundedRectangle_valid_only_for_a_proper_section
    (w h : Q) (box section : BoundingBox Q) :
  (minLongitude box < maxLongitude box)%Q ->
  (minLatitude box < maxLatitude box)%Q ->
  (0 < w)%Q -> (0 < h)%Q ->
  let r := Lower.getFloatRoundedRectangle w h box section in
  let whole := Lower.getFloatRoundedRectangle w h box box in
  (Lower.left whole = 0 /\ Lower.top whole = 0 /\
   Lower.right whole = roundZ w /\ Lower.bottom whole = roundZ h) /\
  ((minLongitude section <= maxLongitude section)%Q ->
   Lower.left r <= Lower.right r) /\
  ((minLatitude section <= maxLatitude section)%Q ->
   Lower.top r <= Lower.bottom r) /\
  (Lower.isValid r = true ->
   (minLongitude section < maxLongitude section)%Q /\
   (minLatitude section < maxLatitude section)%Q).
Proof.
  intros Hx Hy Hw Hh. cbv zeta.
  unfold Lower.getFloatRoundedRectangle, Lower.getXPixel, Lower.getYPixel,
    width, height.
  cbv zeta.
  cbn [Lower.left Lower.right Lower.top Lower.bottom Lower.isValid
       add sub mul div Number_Q].
  set (minX := minLongitude box) in *. set (maxX := maxLongitude box) in *.
  set (minY := minLatitude box) in *. set (maxY := maxLatitude box) in *.
  assert (Mx : forall a b : Q,
             (a <= b)%Q ->
             ((a - minX) / (maxX - minX) * w
              <= (b - minX) / (maxX - minX) * w)%Q).
  { intros a b Hab. apply Qmult_le_compat_r; [| lra].
    apply Qdiv_le_compat_r; lra. }
  assert (My : forall a b : Q,
             (a <= b)%Q ->
             ((maxY - b) / (maxY - minY) * h
              <= (maxY - a) / (maxY - minY) * h)%Q).
  { intros a b Hab. apply Qmult_le_compat_r; [| lra].
    apply Qdiv_le_compat_r; lra. }
  split; [| split; [| split]].
  - assert (E0x : ((minX - minX) / (maxX - minX) * w == inject_Z 0)%Q)
      by (change (inject_Z 0) with 0%Q; field; lra).
    assert (E0y : ((maxY - maxY) / (maxY - minY) * h == inject_Z 0)%Q)
      by (change (inject_Z 0) with 0%Q; field; lra).
    assert (E1x : ((maxX - minX) / (maxX - minX) * w == w)%Q)
      by (field; lra).
    assert (E1y : ((maxY - minY) / (maxY - minY) * h == h)%Q)
      by (field; lra).
    rewrite (roundZ_comp _ _ E0x), (roundZ_comp _ _ E0y),
      (roundZ_comp _ _ E1x), (roundZ_comp _ _ E1y), roundZ_inject_Z.
    repeat split; reflexivity.
  - intros Hs. apply roundZ_mono, Mx, Hs.
  - intros Hs. apply roundZ_mono, My, Hs.
  - intros Hv. apply andb_true_iff in Hv. destruct Hv as [Hl Ht].
    apply Z.ltb_lt in Hl, Ht. split.
    + destruct (Qlt_le_dec (minLongitude section) (maxLongitude section))
        as [Hlt | Hge]; [exact Hlt | exfalso].
      pose proof (roundZ_mono _ _ (Mx _ _ Hge)). lia.
    + destruct (Qlt_le_dec (minLatitude section) (maxLatitude section))
        as [Hlt | Hge]; [exact Hlt | exfalso].
      pose proof (roundZ_mono _ _ (My _ _ Hge)). lia.
Qed.

Lemma getFloatRoundedRectangle_valid_only_for_a_proper_section_witness :
  let box := {| minLongitude := 0; minLatitude := 0;
                maxLongitude := 10; maxLatitude := 10 |}%Q in
  let section := {| minLongitude := 2; minLatitude := 3;
                    maxLongitude := 7; maxLatitude := 5 |}%Q in
  let r := Lower.getFloatRoundedRectangle 256 256 box section in
  (minLongitude box < maxLongitude box)%Q /\
  (minLatitude box < maxLatitude box)%Q /\
  (0 < 256)%Q /\
  r = {| Lower.left := 51; Lower.right := 179; Lower.bottom := 179;
         Lower.top := 128; Lower.isValid := true |} /\
  (minLongitude section < maxLongitude section)%Q /\
  (minLatitude section < maxLatitude section)%Q.
Proof.
  intros box section r.
  assert (Hx : (minLongitude box < maxLongitude box)%Q) by reflexivity.
  assert (Hy : (minLatitude box < maxLatitude box)%Q) by reflexivity.
  assert (Hw : (0 < 256)%Q) by reflexivity.
  refine (conj Hx (conj Hy (conj Hw (conj _ _)))).
  - reflexivity.
  - apply (getFloatRoundedRectangle_valid_only_for_a_proper_section
             256 256 box section Hx Hy Hw Hw).
    reflexivity.
Defined.

(** * Further properties of [GeoPackageTileRetriever] *)

Section RetrievalFacts.
Import Retriever.

(** The chain of [creator.addTile] calls: the calls made are the first
    calls of the chain, all of them when none is rejected, and the chain is
    fulfilled when every call is. *)
Lemma addTiles_calls (c : Collaborators) (rows : list Tile) :
  forall log : list Event,
  exists evs : list Event,
    snd (addTiles c
           (map (fun tile => (getTileData tile, getTileColumn tile, getRow tile))
                rows) log)
    = log ++ evs /\
    evs `prefix_of` addTile_events rows /\
    (forall u : unit,
        fst (addTiles c
               (map (fun tile =>
                       (getTileData tile, getTileColumn tile, getRow tile))
                    rows) log) = Fulfilled u ->
        evs = addTile_events rows) /\
    ((forall tile, tile ∈ rows ->
        addTile_answer c (getTileData tile) (getTileColumn tile) (getRow tile)
        = Fulfilled tt) ->
     fst (addTiles c
            (map (fun tile =>
                    (getTileData tile, getTileColumn tile, getRow tile))
                 rows) log) = Fulfilled tt).
Proof.
  induction rows as [| tile rows IH]; intros log.
  - exists []. cbn. rewrite app_nil_r. repeat split; auto.
  - cbn [map addTiles]. unfold bind, call.
    destruct (addTile_answer c (getTileData tile) (getTileColumn tile)
                (getRow tile)) as [u | reason] eqn:E.
    + destruct (IH (log ++
                    [TileCreator_addTile (getTileData tile)
                       (getTileColumn tile) (getRow tile)]))
        as (evs & Hlog & Hpre & Hall & Hok).
      exists (TileCreator_addTile (getTileData tile) (getTileColumn tile)
                (getRow tile) :: evs).
      split; [| split; [| split]].
      * rewrite Hlog, <- app_assoc. reflexivity.
      * cbn [addTile_events map]. apply prefix_cons. exact Hpre.
      * intros u' Hu. cbn [addTile_events map]. f_equal. exact (Hall u' Hu).
      * intros Hrows. apply Hok. intros t Ht. apply Hrows. right. exact Ht.
    + exists [TileCreator_addTile (getTileData tile) (getTileColumn tile)
                (getRow tile)].
      cbn [fst snd]. split; [reflexivity |]. split; [| split].
      * cbn [addTile_events map]. apply prefix_cons. apply prefix_nil.
      * intros u Hu. discriminate.
      * intros Hrows.
        rewrite (Hrows tile ltac:(left)) in E. discriminate.
Qed.

(** [getTileWithBounds], step by step, when the tile DAO holds a tile
    matrix for the zoom level. *)
Lemma getTileWithBounds_steps
    (c : Collaborators) (this : This) (targetBoundingBox : BoundingBox Q)
    (zoom : option Z) (targetProjection : string) (canvas : bool)
    (log : list Event) (tileMatrix : TileMatrix) :
  tileDao_getTileMatrixWithZoomLevel c zoom = Some tileMatrix ->
  let tileGrid :=
    Lower.getTileGridWithTotalBoundingBox (tileMatrixSet_getBoundingBox c)
      (matrix_width tileMatrix) (matrix_height tileMatrix)
      (projectBoundingBox c targetBoundingBox targetProjection
         (tileDao_projection c)) in
  let init :=
    TileCreator_initialize
      (or_else (this_width this) (tile_width tileMatrix))
      (or_else (this_height this) (tile_height tileMatrix))
      tileMatrix targetBoundingBox targetProjection canvas in
  let query := TileDao_queryByTileGrid tileGrid (zoom_level tileMatrix) in
  getTileWithBounds c this targetBoundingBox zoom targetProjection canvas log
  = match initialize_answer c with
    | Rejected reason => (Rejected reason, log ++ [init])
    | Fulfilled _ =>
        match queryByTileGrid_answer c tileGrid (zoom_level tileMatrix) with
        | Rejected reason => (Rejected reason, (log ++ [init]) ++ [query])
        | Fulfilled stored =>
            match addTiles c
                    (map (fun tile =>
                            (getTileData tile, getTileColumn tile, getRow tile))
                         stored)
                    ((log ++ [init]) ++ [query]) with
            | (Rejected reason, log2) => (Rejected reason, log2)
            | (Fulfilled _, log2) =>
                if canvas then (Fulfilled None, log2)
                else
                  match getCompleteTile_answer c with
                  | Fulfilled bytes =>
                      (Fulfilled (Some bytes),
                       log2 ++ [TileCreator_getCompleteTile "png"])
                  | Rejected reason =>
                      (Rejected reason,
                       log2 ++ [TileCreator_getCompleteTile "png"])
                  end
            end
        end
    end.
Proof.
  intros Htm tileGrid init query.
  unfold getTileWithBounds. rewrite Htm. cbv zeta.
  unfold retrieveTileResults, bind, call, ret. fold tileGrid init query.
  destruct (initialize_answer c); [| reflexivity].
  destruct (queryByTileGrid_answer c tileGrid (zoom_level tileMatrix));
    [| reflexivity].
  destruct (addTiles c _ _) as [[u | reason] log2]; [| reflexivity].
  destruct canvas; [reflexivity |].
  destruct (getCompleteTile_answer c); reflexivity.
Qed.

(** The calls of [getTileWithBounds] (lines 86 to 112) when the tile DAO
    holds a tile matrix for the zoom level, whatever the collaborators
    answer.  The full sequence is: [TileCreator.initialize], with the width
    and height of the retriever or, where one is zero, of the tile matrix;
    the storage query for the grid that covers the reprojected box; one
    [addTile] for each stored tile, in the order of the query's answer; and
    [getCompleteTile('png')] unless a canvas was given.  The calls made are
    always appended to the log and are the first calls of this sequence; a
    fulfilled retrieval has made all of them; and when no call is rejected
    the retrieval is fulfilled with the image of the creator or, with a
    canvas, with nothing. *)
Theorem getTileWithBounds_call_order
    (c : Collaborators) (this : This) (targetBoundingBox : BoundingBox Q)
    (zoom : option Z) (targetProjection : string) (canvas : bool)
    (log : list Event) (tileMatrix : TileMatrix) :
  tileDao_getTileMatrixWithZoomLevel c zoom = Some tileMatrix ->
  let tileGrid :=
    Lower.getTileGridWithTotalBoundingBox (tileMatrixSet_getBoundingBox c)
      (matrix_width tileMatrix) (matrix_height tileMatrix)
      (projectBoundingBox c targetBoundingBox targetProjection
         (tileDao_projection c)) in
  let answer := queryByTileGrid_answer c tileGrid (zoom_level tileMatrix) in
  let rows := match answer with Fulfilled rows => rows | Rejected _ => [] end in
  let full :=
    [TileCreator_initialize
       (or_else (this_width this) (tile_width tileMatrix))
       (or_else (this_height this) (tile_height tileMatrix))
       tileMatrix targetBoundingBox targetProjection canvas;
     TileDao_queryByTileGrid tileGrid (zoom_level tileMatrix)]
    ++ addTile_events rows
    ++ (if canvas then [] else [TileCreator_getCompleteTile "png"]) in
  let run :=
    getTileWithBounds c this targetBoundingBox zoom targetProjection canvas
      log in
  exists evs : list Event,
    snd run = log ++ evs /\ evs `prefix_of` full /\
    (forall image, fst run = Fulfilled image ->
       evs = full /\
       image = (if canvas then None
                else match getCompleteTile_answer c with
                     | Fulfilled bytes => Some bytes
                     | Rejected _ => None
                     end)) /\
    (initialize_answer c = Fulfilled tt ->
     (exists stored, answer = Fulfilled stored) ->
     (forall tile, tile ∈ rows ->
        addTile_answer c (getTileData tile) (getTileColumn tile) (getRow tile)
        = Fulfilled tt) ->
     (canvas = false -> exists bytes, getCompleteTile_answer c = Fulfilled bytes) ->
     exists image, fst run = Fulfilled image).
Proof.
  intros Htm tileGrid answer rows full run.
  subst run.
  rewrite (getTileWithBounds_steps c this targetBoundingBox zoom
             targetProjection canvas log tileMatrix Htm).
  cbv zeta. fold tileGrid. fold answer.
  set (init :=
         TileCreator_initialize
           (or_else (this_width this) (tile_width tileMatrix))
           (or_else (this_height this) (tile_height tileMatrix))
           tileMatrix targetBoundingBox targetProjection canvas) in *.
  set (query := TileDao_queryByTileGrid tileGrid (zoom_level tileMatrix)) in *.
  destruct (initialize_answer c) as [[] | reason0] eqn:E0.
  2:{ exists [init]. cbn [fst snd]. split; [reflexivity |]. split.
      - subst full. apply prefix_cons. apply prefix_nil.
      - split; [intros image Hi; discriminate |].
        intros Hi. discriminate. }
  destruct answer as [stored | reason1] eqn:E1.
  2:{ exists [init; query]. cbn [fst snd]. split.
      - rewrite <- app_assoc. reflexivity.
      - split.
        + subst full. apply prefix_cons, prefix_cons, prefix_nil.
        + split; [intros image Hi; discriminate |].
          intros _ [stored Hs]. discriminate. }
  subst rows. cbv beta iota in full.
  destruct (addTiles_calls c stored ((log ++ [init]) ++ [query]))
    as (evs & Hlog & Hpre & Hall & Hok).
  destruct (addTiles c _ _) as [[u | reason2] log2] eqn:E2;
    cbn [fst snd] in Hlog, Hall, Hok.
  2:{ exists ([init; query] ++ evs). cbn [fst snd]. split.
      - rewrite Hlog, <- !app_assoc. reflexivity.
      - split.
        + subst full. apply prefix_app.
          destruct Hpre as [k Hk].
          exists (k ++ if canvas then []
                       else [TileCreator_getCompleteTile "png"]).
          rewrite Hk, <- app_assoc. reflexivity.
        + split; [intros image Hi; discriminate |].
          intros _ _ Hrows _. specialize (Hok Hrows). discriminate. }
  pose proof (Hall u eq_refl) as Hevs. subst evs.
  destruct canvas.
  - exists ([init; query] ++ addTile_events stored).
    cbn [fst snd]. split.
    + rewrite Hlog, <- !app_assoc. reflexivity.
    + split.
      * subst full. rewrite app_nil_r. reflexivity.
      * split.
        -- intros image Hi. inversion Hi. subst full. rewrite app_nil_r.
           split; reflexivity.
        -- intros. eexists. reflexivity.
  - destruct (getCompleteTile_answer c) as [bytes | reason3] eqn:E3.
    + exists full. cbn [fst snd]. split.
      * rewrite Hlog. subst full. rewrite <- !app_assoc. reflexivity.
      * split; [reflexivity |]. split.
        -- intros image Hi. inversion Hi. split; reflexivity.
        -- intros. eexists. reflexivity.
    + exists full. cbn [fst snd]. split.
      * rewrite Hlog. subst full. rewrite <- !app_assoc. reflexivity.
      * split; [reflexivity |]. split.
        -- intros image Hi. discriminate.
        -- intros _ _ _ Hc. destruct (Hc eq_refl) as [bytes Hb]. discriminate.
Qed.

Lemma getTileWithBounds_call_order_witness :
  let world := {| minLongitude := -180; minLatitude := -90;
                  maxLongitude := 180; maxLatitude := 90 |}%Q in
  let tileMatrix := {| zoom_level := 0; matrix_width := 1; matrix_height := 1;
                       tile_width := 256; tile_height := 256 |} in
  let c := {| proj4_inverse := fun p => p;
              tileDao_widths := [360%Q];
              tileDao_maxZoom := 0;
              tileDao_projection := "EPSG:4326";
              tileDao_getTileMatrixWithZoomLevel :=
                fun zoom => match zoom with
                            | Some 0 => Some tileMatrix
                            | _ => None
                            end;
              tileMatrixSet_getBoundingBox := world;
              projectBoundingBox := fun box _ _ => box;
              initialize_answer := Fulfilled tt;
              queryByTileGrid_answer :=
                fun _ _ => Fulfilled [mkTile [] 0 0; mkTile [] 1 0];
              addTile_answer :=
                fun _ column _ =>
                  if column =? 0 then Fulfilled tt else Rejected "no image";
              getCompleteTile_answer := Fulfilled [] |} in
  let run := getTileWithBounds c (mkThis 0 0) world (Some 0) "EPSG:4326" false
               [] in
  tileDao_getTileMatrixWithZoomLevel c (Some 0) = Some tileMatrix /\
  run = (Rejected "no image",
         [TileCreator_initialize 256 256 tileMatrix world "EPSG:4326" false;
          TileDao_queryByTileGrid (mkTileGrid 0 0 0 0) 0;
          TileCreator_addTile [] 0 0;
          TileCreator_addTile [] 1 0]) /\
  exists evs : list Event,
    snd run = [] ++ evs /\
    evs `prefix_of`
      [TileCreator_initialize 256 256 tileMatrix world "EPSG:4326" false;
       TileDao_queryByTileGrid (mkTileGrid 0 0 0 0) 0;
       TileCreator_addTile [] 0 0;
       TileCreator_addTile [] 1 0;
       TileCreator_getCompleteTile "png"].
Proof.
  intros world tileMatrix c run.
  assert (Htm : tileDao_getTileMatrixWithZoomLevel c (Some 0) = Some tileMatrix)
    by reflexivity.
  destruct (getTileWithBounds_call_order c (mkThis 0 0) world (Some 0)
              "EPSG:4326" false [] tileMatrix Htm)
    as (evs & Hlog & Hpre & _).
  refine (conj Htm (conj _ _)).
  - vm_compute. reflexivity.
  - exists evs. split; [exact Hlog | exact Hpre].
Defined.

(** [drawTileIn] (lines 48 to 52) with a canvas to draw in, for a zoom
    level whose shift count is not 31 and an integer column within [2^53]:
    the call returns, and whatever the collaborators answer, the creator is
    never asked for the complete tile and a fulfilled promise carries
    nothing; the calls made are appended to the log.  Nothing here depends
    on the numbers of the box that the call computes on its way. *)
Theorem drawTileIn_with_canvas_never_asks_for_the_tile
    (pc : ProjectionConstants Q) (c : Collaborators) (this : This)
    (x y zoom : Z) (fuel : nat) (log : list Event) :
  0 <= zoom -> zoom mod 32 <> 31 ->
  Z.abs x <= 2 ^ 53 -> Z.abs x <= Z.of_nat fuel ->
  exists run,
    drawTileIn fuel pc c this x y zoom true = Some run /\
    exists evs : list Event,
      snd (run log) = log ++ evs /\
      forallb (fun e => negb (is_getCompleteTile e)) evs = true /\
      forall image, fst (run log) = Fulfilled image -> image = None.
Proof.
  intros Hz H31 _ Hfuel.
  assert (Hn : 0 < Lower.tilesPerSideWithZoom zoom).
  { rewrite (tilesPerSideWithZoom_pow2 zoom H31).
    apply Z.pow_pos_nonneg; [lia |].
    apply Z.mod_pos_bound. lia. }
  unfold drawTileIn.
  rewrite (getWebMercatorBoundingBoxFromXYZ_corrects_x fuel pc x y zoom None
             Hn Hfuel).
  eexists. split; [reflexivity |].
  set (box := Lower.boundsAfterCorrection pc _ y zoom None).
  set (gpZoom := ZoomLevel.determineGeoPackageZoomLevel _ _ _ box).
  destruct (tileDao_getTileMatrixWithZoomLevel c gpZoom) as [tileMatrix |]
    eqn:Htm.
  2:{ exists []. unfold getTileWithBounds. rewrite Htm. cbn.
      rewrite app_nil_r. repeat split. intros image Hi. congruence. }
  rewrite (getTileWithBounds_steps c this box gpZoom "EPSG:3857" true log
             tileMatrix Htm).
  cbv zeta.
  set (init := TileCreator_initialize _ _ _ _ _ _).
  set (query := TileDao_queryByTileGrid _ _).
  destruct (initialize_answer c) as [[] | reason0].
  2:{ exists [init]. cbn [fst snd]. repeat split. intros image Hi.
      discriminate. }
  destruct (queryByTileGrid_answer c _ _) as [stored | reason1].
  2:{ exists [init; query]. cbn [fst snd]. rewrite <- app_assoc.
      repeat split. intros image Hi. discriminate. }
  destruct (addTiles_calls c stored ((log ++ [init]) ++ [query]))
    as (evs & Hlog & Hpre & _).
  assert (Hevs : forallb (fun e => negb (is_getCompleteTile e)) evs = true).
  { destruct Hpre as [k Hk].
    assert (Hall : forallb (fun e => negb (is_getCompleteTile e))
                     (addTile_events stored) = true).
    { unfold addTile_events. clear. induction stored as [| t ts IH];
        [reflexivity | exact IH]. }
    rewrite Hk, forallb_app in Hall. apply andb_true_iff in Hall.
    exact (proj1 Hall). }
  destruct (addTiles c _ _) as [[u | reason2] log2]; cbn [fst snd] in Hlog |- *.
  - exists ([init; query] ++ evs). split.
    + rewrite Hlog, <- !app_assoc. reflexivity.
    + split; [exact Hevs |]. intros image Hi. congruence.
  - exists ([init; query] ++ evs). split.
    + rewrite Hlog, <- !app_assoc. reflexivity.
    + split; [exact Hevs |]. intros image Hi. discriminate.
Qed.

Lemma drawTileIn_with_canvas_never_asks_for_the_tile_witness :
  let world := {| minLongitude := -180; minLatitude := -90;
                  maxLongitude := 180; maxLatitude := 90 |}%Q in
  let c := {| proj4_inverse := fun p => p;
              tileDao_widths := [];
              tileDao_maxZoom := 0;
              tileDao_projection := "EPSG:3857";
              tileDao_getTileMatrixWithZoomLevel :=
                fun _ => Some (mkTileMatrix 0 1 1 256 256);
              tileMatrixSet_getBoundingBox := world;
              projectBoundingBox := fun box _ _ => box;
              initialize_answer := Fulfilled tt;
              queryByTileGrid_answer := fun _ _ => Fulfilled [mkTile [] 0 0];
              addTile_answer := fun _ _ _ => Fulfilled tt;
              getCompleteTile_answer := Fulfilled [] |} in
  0 <= 1 /\ 1 mod 32 <> 31 /\ Z.abs 3 <= 2 ^ 53 /\ Z.abs 3 <= Z.of_nat 3 /\
  exists run,
    drawTileIn 3 projections_js c (mkThis 256 256) 3 0 1 true = Some run /\
    exists evs : list Event,
      snd (run []) = [] ++ evs /\
      forallb (fun e => negb (is_getCompleteTile e)) evs = true /\
      forall image, fst (run []) = Fulfilled image -> image = None.
Proof.
  intros world c.
  assert (Hz : 0 <= 1) by discriminate.
  assert (H31 : 1 mod 32 <> 31) by discriminate.
  assert (Hx : Z.abs 3 <= 2 ^ 53) by discriminate.
  assert (Hfuel : Z.abs 3 <= Z.of_nat 3) by discriminate.
  refine (conj Hz (conj H31 (conj Hx (conj Hfuel _)))).
  exact (drawTileIn_with_canvas_never_asks_for_the_tile projections_js c
           (mkThis 256 256) 3 0 1 3 [] Hz H31 Hx Hfuel).
Defined.



End RetrievalFacts.

(** * Properties of [FeatureTilePointIcon] *)

Section IconFacts.
Import FeatureTilePointIcon.

Lemma resizes_keep_the_pin (fx fy : Q) (ops : list Resize) :
  forall i : Icon Q,
    ~ (width i == 0)%Q -> ~ (height i == 0)%Q ->
    Forall (fun op => ~ (resize_to op == 0)%Q) ops ->
    (xOffset i == width i * fx)%Q -> (yOffset i == height i * fy)%Q ->
    let j := fold_left resize ops i in
    (xOffset j == width j * fx /\ yOffset j == height j * fy)%Q /\
    ~ (width j == 0)%Q /\ ~ (height j == 0)%Q.
Proof.
  induction ops as [| op ops IH]; intros i Hw Hh Hops Hx Hy; cbv zeta.
  - cbn. auto.
  - apply Forall_cons in Hops. destruct Hops as [Hop Hops].
    cbn [fold_left]. apply IH; try assumption.
    + destruct op; cbn [resize setWidth setHeight width]; assumption.
    + destruct op; cbn [resize setWidth setHeight height]; assumption.
    + destruct op as [w | h];
        cbn [resize setWidth setHeight width xOffset resize_to
             mul div Number_Q] in *.
      * rewrite Hx. field. exact Hw.
      * exact Hx.
    + destruct op as [w | h];
        cbn [resize setWidth setHeight height yOffset resize_to
             mul div Number_Q] in *.
      * exact Hy.
      * rewrite Hy. field. exact Hh.
Qed.

(** The pin of an icon survives resizing.  [setWidth] and [setHeight]
    (lines 106 to 124) scale the offsets with the size, so after the
    constructor, which pins the icon at its lower middle, or after
    [pinIconCenter], any sequence of changes of the width and the height
    leaves the pin where it was in proportion: at half the width and the
    full height, or at half the width and half the height.  No size is zero
    along the way. *)
Theorem icon_pin_survives_resizing (icon_width icon_height : Q)
    (ops : list Resize) :
  ~ (icon_width == 0)%Q -> ~ (icon_height == 0)%Q ->
  Forall (fun op => ~ (resize_to op == 0)%Q) ops ->
  let pinned := fold_left resize ops (constructor icon_width icon_height) in
  let centred :=
    fold_left resize ops (pinIconCenter (constructor icon_width icon_height)) in
  (getXOffset pinned == getWidth pinned / 2 /\
   getYOffset pinned == getHeight pinned /\
   getXOffset centred == getWidth centred / 2 /\
   getYOffset centred == getHeight centred / 2)%Q.
Proof.
  intros Hw Hh Hops. cbv zeta. unfold getXOffset, getYOffset, getWidth, getHeight.
  destruct (resizes_keep_the_pin (1 # 2) 1 ops (constructor icon_width icon_height))
    as ((P1 & P2) & _); try assumption.
  { cbn. field. }
  { cbn. ring. }
  destruct (resizes_keep_the_pin (1 # 2) (1 # 2) ops
              (pinIconCenter (constructor icon_width icon_height)))
    as ((C1 & C2) & _); try assumption.
  { cbn. field. }
  { cbn. field. }
  cbv zeta in P1, P2, C1, C2.
  rewrite P1, P2, C1, C2. repeat split; field.
Qed.

Lemma icon_pin_survives_resizing_witness :
  let ops := [Width 64; Height 48; Width 10] in
  let pinned := fold_left resize ops (constructor 32%Q 32%Q) in
  ~ (32 == 0)%Q /\
  Forall (fun op => ~ (resize_to op == 0)%Q) ops /\
  (getWidth pinned == 10 /\ getHeight pinned == 48 /\
   getXOffset pinned == 5 /\ getYOffset pinned == 48)%Q /\
  (getXOffset pinned == getWidth pinned / 2)%Q.
Proof.
  intros ops pinned.
  assert (H32 : ~ (32 == 0)%Q) by discriminate.
  assert (Hops : Forall (fun op => ~ (resize_to op == 0)%Q) ops)
    by (repeat constructor; discriminate).
  refine (conj H32 (conj Hops (conj _ _))).
  - repeat split; reflexivity.
  - exact (proj1 (icon_pin_survives_resizing 32 32 ops H32 H32 Hops)).
Defined.

Lemma finite_mul_zero (x y : float) :
  is_finite x = true -> is_zero y = true -> is_zero (x * y)%float = true.
Proof.
  intros Hx Hy. apply is_zero_spec. rewrite mul_spec.
  apply is_zero_spec in Hy. destruct Hy as [sy Hy]. rewrite Hy.
  unfold is_finite in Hx. rewrite negb_true_iff, orb_false_iff in Hx.
  destruct Hx as [Hn Hi].
  destruct (Prim2SF x) as [s | s | | s m e] eqn:E.
  - cbn. eauto.
  - assert (Hinf : is_infinity x = true)
      by (apply is_infinity_spec; eauto).
    congruence.
  - assert (Hnan : is_nan x = true) by (apply is_nan_spec; exact E).
    congruence.
  - cbn. eauto.
Qed.

(** In binary64, an icon whose width was set to zero has lost its pin for
    good: [setWidth(0)] leaves a zero offset over a zero width, and the next
    [setWidth], whatever the width, computes the offset from 0 / 0: the
    icon has the new width and an x offset that is not a number. *)
Theorem setWidth_after_zero_width_is_not_a_number
    (i : Icon float) (width_ : float) :
  is_finite (xOffset i / width i)%float = true ->
  let j := setWidth width_ (setWidth 0%float i) in
  getWidth j = width_ /\ is_nan (getXOffset j) = true.
Proof.
  intros Hfin. cbv zeta.
  unfold getWidth, getXOffset, setWidth.
  cbn [width xOffset mul div Number_binary64].
  split; [reflexivity |].
  apply nan_mul. apply zero_div_zero; [reflexivity |].
  apply finite_mul_zero; [exact Hfin | reflexivity].
Qed.

Lemma setWidth_after_zero_width_is_not_a_number_witness :
  let i : Icon float := constructor 32%float 32%float in
  let j := setWidth 64%float (setWidth 0%float i) in
  is_finite (xOffset i / width i)%float = true /\
  getWidth j = 64%float /\ is_nan (getXOffset j) = true.
Proof.
  intros i j.
  assert (Hfin : is_finite (xOffset i / width i)%float = true)
    by (vm_compute; reflexivity).
  exact (conj Hfin
           (setWidth_after_zero_width_is_not_a_number i 64%float Hfin)).
Defined.

End IconFacts.

(** * Properties of [RelationType] *)

Section RelationTypeFacts.
Import RelationType.

Lemma toUpperCase_char_idempotent (ch : Ascii.ascii) :
  toUpperCase_char (toUpperCase_char ch) = toUpperCase_char ch.
Proof. destruct ch as [[] [] [] [] [] [] [] []]; reflexivity. Qed.

Lemma toUpperCase_idempotent (s : string) :
  toUpperCase (toUpperCase s) = toUpperCase s.
Proof.
  induction s as [| ch s IH]; [reflexivity |].
  cbn [toUpperCase]. rewrite toUpperCase_char_idempotent, IH. reflexivity.
Qed.

(** [fromName] (lines 48 to 50) finds each of the five relation types by
    its own name; on ASCII names it does not depend on the case of the
    letters, and it answers a relation type exactly for the names that
    are, up to the case of their letters, the name of that relation
    type: every other name gives [undefined]. *)
Theorem fromName_round_trip :
  (forall t : RelationType,
      In t [FEATURES; SIMPLE_ATTRIBUTES; MEDIA; ATTRIBUTES; TILES] ->
      fromName (name t) = Some t) /\
  (forall s : string,
      is_ascii s = true -> fromName (toUpperCase s) = fromName s) /\
  (forall (s : string) (t : RelationType),
      is_ascii s = true ->
      fromName s = Some t <->
      In t [FEATURES; SIMPLE_ATTRIBUTES; MEDIA; ATTRIBUTES; TILES] /\
      toUpperCase s = toUpperCase (name t)).
Proof.
  assert (Hown : forall t : RelationType,
             In t [FEATURES; SIMPLE_ATTRIBUTES; MEDIA; ATTRIBUTES; TILES] ->
             fromName (name t) = Some t).
  { intros t Ht. cbn [In] in Ht.
    destruct Ht as [<- | [<- | [<- | [<- | [<- | []]]]]]; reflexivity. }
  split; [exact Hown | split].
  - intros s _. unfold fromName. rewrite toUpperCase_idempotent. reflexivity.
  - intros s t _. split.
    + unfold fromName. generalize (toUpperCase s) as key.
      intros key. unfold static_fields. cbn [property].
      repeat match goal with
             | |- context [String.eqb key ?k] =>
                 destruct (String.eqb_spec key k) as [-> | _]
             end;
        intros Ht; inversion Ht; subst; cbn [In];
        split; auto 10.
    + intros [Ht E]. unfold fromName. rewrite E.
      change (property (toUpperCase (name t)) static_fields)
        with (fromName (name t)).
      apply Hown. exact Ht.
Qed.

End RelationTypeFacts.

(** * Properties of [GeoPackageConnection] *)

Section ConnectionFacts.
Import GeoPackageConnection.

Lemma Array_indexOf_absent (x : string) (l : list string) :
  Array_indexOf x l = -1 <-> x ∉ l.
Proof.
  induction l as [| y l IH]; cbn [Array_indexOf].
  - split; [intros _; apply not_elem_of_nil | reflexivity].
  - rewrite not_elem_of_cons.
    destruct (String.eqb_spec x y) as [-> | Hne].
    + split; [discriminate | intros [H _]; congruence].
    + destruct (Z.eqb_spec (Array_indexOf x l) (-1)) as [E | E].
      * split; [intros _; split; [exact Hne | apply IH; exact E] | reflexivity].
      * assert (Hge : -1 <= Array_indexOf x l).
        { clear. induction l as [| z l IHl]; cbn [Array_indexOf]; [lia |].
          destruct (String.eqb x z); [lia |].
          destruct (Z.eqb_spec (Array_indexOf x l) (-1)); lia. }
        split; [lia | intros [_ H]; apply IH in H; congruence].
Qed.

(** [registerFunction] (lines 77 to 83) registers each name once.  After
    the constructor and any sequence of calls, the field
    [registeredFunctions] holds the names of the calls without a
    repetition, the adapter has received one registration for each of them,
    in the same order, and the definition that the adapter holds for a name
    is the one of the first call with that name: a later call with the
    same name changes nothing. *)
Theorem registerFunction_registers_each_name_once {Function_ : Type}
    (calls : list (string * Function_)) :
  let final :=
    fold_left (fun this call => registerFunction this (fst call) (snd call))
      calls constructor in
  NoDup (registeredFunctions final) /\
  map fst (adapter_registerFunction final) = registeredFunctions final /\
  (forall name : string,
      name ∈ registeredFunctions final <-> name ∈ map fst calls) /\
  (forall (name : string) (functionDefinition : Function_),
      (name, functionDefinition) ∈ adapter_registerFunction final ->
      exists before after,
        calls = before ++ (name, functionDefinition) :: after /\
        name ∉ map fst before).
Proof.
  cbv zeta. induction calls as [| [name def] calls IH] using rev_ind.
  - cbn. split; [constructor |]. split; [reflexivity |]. split.
    + intros name. reflexivity.
    + intros name def H. apply elem_of_nil in H. contradiction.
  - rewrite fold_left_app. cbn [fold_left fst snd].
    set (state := fold_left _ calls constructor) in *.
    destruct IH as (Hnodup & Hmap & Hnames & Hfirst).
    unfold registerFunction.
    destruct (Z.eqb_spec (Array_indexOf name (registeredFunctions state)) (-1))
      as [Habsent | Hpresent].
    + apply Array_indexOf_absent in Habsent.
      cbn [registeredFunctions adapter_registerFunction].
      split; [| split; [| split]].
      * apply NoDup_app. split; [exact Hnodup |]. split.
        -- intros x Hx Hx'. apply list_elem_of_singleton in Hx'. subst x.
           contradiction.
        -- apply NoDup_singleton.
      * rewrite map_app, Hmap. reflexivity.
      * intros n. rewrite map_app, !elem_of_app, Hnames. reflexivity.
      * intros n d Hin. apply elem_of_app in Hin. destruct Hin as [Hin | Hin].
        -- destruct (Hfirst n d Hin) as (before & after & -> & Hb).
           exists before, (after ++ [(name, def)]). split; [| exact Hb].
           rewrite <- app_assoc. reflexivity.
        -- apply list_elem_of_singleton in Hin. inversion Hin; subst n d.
           exists calls, []. split; [reflexivity |].
           intros Hc. apply Hnames in Hc. contradiction.
    + assert (Hin : name ∈ registeredFunctions state).
      { destruct (decide (name ∈ registeredFunctions state)) as [H | H];
          [exact H |].
        apply Array_indexOf_absent in H. contradiction. }
      split; [exact Hnodup |]. split; [exact Hmap |]. split.
      * intros n. rewrite map_app, elem_of_app, <- Hnames. cbn [map fst].
        rewrite list_elem_of_singleton. split; [auto |].
        intros [H | ->]; assumption.
      * intros n d Hd.
        destruct (Hfirst n d Hd) as (before & after & -> & Hb).
        exists before, (after ++ [(name, def)]). split; [| exact Hb].
        rewrite <- app_assoc. reflexivity.
Qed.

Lemma index_0_is_prefix (s1 s2 : string) :
  (String_indexOf s2 s1 =? 0) = String.prefix s1 s2 || String.eqb s1 EmptyString
  \/ s2 = EmptyString.
Proof.
  destruct s2 as [| ch s2]; [right; reflexivity | left].
  unfold String_indexOf. cbn [String.index].
  destruct (String.prefix s1 (String ch s2)) eqn:E.
  - reflexivity.
  - destruct s1 as [| ch1 s1]; [discriminate E |].
    cbn [String.eqb orb].
    destruct (String.index 0 (String ch1 s1) s2) as [k |]; reflexivity.
Qed.

(** The statement that [minOfColumn] and [maxOfColumn] (lines 147 to 176)
    hand to the adapter.  Without a where clause, or with an empty one, it
    is the bare selection.  Otherwise the where clause follows after a
    space, with the word [where] and a space put before it exactly when the
    clause does not begin with the lower-case word [where]; a clause that
    begins with the upper-case word gets the word a second time.  [delete]
    (lines 215 to 221) always puts [WHERE] before a clause that is not
    empty. *)
Theorem where_clause_of_statement {Args Value : Type}
    (adapter : string -> option Args -> Value) (table column : string)
    (where_ : option string) (whereArgs : option Args) :
  let clause :=
    match where_ with
    | None | Some EmptyString => EmptyString
    | Some text =>
        if String.prefix "where" text then (" " ++ text)%string
        else (" where " ++ text)%string
    end in
  minOfColumn adapter table column where_ whereArgs
  = adapter ("select min(" ++ column ++ ") as min from " ++ table ++ clause)%string
      whereArgs /\
  maxOfColumn adapter table column where_ whereArgs
  = adapter ("select max(" ++ column ++ ") as max from " ++ table ++ clause)%string
      whereArgs /\
  delete adapter table where_ whereArgs
  = adapter ("DELETE FROM " ++ table
             ++ match where_ with
                | None | Some EmptyString => EmptyString
                | Some text => " WHERE " ++ text
                end)%string
      whereArgs.
Proof.
  assert (Happ : forall a b c : string,
             ((a ++ b) ++ c = a ++ b ++ c)%string).
  { intros a b c. induction a as [| ch a IH]; [reflexivity |].
    change (String ch ((a ++ b) ++ c) = String ch (a ++ b ++ c))%string.
    rewrite IH. reflexivity. }
  assert (Hnil : forall a : string, (a ++ EmptyString = a)%string).
  { intros a. induction a as [| ch a IH]; [reflexivity |].
    change (String ch (a ++ EmptyString) = String ch a)%string.
    rewrite IH. reflexivity. }
  cbv zeta. unfold minOfColumn, maxOfColumn, delete. cbv zeta.
  destruct where_ as [[| ch text] |]; cbn [truthy_string default id];
    rewrite ?Hnil; try (repeat split; reflexivity).
  destruct (index_0_is_prefix "where" (String ch text)) as [E | E];
    [| discriminate E].
  rewrite E. cbn [String.eqb orb]. rewrite orb_false_r.
  destruct (String.prefix "where" (String ch text)); cbn [negb];
    rewrite !Happ; repeat split; reflexivity.
Qed.

End ConnectionFacts.

(** ** The tile grid of a box, upper part of the class *)

Lemma roundZ_eq_iff (x : Q) (k : Z) :
  roundZ x = k <-> (inject_Z k - (1 # 2) <= x /\ x < inject_Z k + (1 # 2))%Q.
Proof.
  unfold roundZ. split.
  - intros <-. pose proof (Qfloor_le (x + (1 # 2))) as H1.
    pose proof (Qlt_floor (x + (1 # 2))) as H2.
    rewrite inject_Z_succ in H2. split; lra.
  - intros [H1 H2].
    destruct (Qfloor_bounds (x + (1 # 2)) k (k + 1)) as [B1 B2].
    + lra.
    + rewrite inject_Z_succ. lra.
    + lia.
Qed.

(** The three answers of [getTileColumn]: a longitude in the right half
    of the last column is rounded up to [matrixWidth]. *)
Lemma getTileColumn_cases (box : BoundingBox Q) (w : Z) (lon : Q) :
  (minLongitude box < maxLongitude box)%Q -> 1 <= w ->
  let tw := ((maxLongitude box - minLongitude box) / inject_Z w)%Q in
  let col := Upper.getTileColumn box w lon in
  -1 <= col <= w /\
  (col = -1 <-> (lon < minLongitude box)%Q) /\
  (col = w <-> (maxLongitude box - tw / 2 <= lon)%Q).
Proof.
  intros Hbox Hw. cbv zeta.
  pose proof (tile_extent_pos _ _ w Hbox Hw) as Htw.
  pose proof (inject_Z_pos w Hw) as Pw.
  unfold Upper.getTileColumn. cbv zeta. unfold ge.
  set (minX := minLongitude box) in *. set (maxX := maxLongitude box) in *.
  set (tw := ((maxX - minX) / inject_Z w)%Q) in *.
  assert (Ew : (inject_Z w * tw == maxX - minX)%Q) by (unfold tw; field; lra).
  assert (Hw1 : (1 <= inject_Z w)%Q)
    by (change 1%Q with (inject_Z 1); rewrite <- Zle_Qle; lia).
  assert (Htw' : (tw <= maxX - minX)%Q).
  { rewrite <- Ew. rewrite <- (Qmult_1_l tw) at 1.
    apply Qmult_le_compat_r; lra. }
  assert (Hhalf : (tw / 2 + tw / 2 == tw)%Q) by field.
  clearbody tw minX maxX.
  destruct (lt lon minX) eqn:E1.
  { apply lt_true_iff in E1. split; [lia |]. split.
    - tauto.
    - split; [lia |]. intros H. exfalso. lra. }
  apply lt_false_iff in E1.
  destruct (le maxX lon) eqn:E2.
  { apply le_true_iff in E2. split; [lia |]. split.
    - split; [lia | intros H; lra].
    - split; [intros _; lra | reflexivity]. }
  apply le_false_iff in E2.
  set (r := ((lon - minX) / tw)%Q).
  assert (Er : (r * tw == lon - minX)%Q) by (unfold r; field; lra).
  assert (Hr0 : (0 <= r)%Q) by (apply Qle_shift_div_l; lra).
  assert (Hr1 : (r < inject_Z w)%Q)
    by (apply Qlt_shift_div_r; [exact Htw | lra]).
  set (k := roundZ r).
  assert (Hk : roundZ r = k) by reflexivity.
  apply roundZ_eq_iff in Hk. destruct Hk as [K1 K2].
  assert (Hk0 : 0 <= k).
  { assert (H : (inject_Z (-1) < inject_Z k)%Q)
      by (change (inject_Z (-1)) with (-1)%Q; lra).
    rewrite <- Zlt_Qlt in H. lia. }
  assert (Hkw : k <= w).
  { assert (H : (inject_Z k < inject_Z (w + 1))%Q)
      by (rewrite inject_Z_succ; lra).
    rewrite <- Zlt_Qlt in H. lia. }
  split; [lia |]. split.
  - split; [lia | intros H; lra].
  - split.
    + intros ->. nra.
    + intros H.
      assert (Hge : (inject_Z w - (1 # 2) <= r)%Q) by nra.
      assert (Hlt : (inject_Z (w - 1) < inject_Z k)%Q).
      { replace (w - 1) with (w + -1) by lia. rewrite inject_Z_plus.
        change (inject_Z (-1)) with (-1)%Q. lra. }
      rewrite <- Zlt_Qlt in Hlt. lia.
Qed.

(** The three answers of [getTileRow]: a latitude in the lower half of
    the last row is rounded up to [matrixHeight]. *)
Lemma getTileRow_cases (box : BoundingBox Q) (h : Z) (lat : Q) :
  (minLatitude box < maxLatitude box)%Q -> 1 <= h ->
  let th := ((maxLatitude box - minLatitude box) / inject_Z h)%Q in
  let row := Upper.getTileRow box h lat in
  -1 <= row <= h /\
  (row = -1 <-> (maxLatitude box < lat)%Q) /\
  (row = h <-> (lat <= minLatitude box + th / 2)%Q).
Proof.
  intros Hbox Hh. cbv zeta.
  pose proof (tile_extent_pos _ _ h Hbox Hh) as Hth.
  pose proof (inject_Z_pos h Hh) as Ph.
  unfold Upper.getTileRow. cbv zeta. unfold gt.
  set (minY := minLatitude box) in *. set (maxY := maxLatitude box) in *.
  set (th := ((maxY - minY) / inject_Z h)%Q) in *.
  assert (Eh : (inject_Z h * th == maxY - minY)%Q) by (unfold th; field; lra).
  assert (Hh1 : (1 <= inject_Z h)%Q)
    by (change 1%Q with (inject_Z 1); rewrite <- Zle_Qle; lia).
  assert (Hth' : (th <= maxY - minY)%Q).
  { rewrite <- Eh. rewrite <- (Qmult_1_l th) at 1.
    apply Qmult_le_compat_r; lra. }
  assert (Hhalf : (th / 2 + th / 2 == th)%Q) by field.
  clearbody th minY maxY.
  destruct (le lat minY) eqn:E1.
  { apply le_true_iff in E1. split; [lia |]. split.
    - split; [lia | intros H; lra].
    - split; [intros _; lra | reflexivity]. }
  apply le_false_iff in E1.
  destruct (lt maxY lat) eqn:E2.
  { apply lt_true_iff in E2. split; [lia |]. split.
    - tauto.
    - split; [lia |]. intros H. exfalso. lra. }
  apply lt_false_iff in E2.
  set (r := ((maxY - lat) / th)%Q).
  assert (Er : (r * th == maxY - lat)%Q) by (unfold r; field; lra).
  assert (Hr0 : (0 <= r)%Q) by (apply Qle_shift_div_l; lra).
  assert (Hr1 : (r < inject_Z h)%Q)
    by (apply Qlt_shift_div_r; [exact Hth | lra]).
  set (k := roundZ r).
  assert (Hk : roundZ r = k) by reflexivity.
  apply roundZ_eq_iff in Hk. destruct Hk as [K1 K2].
  assert (Hk0 : 0 <= k).
  { assert (H : (inject_Z (-1) < inject_Z k)%Q)
      by (change (inject_Z (-1)) with (-1)%Q; lra).
    rewrite <- Zlt_Qlt in H. lia. }
  assert (Hkh : k <= h).
  { assert (H : (inject_Z k < inject_Z (h + 1))%Q)
      by (rewrite inject_Z_succ; lra).
    rewrite <- Zlt_Qlt in H. lia. }
  split; [lia |]. split.
  - split; [lia | intros H; lra].
  - split.
    + intros ->. nra.
    + intros H.
      assert (Hge : (inject_Z h - (1 # 2) <= r)%Q) by nra.
      assert (Hlt : (inject_Z (h - 1) < inject_Z k)%Q).
      { replace (h - 1) with (h + -1) by lia. rewrite inject_Z_plus.
        change (inject_Z (-1)) with (-1)%Q. lra. }
      rewrite <- Zlt_Qlt in Hlt. lia.
Qed.

Lemma getTileColumn_mono (box : BoundingBox Q) (w : Z) (lon1 lon2 : Q) :
  (minLongitude box < maxLongitude box)%Q -> 1 <= w -> (lon1 <= lon2)%Q ->
  Upper.getTileColumn box w lon1 <= Upper.getTileColumn box w lon2.
Proof.
  intros Hbox Hw Hle.
  pose proof (tile_extent_pos _ _ w Hbox Hw) as Htw.
  destruct (getTileColumn_cases box w lon1 Hbox Hw) as (R1 & A1 & B1).
  destruct (getTileColumn_cases box w lon2 Hbox Hw) as (R2 & A2 & B2).
  revert R1 A1 B1 R2 A2 B2.
  unfold Upper.getTileColumn. cbv zeta. unfold ge.
  set (minX := minLongitude box) in *. set (maxX := maxLongitude box) in *.
  destruct (lt lon1 minX) eqn:E1; [intros; lia |].
  apply lt_false_iff in E1.
  assert (E1' : lt lon2 minX = false) by (apply lt_false_iff; lra).
  rewrite E1'.
  destruct (le maxX lon2) eqn:E2.
  { destruct (le maxX lon1); intros; lia. }
  apply le_false_iff in E2.
  assert (E2' : le maxX lon1 = false) by (apply le_false_iff; lra).
  rewrite E2'. intros _ _ _ _ _ _.
  apply roundZ_mono. apply Qdiv_le_compat_r; [exact Htw | lra].
Qed.

Lemma getTileRow_anti (box : BoundingBox Q) (h : Z) (lat1 lat2 : Q) :
  (minLatitude box < maxLatitude box)%Q -> 1 <= h -> (lat1 <= lat2)%Q ->
  Upper.getTileRow box h lat2 <= Upper.getTileRow box h lat1.
Proof.
  intros Hbox Hh Hle.
  pose proof (tile_extent_pos _ _ h Hbox Hh) as Hth.
  destruct (getTileRow_cases box h lat1 Hbox Hh) as (R1 & A1 & B1).
  destruct (getTileRow_cases box h lat2 Hbox Hh) as (R2 & A2 & B2).
  revert R1 A1 B1 R2 A2 B2.
  unfold Upper.getTileRow. cbv zeta. unfold gt.
  set (minY := minLatitude box) in *. set (maxY := maxLatitude box) in *.
  destruct (le lat1 minY) eqn:E1.
  { destruct (le lat2 minY); [intros; lia |].
    destruct (lt maxY lat2); intros; lia. }
  apply le_false_iff in E1.
  assert (E1' : le lat2 minY = false) by (apply le_false_iff; lra).
  rewrite E1'.
  destruct (lt maxY lat2) eqn:E2; [intros; destruct (lt maxY lat1); lia |].
  apply lt_false_iff in E2.
  assert (E2' : lt maxY lat1 = false) by (apply lt_false_iff; lra).
  rewrite E2'. intros _ _ _ _ _ _.
  apply roundZ_mono. apply Qdiv_le_compat_r; [exact Hth | lra].
Qed.

(** The grid that [getTileGrid] (lines 839 to 868) answers for a box, in
    a tile matrix of [w] by [h] tiles over a total box.  Along each axis the
    indices are inside the matrix and in order, or both are the same
    sentinel, -1 or the matrix size.  Because [getTileColumn] and
    [getTileRow] round to the nearest index, the sentinel of the far side
    is answered not only for a box beyond the extent, but already for a box
    that begins in the last half tile before the far edge. *)
Theorem getTileGrid_inside_or_sentinel
    (total : BoundingBox Q) (w h : Z) (box : BoundingBox Q) :
  (minLongitude total < maxLongitude total)%Q ->
  (minLatitude total < maxLatitude total)%Q ->
  1 <= w -> 1 <= h ->
  (minLongitude box <= maxLongitude box)%Q ->
  (minLatitude box <= maxLatitude box)%Q ->
  let tw := ((maxLongitude total - minLongitude total) / inject_Z w)%Q in
  let th := ((maxLatitude total - minLatitude total) / inject_Z h)%Q in
  let g := Upper.getTileGrid total w h box in
  (((minLongitude total <= maxLongitude box)%Q /\
    (minLongitude box < maxLongitude total - tw / 2)%Q /\
    0 <= min_x g <= max_x g /\ max_x g < w) \/
   ((maxLongitude box < minLongitude total)%Q /\
    min_x g = -1 /\ max_x g = -1) \/
   ((maxLongitude total - tw / 2 <= minLongitude box)%Q /\
    min_x g = w /\ max_x g = w)) /\
  (((minLatitude total + th / 2 < maxLatitude box)%Q /\
    (minLatitude box <= maxLatitude total)%Q /\
    0 <= min_y g <= max_y g /\ max_y g < h) \/
   ((maxLatitude total < minLatitude box)%Q /\
    min_y g = -1 /\ max_y g = -1) \/
   ((maxLatitude box <= minLatitude total + th / 2)%Q /\
    min_y g = h /\ max_y g = h)).
Proof.
  intros Hx Hy Hw Hh Hbx Hby. cbv zeta.
  unfold Upper.getTileGrid. cbv zeta.
  pose proof (getTileColumn_mono total w _ _ Hx Hw Hbx) as Mc.
  pose proof (getTileRow_anti total h _ _ Hy Hh Hby) as Mr.
  destruct (getTileColumn_cases total w (minLongitude box) Hx Hw)
    as (C1r & C1a & C1b).
  destruct (getTileColumn_cases total w (maxLongitude box) Hx Hw)
    as (C2r & C2a & C2b).
  destruct (getTileRow_cases total h (minLatitude box) Hy Hh)
    as (R1r & R1a & R1b).
  destruct (getTileRow_cases total h (maxLatitude box) Hy Hh)
    as (R2r & R2a & R2b).
  set (tw := ((maxLongitude total - minLongitude total) / inject_Z w)%Q) in *.
  set (th := ((maxLatitude total - minLatitude total) / inject_Z h)%Q) in *.
  set (minColumn := Upper.getTileColumn total w (minLongitude box)) in *.
  set (maxColumn := Upper.getTileColumn total w (maxLongitude box)) in *.
  set (maxRow := Upper.getTileRow total h (minLatitude box)) in *.
  set (minRow := Upper.getTileRow total h (maxLatitude box)) in *.
  clearbody minColumn maxColumn maxRow minRow.
  pose proof (clamp_cases minColumn maxColumn w ltac:(lia) ltac:(lia) Hw)
    as Kc.
  pose proof (clamp_cases minRow maxRow h ltac:(lia) ltac:(lia) Hh) as Kr.
  destruct (if (minColumn <? w) && (maxColumn >=? 0) then _ else _)
    as [minColumn' maxColumn'].
  destruct (if (minRow <? h) && (maxRow >=? 0) then _ else _)
    as [minRow' maxRow'].
  cbn [min_x max_x min_y max_y].
  split.
  - destruct Kc as [(K1 & K2 & K3 & K4) | [(K1 & K2 & K3) | (K1 & K2 & K3)]].
    + left. repeat split; try lia.
      * destruct (Qlt_le_dec (maxLongitude box) (minLongitude total))
          as [Hlt | Hge]; [| exact Hge].
        apply C2a in Hlt. lia.
      * destruct (Qlt_le_dec (minLongitude box)
                    (maxLongitude total - tw / 2)) as [Hlt | Hge];
          [exact Hlt |].
        apply C1b in Hge. lia.
    + right; left. repeat split; try assumption. apply C2a. exact K1.
    + right; right. repeat split; try assumption. apply C1b. exact K1.
  - destruct Kr as [(K1 & K2 & K3 & K4) | [(K1 & K2 & K3) | (K1 & K2 & K3)]].
    + left. repeat split; try lia.
      * destruct (Qlt_le_dec (minLatitude total + th / 2) (maxLatitude box))
          as [Hlt | Hge]; [exact Hlt |].
        apply R2b in Hge. lia.
      * destruct (Qlt_le_dec (maxLatitude total) (minLatitude box))
          as [Hlt | Hge]; [| exact Hge].
        apply R1a in Hlt. lia.
    + right; left. repeat split; try assumption. apply R1a. exact K1.
    + right; right. repeat split; try assumption. apply R2b. exact K1.
Qed.

Lemma getTileGrid_inside_or_sentinel_witness :
  let total := {| minLongitude := 0; minLatitude := 0;
                  maxLongitude := 10; maxLatitude := 10 |}%Q in
  let box := {| minLongitude := 96 # 10; minLatitude := 2;
                maxLongitude := 99 # 10; maxLatitude := 3 |}%Q in
  let g := Upper.getTileGrid total 10 10 box in
  (minLongitude total < maxLongitude total)%Q /\
  (minLatitude total < maxLatitude total)%Q /\
  1 <= 10 /\
  (minLongitude box <= maxLongitude box)%Q /\
  (minLatitude box <= maxLatitude box)%Q /\
  g = {| min_x := 10; min_y := 7; max_x := 10; max_y := 8 |} /\
  (((minLongitude total <= maxLongitude box)%Q /\
    (minLongitude box < maxLongitude total - (10 - 0) / inject_Z 10 / 2)%Q /\
    0 <= min_x g <= max_x g /\ max_x g < 10) \/
   ((maxLongitude box < minLongitude total)%Q /\
    min_x g = -1 /\ max_x g = -1) \/
   ((maxLongitude total - (10 - 0) / inject_Z 10 / 2 <= minLongitude box)%Q /\
    min_x g = 10 /\ max_x g = 10)).
Proof.
  intros total box g.
  assert (Hx : (minLongitude total < maxLongitude total)%Q) by reflexivity.
  assert (Hy : (minLatitude total < maxLatitude total)%Q) by reflexivity.
  assert (Hn : 1 <= 10) by discriminate.
  assert (Hbx : (minLongitude box <= maxLongitude box)%Q) by discriminate.
  assert (Hby : (minLatitude box <= maxLatitude box)%Q) by discriminate.
  refine (conj Hx (conj Hy (conj Hn (conj Hbx (conj Hby (conj _ _)))))).
  - reflexivity.
  - exact (proj1 (getTileGrid_inside_or_sentinel total 10 10 box
                    Hx Hy Hn Hn Hbx Hby)).
Defined.

(** ** The tiles of [getBoundingBox] and the size of a pixel *)

(** The boxes that [getBoundingBox] (lines 220 to 235) gives to the tiles
    of a zoom level, from 0 on, divide the world of 360 by 180 degrees into
    [2^zoom] columns and as many rows: every box is [360 / 2^zoom] degrees
    wide and [180 / 2^zoom] high, a tile ends where the next one begins, to
    the right and below, and the first and the last tile of a row and of a
    column reach the edges of the world. *)
Theorem getBoundingBox_tiles_the_world (x y zoom : Z) :
  0 <= zoom ->
  let n := 2 ^ zoom in
  let b := Upper.getBoundingBox x y zoom in
  (maxLongitude b - minLongitude b == 360 / inject_Z n /\
   maxLatitude b - minLatitude b == 180 / inject_Z n /\
   maxLongitude b == minLongitude (Upper.getBoundingBox (x + 1) y zoom) /\
   minLatitude b == maxLatitude (Upper.getBoundingBox x (y + 1) zoom) /\
   minLongitude (Upper.getBoundingBox 0 y zoom) == -180 /\
   maxLongitude (Upper.getBoundingBox (n - 1) y zoom) == 180 /\
   maxLatitude (Upper.getBoundingBox x 0 zoom) == 90 /\
   minLatitude (Upper.getBoundingBox x (n - 1) zoom) == -90)%Q.
Proof.
  intros Hz. cbv zeta.
  destruct (tilesPerSide_pow2 zoom Hz) as [En _].
  assert (Pn : 1 <= 2 ^ zoom) by (pose proof (Z.pow_pos_nonneg 2 zoom); lia).
  pose proof (inject_Z_pos _ Pn) as Pq.
  unfold Upper.getBoundingBox, Upper.tileWidthDegrees,
    Upper.tileHeightDegrees.
  cbv zeta. cbn [minLongitude maxLongitude minLatitude maxLatitude].
  rewrite En.
  replace (2 ^ zoom - 1) with (2 ^ zoom + -1) by lia.
  rewrite !inject_Z_plus.
  change (inject_Z 1) with 1%Q. change (inject_Z 0) with 0%Q.
  change (inject_Z (-1)) with (-1)%Q.
  repeat split; field; lra.
Qed.

Lemma getBoundingBox_tiles_the_world_witness :
  0 <= 2 /\
  same_bounds (Upper.getBoundingBox 1 3 2)
    {| minLongitude := -90; minLatitude := -90;
       maxLongitude := 0; maxLatitude := -45 |}%Q /\
  (maxLongitude (Upper.getBoundingBox 1 3 2)
   == minLongitude (Upper.getBoundingBox (1 + 1) 3 2))%Q.
Proof.
  assert (Hz : 0 <= 2) by discriminate.
  destruct (getBoundingBox_tiles_the_world 1 3 2 Hz) as (_ & _ & Hnext & _).
  refine (conj Hz (conj _ Hnext)).
  repeat split; reflexivity.
Defined.

(** [getPixelXSize] and [getPixelYSize] (lines 1069 to 1089) give the
    size of a pixel such that the pixels of a tile fill the box of the tile:
    the pixel size times the number of pixels of a tile is the width, or the
    height, of the box that [getTileBoundingBox] gives to any tile of the
    matrix. *)
Theorem pixel_size_fills_the_tile_box
    (total : BoundingBox Q) (tileMatrix : TileMatrix) (col row : Z) :
  1 <= matrix_width tileMatrix -> 1 <= matrix_height tileMatrix ->
  ~ (tile_width tileMatrix == 0)%Q -> ~ (tile_height tileMatrix == 0)%Q ->
  let b := Lower.getTileBoundingBox total tileMatrix col row in
  (Upper.getPixelXSize total (matrix_width tileMatrix) (tile_width tileMatrix)
   * tile_width tileMatrix
   == maxLongitude b - minLongitude b /\
   Upper.getPixelYSize total (matrix_height tileMatrix)
     (tile_height tileMatrix)
   * tile_height tileMatrix
   == maxLatitude b - minLatitude b)%Q.
Proof.
  intros Hw Hh Htw Hth. cbv zeta.
  pose proof (inject_Z_pos _ Hw) as Pw. pose proof (inject_Z_pos _ Hh) as Ph.
  unfold Upper.getPixelXSize, Upper.getPixelYSize, Lower.getTileBoundingBox.
  cbv zeta.
  cbn [minLongitude maxLongitude minLatitude maxLatitude
       min_x max_x min_y max_y].
  replace (col + 1 - col) with 1 by lia.
  replace (row + 1 - row) with 1 by lia.
  change (inject_Z 1) with 1%Q.
  split; field; split; try assumption; lra.
Qed.

Lemma pixel_size_fills_the_tile_box_witness :
  let total := {| minLongitude := 0; minLatitude := 0;
                  maxLongitude := 1024; maxLatitude := 512 |}%Q in
  let tileMatrix := {| zoom_level := 1; matrix_width := 2;
                       matrix_height := 2; tile_width := 256;
                       tile_height := 256 |} in
  1 <= matrix_width tileMatrix /\ 1 <= matrix_height tileMatrix /\
  ~ (tile_width tileMatrix == 0)%Q /\ ~ (tile_height tileMatrix == 0)%Q /\
  (Upper.getPixelXSize total 2 256 == 2 /\
   Upper.getPixelYSize total 2 256 == 1)%Q /\
  (Upper.getPixelXSize total 2 256 * 256
   == maxLongitude (Lower.getTileBoundingBox total tileMatrix 1 0)
      - minLongitude (Lower.getTileBoundingBox total tileMatrix 1 0))%Q.
Proof.
  intros total tileMatrix.
  assert (Hw : 1 <= matrix_width tileMatrix) by discriminate.
  assert (Hh : 1 <= matrix_height tileMatrix) by discriminate.
  assert (Htw : ~ (tile_width tileMatrix == 0)%Q) by discriminate.
  assert (Hth : ~ (tile_height tileMatrix == 0)%Q) by discriminate.
  refine (conj Hw (conj Hh (conj Htw (conj Hth (conj _ _))))).
  - split; reflexivity.
  - exact (proj1 (pixel_size_fills_the_tile_box total tileMatrix 1 0
                    Hw Hh Htw Hth)).
Defined.

(** * Properties of [MetadataDao] *)

Section MetadataDaoFacts.
Import MetadataDao.

Lemma deleteCascade_all_calls (answer : list Event -> Z -> Z)
    (metadata : list (option Z)) :
  forall this : State,
    let '(counts, final) := deleteCascade_all answer metadata this in
    calls final
    = calls this
      ++ (if negb (metadataReferenceDao this)
             && existsb (fun m => bool_decide (is_Some m)) metadata
          then [MetadataReferenceDao_createDao] else [])
      ++ flat_map cascade metadata /\
    List.length counts = List.length metadata /\
    (forall i : nat, metadata !! i = Some None -> counts !! i = Some 0).
Proof.
  induction metadata as [| m rest IH]; intros this.
  - cbn. rewrite andb_false_r, app_nil_r. repeat split.
    intros i H. rewrite lookup_nil in H. discriminate.
  - cbn [deleteCascade_all].
    destruct (deleteCascade answer m this) as [count this1] eqn:E1.
    specialize (IH this1).
    destruct (deleteCascade_all answer rest this1) as [counts final].
    destruct IH as (Hcalls & Hlen & Hnull).
    split; [| split].
    + destruct m as [id |]; cbn in E1; inversion E1; subst; clear E1.
      * unfold getMetadataReferenceDao, record in Hcalls.
        destruct (metadataReferenceDao this) eqn:F;
          cbn [calls metadataReferenceDao negb andb] in Hcalls;
          rewrite ?F in Hcalls; cbn [negb andb app] in Hcalls;
          rewrite Hcalls; cbn [existsb flat_map cascade negb andb];
          rewrite ?bool_decide_eq_true_2 by eauto;
          cbn [orb andb app]; rewrite <- ?app_assoc; reflexivity.
      * rewrite Hcalls. cbn [existsb flat_map cascade].
        rewrite bool_decide_eq_false_2 by (intros [x Hx]; discriminate).
        reflexivity.
    + cbn [List.length]. rewrite Hlen. reflexivity.
    + intros [| i] Hi.
      * cbn in Hi. inversion Hi; subst m. cbn in E1. inversion E1.
        reflexivity.
      * cbn in Hi |- *. apply Hnull. exact Hi.
Qed.

(** [deleteCascade] (lines 53 to 65), over any sequence of calls on a new
    DAO.  A call without metadata returns 0 and makes no call.  A call with
    metadata deletes the references of the metadata, removes it as a
    parent, and only then deletes the metadata itself.  The metadata
    reference DAO is created once, before the first of these calls, and
    never when every call is without metadata. *)
Theorem deleteCascade_deletes_references_first
    (deleteById_answer : list Event -> Z -> Z) (metadata : list (option Z)) :
  let '(counts, final) :=
    deleteCascade_all deleteById_answer metadata constructor in
  calls final
  = (if existsb (fun m => bool_decide (is_Some m)) metadata
     then [MetadataReferenceDao_createDao] else [])
    ++ flat_map cascade metadata /\
  List.length counts = List.length metadata /\
  (forall i : nat, metadata !! i = Some None -> counts !! i = Some 0).
Proof.
  pose proof (deleteCascade_all_calls deleteById_answer metadata constructor)
    as H.
  destruct (deleteCascade_all deleteById_answer metadata constructor)
    as [counts final].
  exact H.
Qed.

End MetadataDaoFacts.
